(** * op-compressor: the batch image compressor, embedded and verified

    The development follows the two source files of the repository:
    - [image_compressor.py]: [get_file_size], [compress_image], [main];
    - [image_compressor_gui.py]: [compress_image_worker] and the methods of
      [ImageCompressorApp] that act on the list of files and run a batch.

    Python values are modelled as the code has them: [str] as [string],
    [int] as [Z], [None]-or-int as [option Z], the positional task tuple as
    a record.  Stateful code runs in a state-and-exception monad over a
    world made of a file system, the console and the standard input.  The
    imaging library (Pillow) and the operating system are external to the
    repository: they are modelled by a small reference semantics whose
    unknowns (codec output sizes, thumbnail rounding, spontaneous failures,
    the order in which pool workers finish) are read from an environment
    record, so that every theorem holds for all their possible behaviours.
    The file system holds directories and regular files, no symbolic
    links, and nothing but the program changes it during a run. *)

From stdpp Require Import gmap strings list fin_maps pretty.
From Stdlib Require Import Ascii ZArith Lia Permutation.

Local Open Scope Z_scope.

(** ** Python strings *)

Module Str.

(** [s.lower()] on ASCII text. *)
Definition lower_char (c : ascii) : ascii :=
  let n := nat_of_ascii c in
  if (65 <=? n)%nat && (n <=? 90)%nat then ascii_of_nat (n + 32) else c.

Fixpoint lower (s : string) : string :=
  match s with
  | "" => ""
  | String c r => String (lower_char c) (lower r)
  end.

Fixpoint startswith (s p : string) {struct p} : bool :=
  match p, s with
  | "", _ => true
  | String a p', String b s' => bool_decide (a = b) && startswith s' p'
  | String _ _, "" => false
  end.

(** [s.endswith(suf)]: [s] is [suf], or its tail ends with [suf]. *)
Fixpoint endswith (s suf : string) : bool :=
  bool_decide (s = suf)
  || match s with
     | "" => false
     | String _ r => endswith r suf
     end.

(** [s.endswith((a, b, ...))] with a tuple of suffixes. *)
Definition endswith_any (s : string) (sufs : list string) : bool :=
  existsb (endswith s) sufs.

(** [c in s] for a one-character [c]. *)
Fixpoint contains (c : ascii) (s : string) : bool :=
  match s with
  | "" => false
  | String a r => bool_decide (a = c) || contains c r
  end.

(** [s == c * len(s)]. *)
Fixpoint all_char (c : ascii) (s : string) : bool :=
  match s with
  | "" => true
  | String a r => bool_decide (a = c) && all_char c r
  end.

(** [s.rstrip(c)]. *)
Fixpoint rstrip (c : ascii) (s : string) : string :=
  match s with
  | "" => ""
  | String a r =>
      match rstrip c r with
      | "" => if bool_decide (a = c) then "" else String a ""
      | r' => String a r'
      end
  end.

(** Cut at the last occurrence of [c]: [rcut c s = Some (h, t)] when
    [i = s.rfind(c)] is not [-1], with [h = s[:i+1]] and [t = s[i+1:]]. *)
Fixpoint rcut (c : ascii) (s : string) : option (string * string) :=
  match s with
  | "" => None
  | String a r =>
      match rcut c r with
      | Some (h, t) => Some (String a h, t)
      | None => if bool_decide (a = c) then Some (String a "", r) else None
      end
  end.

(** [s.split(c)]. *)
Fixpoint split (c : ascii) (s : string) : list string :=
  match s with
  | "" => [""]
  | String a r =>
      if bool_decide (a = c) then "" :: split c r
      else match split c r with
           | h :: t => String a h :: t
           | [] => [String a ""]
           end
  end.

(** Python truthiness of a string: [bool(s)]. *)
Definition truthy (s : string) : bool := negb (bool_decide (s = "")).

(** Drop the last character. *)
Fixpoint init (s : string) : string :=
  match s with
  | "" => ""
  | String a "" => ""
  | String a r => String a (init r)
  end.

(** [repr(s)] of a [str]: between single quotes, or between double quotes
    when the text holds a single quote and no double quote; the quote in
    use, the backslash and the control characters are escaped.  The bytes
    of a character outside ASCII are kept as they are. *)
Definition hex_digit (n : nat) : ascii :=
  nth n ["0"; "1"; "2"; "3"; "4"; "5"; "6"; "7"; "8"; "9";
         "a"; "b"; "c"; "d"; "e"; "f"]%char "0"%char.

Definition printable_char (n : nat) : bool :=
  negb ((n <? 32)%nat || (n =? 127)%nat).

Definition repr_char (quote c : ascii) : string :=
  let n := nat_of_ascii c in
  if bool_decide (c = quote) || bool_decide (c = "092"%char)
  then String "092" (String c "")
  else if bool_decide (n = 9%nat) then String "092" "t"
  else if bool_decide (n = 10%nat) then String "092" "n"
  else if bool_decide (n = 13%nat) then String "092" "r"
  else if printable_char n then String c ""
  else String "092" (String "x" (String (hex_digit (n / 16))
                                         (String (hex_digit (n mod 16)) ""))).

Fixpoint repr_body (quote : ascii) (s : string) : string :=
  match s with
  | "" => ""
  | String c r => repr_char quote c +:+ repr_body quote r
  end.

Definition repr (s : string) : string :=
  let quote := if contains "'"%char s && negb (contains "034"%char s)
               then "034"%char else "'"%char in
  String quote (repr_body quote s +:+ String quote "").

End Str.

(** ** [os.path] (POSIX flavour) *)

Module os_path.

Definition sep : ascii := "/"%char.
Definition extsep : ascii := "."%char.

(** [head = p[:p.rfind('/')+1]] and the rest. *)
Definition cut_sep (p : string) : string * string :=
  match Str.rcut sep p with
  | Some (h, t) => (h, t)
  | None => ("", p)
  end.

Definition basename (p : string) : string := snd (cut_sep p).

Definition dirname (p : string) : string :=
  let head := fst (cut_sep p) in
  if Str.truthy head && negb (Str.all_char sep head)
  then Str.rstrip sep head
  else head.

Definition join (a b : string) : string :=
  if Str.startswith b "/" then b
  else if negb (Str.truthy a) || Str.endswith a "/" then a +:+ b
  else a +:+ "/" +:+ b.

(** [splitext]: the extension starts at the last dot of the last
    component, unless only dots precede it there. *)
Definition splitext (p : string) : string * string :=
  let (head, tail) := cut_sep p in
  match Str.rcut extsep tail with
  | Some (root_dot, ext) =>
      let root := Str.init root_dot in
      if Str.all_char extsep root then (p, "")
      else (head +:+ root, String extsep ext)
  | None => (p, "")
  end.

End os_path.

(** ** Exceptions, images, file system *)

(** A Python exception: its class name and [str(e)]. *)
Record Exn := mkExn { exc_type : string; exc_str : string }.

(** [Image.Dither]. *)
Inductive Dither := NONE | ORDERED | RASTERIZE | FLOYDSTEINBERG.

(** [Image.Quantize.LIBIMAGEQUANT] and [Image.Resampling.LANCZOS]. *)
Definition LIBIMAGEQUANT : Z := 3.
Definition LANCZOS : Z := 1.

(** The keyword arguments of [img.save]: the dict [save_params]. *)
Record SaveParams := mkSaveParams {
  sp_optimize : bool;
  sp_quality : option Z;
  sp_method : option Z
}.

(** Pixel data is kept symbolic: a raster is known by the chain of library
    calls that produced it, so two rasters are equal when the same calls
    with the same arguments were applied to the same source. *)
Inductive Pixels :=
| px_file (id : Z)
| px_blank
| px_resize (p : Pixels) (size : Z * Z) (resample : Z)
| px_thumbnail (p : Pixels) (size : Z * Z) (resample : Z)
| px_convert (p : Pixels) (mode : string)
| px_quantize (p : Pixels) (colors method : Z) (dither : Dither)
| px_codec (p : Pixels) (format : string) (params : SaveParams).

(** A [PIL.Image.Image]: the attributes the code reads ([mode], [size],
    the keys of [info]) and its pixel data. *)
Record Image := mkImage {
  mode : string;
  size : Z * Z;
  info : list string;
  px : Pixels
}.

(** A file-system entry: a directory, or a regular file with its length in
    bytes and the image [Image.open] decodes from it ([None]: not an image). *)
Inductive Node :=
| Dir
| File (nbytes : Z) (decoded : option Image).

(** The world a run acts on.  [fs] maps resolved paths (lists of
    components from the root) to entries; [stdout] has one element per
    [print] call. *)
Record World := mkWorld {
  fs : gmap (list string) Node;
  cwd : list string;
  stdout : list string;
  stdin : list string
}.

Definition set_fs (f : gmap (list string) Node) (w : World) : World :=
  mkWorld f (cwd w) (stdout w) (stdin w).
Definition set_stdout (o : list string) (w : World) : World :=
  mkWorld (fs w) (cwd w) o (stdin w).
Definition set_stdin (i : list string) (w : World) : World :=
  mkWorld (fs w) (cwd w) (stdout w) i.

(** The calls into the operating system and the imaging library that can
    fail for reasons the model does not track (permissions, full disk,
    missing codec, unsupported mode, ...). *)
Inductive LibCall :=
| c_getsize (p : string)
| c_listdir (p : string)
| c_makedirs (p : string)
| c_open (p : string)
| c_getdata (img : Image)
| c_new (mode : string) (size : Z * Z)
| c_putdata (img : Image) (data : Pixels)
| c_resize (img : Image) (size : Z * Z)
| c_thumbnail (img : Image) (size : Z * Z)
| c_convert (img : Image) (mode : string)
| c_quantize (img : Image) (colors method : Z) (dither : Dither)
| c_save (img : Image) (p : string) (format : string) (params : SaveParams).

(** What the model leaves to the environment. *)
Record Env := mkEnv {
  (** a call fails with this exception when the environment says so *)
  fault : LibCall → option Exn;
  (** length in bytes of the encoding of an image *)
  encoded_size : string → SaveParams → Image → Z;
  (** size [thumbnail] shrinks an image to, for a given bound *)
  thumbnail_fit : Z * Z → Z → Z * Z;
  (** [multiprocessing.cpu_count()] *)
  cpu_count : Z;
  (** the order in which the pool's workers finish the [n] jobs of a batch *)
  completion_order : nat → list nat;
  (** answers of the file dialogs *)
  askopenfilename : string;
  askdirectory : string → string;
  asksaveasfilename : string → string → string
}.

(** ** The state-and-exception monad *)

Inductive Res (A : Type) :=
| Return (a : A)
| Raise (e : Exn).
Arguments Return {A} a.
Arguments Raise {A} e.

Definition M (A : Type) : Type := World → Res A * World.

#[global] Instance M_ret : MRet M := λ A a w, (Return a, w).
#[global] Instance M_bind : MBind M := λ A B f m w,
  match m w with
  | (Return a, w') => f a w'
  | (Raise e, w') => (Raise e, w')
  end.
#[global] Instance M_fmap : FMap M := λ A B f m w,
  match m w with
  | (Return a, w') => (Return (f a), w')
  | (Raise e, w') => (Raise e, w')
  end.

Definition raise {A} (e : Exn) : M A := λ w, (Raise e, w).

(** [try: body  except Exception as e: handler e]. *)
Definition try_except {A} (body : M A) (handler : Exn → M A) : M A := λ w,
  match body w with
  | (Return a, w') => (Return a, w')
  | (Raise e, w') => handler e w'
  end.

(** [if c: body] as a statement. *)
Definition when (c : bool) (body : M unit) : M unit :=
  if c then body else mret tt.

(** [print(s)]. *)
Definition print (s : string) : M unit := λ w,
  (Return tt, set_stdout (stdout w ++ [s]) w).

(** [input(prompt)]: writes the prompt, reads one line; [EOFError] at the
    end of the input. *)
Definition input_ (prompt : string) : M string := λ w,
  let w1 := set_stdout (stdout w ++ [prompt]) w in
  match stdin w with
  | [] => (Raise (mkExn "EOFError" "EOF when reading a line"), w1)
  | l :: rest => (Return l, set_stdin rest w1)
  end.

(** The value of a run and the world it leaves. *)
Definition result_of {A} (m : M A) (w : World) : Res A := fst (m w).
Definition world_after {A} (m : M A) (w : World) : World := snd (m w).

(** ** The operating system *)

Module os.

(** Path resolution: split at the separators and walk from the root or
    from the working directory.  Empty components and [.] are skipped and
    [..] steps back.  The walk is lexical: symbolic links are not modelled,
    and an entry is not looked at before the walk goes past it
    ([lookup_path] below does look). *)
Definition walk (acc : list string) (c : string) : list string :=
  if bool_decide (c = "") || bool_decide (c = ".") then acc
  else if bool_decide (c = "..") then removelast acc
  else acc ++ [c].

Definition resolve (w : World) (p : string) : list string :=
  fold_left walk (Str.split os_path.sep p)
            (if Str.startswith p "/" then [] else cwd w).

(** [os.stat]: the entry a path names, if any.  The empty path names
    nothing; the root always exists. *)
Definition stat (w : World) (p : string) : option Node :=
  if Str.truthy p then
    match resolve w p with
    | [] => Some Dir
    | k => fs w !! k
    end
  else None.

Definition is_dir (n : option Node) : bool :=
  match n with Some Dir => true | _ => false end.

(** A path or a key as the message of an exception shows it: [repr]. *)
Definition quoted (p : string) : string := Str.repr p.

Definition FileNotFoundError (p : string) : Exn :=
  mkExn "FileNotFoundError" ("[Errno 2] No such file or directory: " +:+ quoted p).
Definition FileExistsError (p : string) : Exn :=
  mkExn "FileExistsError" ("[Errno 17] File exists: " +:+ quoted p).
Definition NotADirectoryError (p : string) : Exn :=
  mkExn "NotADirectoryError" ("[Errno 20] Not a directory: " +:+ quoted p).
Definition IsADirectoryError (p : string) : Exn :=
  mkExn "IsADirectoryError" ("[Errno 21] Is a directory: " +:+ quoted p).

(** The name of [k] inside directory [d], when [k] is an immediate child. *)
Fixpoint child_name (d k : list string) : option string :=
  match d, k with
  | [], [name] => Some name
  | a :: d', b :: k' => if bool_decide (a = b) then child_name d' k' else None
  | _, _ => None
  end.

(** All proper ancestors of a resolved path, nearest to the root first,
    followed by the path itself. *)
Fixpoint prefixes (k : list string) : list (list string) :=
  match k with
  | [] => []
  | c :: r => [c] :: map (cons c) (prefixes r)
  end.

Definition is_file (n : option Node) : bool :=
  match n with Some (File _ _) => true | _ => false end.

Definition mkdir_missing (f : gmap (list string) Node) (k : list string)
  : gmap (list string) Node :=
  match f !! k with
  | Some _ => f
  | None => <[k := Dir]> f
  end.

Section WithEnv.
Context (env : Env).

(** [os.path.exists(p)]: never raises. *)
Definition path_exists (p : string) : M bool := λ w,
  (Return (bool_decide (is_Some (stat w p))), w).

(** [os.path.isdir(p)]. *)
Definition path_isdir (p : string) : M bool := λ w,
  (Return (is_dir (stat w p)), w).

(** [os.path.getsize(p)]. *)
Definition path_getsize (p : string) : M Z := λ w,
  match fault env (c_getsize p) with
  | Some e => (Raise e, w)
  | None =>
      match stat w p with
      | None => (Raise (FileNotFoundError p), w)
      | Some Dir => (Return 4096, w)
      | Some (File n _) => (Return n, w)
      end
  end.

(** [os.listdir(p)]: the names of the immediate children, in the order the
    file system enumerates them. *)
Definition listdir (p : string) : M (list string) := λ w,
  match fault env (c_listdir p) with
  | Some e => (Raise e, w)
  | None =>
      match stat w p with
      | None => (Raise (FileNotFoundError p), w)
      | Some (File _ _) => (Raise (NotADirectoryError p), w)
      | Some Dir =>
          (Return (omap (λ kn, child_name (resolve w p) (fst kn))
                        (map_to_list (fs w))), w)
      end
  end.

(** [os.makedirs(p)] with the default [exist_ok=False]: creates the
    directory and every missing ancestor. *)
Definition makedirs (p : string) : M unit := λ w,
  match fault env (c_makedirs p) with
  | Some e => (Raise e, w)
  | None =>
      if negb (Str.truthy p) then (Raise (FileNotFoundError p), w)
      else
        let k := resolve w p in
        if bool_decide (is_Some (stat w p)) then (Raise (FileExistsError p), w)
        else if existsb (λ a, is_file (fs w !! a)) (prefixes k)
        then (Raise (NotADirectoryError p), w)
        else (Return tt, set_fs (foldl mkdir_missing (fs w) (prefixes k)) w)
  end.

End WithEnv.
End os.

(** ** The imaging library *)

Module PIL.

Definition upper_char (c : ascii) : ascii :=
  let n := nat_of_ascii c in
  if (97 <=? n)%nat && (n <=? 122)%nat then ascii_of_nat (n - 32) else c.

Fixpoint upper (s : string) : string :=
  match s with
  | "" => ""
  | String c r => String (upper_char c) (upper r)
  end.

(** [Image.EXTENSION]: file extension to format name. *)
Definition EXTENSION (ext : string) : option string :=
  if bool_decide (ext = ".png") then Some "PNG"
  else if bool_decide (ext = ".webp") then Some "WEBP"
  else if bool_decide (ext ∈ [".jpg"; ".jpeg"; ".jpe"; ".jfif"]) then Some "JPEG"
  else if bool_decide (ext ∈ [".ppm"; ".pgm"; ".pbm"; ".pnm"]) then Some "PPM"
  else if bool_decide (ext = ".gif") then Some "GIF"
  else if bool_decide (ext = ".bmp") then Some "BMP"
  else if bool_decide (ext ∈ [".tif"; ".tiff"]) then Some "TIFF"
  else None.

(** [Image.SAVE]: the formats with an encoder. *)
Definition SAVE : list string :=
  ["PNG"; "WEBP"; "JPEG"; "PPM"; "GIF"; "BMP"; "TIFF"].

Definition ValueError (msg : string) : Exn := mkExn "ValueError" msg.
Definition KeyError (key : string) : Exn := mkExn "KeyError" (os.quoted key).
Definition UnidentifiedImageError (p : string) : Exn :=
  mkExn "UnidentifiedImageError" ("cannot identify image file " +:+ os.quoted p).

(** The entry at a resolved path; the root is a directory. *)
Definition node_at (w : World) (k : list string) : option Node :=
  match k with
  | [] => Some Dir
  | _ => fs w !! k
  end.

(** The image read back from a file written by [save]. *)
Definition decoded_from (format : string) (params : SaveParams) (img : Image) : Image :=
  mkImage (mode img) (size img) (info img) (px_codec (px img) format params).

(** Python truthiness of an optional integer: [None] and [0] are false. *)
Definition truthy (x : option Z) : bool :=
  match x with
  | Some n => negb (n =? 0)
  | None => false
  end.

Section WithEnv.
Context (env : Env).

(** [Image.open(p)]. *)
Definition open (p : string) : M Image := λ w,
  match fault env (c_open p) with
  | Some e => (Raise e, w)
  | None =>
      match os.stat w p with
      | None => (Raise (os.FileNotFoundError p), w)
      | Some Dir => (Raise (os.IsADirectoryError p), w)
      | Some (File _ None) => (Raise (UnidentifiedImageError p), w)
      | Some (File _ (Some img)) => (Return img, w)
      end
  end.

(** [hasattr(img, 'info')]: every image has the attribute. *)
Definition hasattr_info (img : Image) : bool := true.

(** [img.getdata()]. *)
Definition getdata (img : Image) : M Pixels := λ w,
  match fault env (c_getdata img) with
  | Some e => (Raise e, w)
  | None => (Return (px img), w)
  end.

(** [Image.new(mode, size)]: a blank image with an empty [info]. *)
Definition new (mode : string) (size : Z * Z) : M Image := λ w,
  match fault env (c_new mode size) with
  | Some e => (Raise e, w)
  | None => (Return (mkImage mode size [] px_blank), w)
  end.

(** [img.putdata(data)]: [img] with its pixel data replaced. *)
Definition putdata (img : Image) (data : Pixels) : M Image := λ w,
  match fault env (c_putdata img data) with
  | Some e => (Raise e, w)
  | None => (Return (mkImage (mode img) (size img) (info img) data), w)
  end.

(** [img.resize(size, LANCZOS)]: a copy when the size is unchanged; an
    error when a side is smaller than one pixel; [info] is carried over. *)
Definition resize (img : Image) (new_size : Z * Z) (resample : Z) : M Image := λ w,
  match fault env (c_resize img new_size) with
  | Some e => (Raise e, w)
  | None =>
      if bool_decide (size img = new_size) then (Return img, w)
      else if (fst new_size <? 1) || (snd new_size <? 1)
      then (Raise (ValueError "height and width must be > 0"), w)
      else (Return (mkImage (mode img) new_size (info img)
                            (px_resize (px img) new_size resample)), w)
  end.

(** [img.thumbnail((m, m), LANCZOS)]: shrinks in place, keeping the aspect
    ratio, and leaves an image that already fits untouched. *)
Definition thumbnail (img : Image) (bound : Z * Z) (resample : Z) : M Image := λ w,
  match fault env (c_thumbnail img bound) with
  | Some e => (Raise e, w)
  | None =>
      if (fst (size img) <=? fst bound) && (snd (size img) <=? snd bound)
      then (Return img, w)
      else
        let final_size := thumbnail_fit env (size img) (fst bound) in
        if bool_decide (size img = final_size) then (Return img, w)
        else if (fst final_size <? 1) || (snd final_size <? 1)
        then (Raise (ValueError "height and width must be > 0"), w)
        else (Return (mkImage (mode img) final_size (info img)
                              (px_thumbnail (px img) final_size resample)), w)
  end.

(** [img.convert(m)]: a copy when the mode is already [m]. *)
Definition convert (img : Image) (m : string) : M Image := λ w,
  if bool_decide (mode img = m) then (Return img, w)
  else
    match fault env (c_convert img m) with
    | Some e => (Raise e, w)
    | None => (Return (mkImage m (size img) (info img) (px_convert (px img) m)), w)
    end.

(** [img.quantize(colors, method, dither)]: a palette image. *)
Definition quantize (img : Image) (colors method : Z) (dither : Dither) : M Image := λ w,
  match fault env (c_quantize img colors method dither) with
  | Some e => (Raise e, w)
  | None =>
      (Return (mkImage "P" (size img) (info img)
                       (px_quantize (px img) colors method dither)), w)
  end.

(** [img.save(p, format, **params)].  Without a format the extension of
    [p] decides.  The file is opened for writing before the encoder runs;
    when the encoder fails a file that [save] created is removed again and
    a file that existed before is left empty. *)
Definition save (img : Image) (p : string) (format : option string)
    (params : SaveParams) : M unit := λ w,
  let ext := Str.lower (snd (os_path.splitext p)) in
  match (match format with
         | Some f => Some f
         | None => EXTENSION ext
         end) with
  | None => (Raise (ValueError ("unknown file extension: " +:+ ext)), w)
  | Some f =>
      let fmt := upper f in
      if negb (bool_decide (fmt ∈ SAVE)) then (Raise (KeyError fmt), w)
      else if negb (Str.truthy p) then (Raise (os.FileNotFoundError p), w)
      else
        let k := os.resolve w p in
        match node_at w k, node_at w (removelast k) with
        | Some Dir, _ => (Raise (os.IsADirectoryError p), w)
        | _, None => (Raise (os.FileNotFoundError p), w)
        | _, Some (File _ _) => (Raise (os.NotADirectoryError p), w)
        | target, Some Dir =>
            match fault env (c_save img p fmt params) with
            | Some e =>
                match target with
                | Some _ => (Raise e, set_fs (<[k := File 0 None]> (fs w)) w)
                | None => (Raise e, w)
                end
            | None =>
                (Return tt,
                 set_fs (<[k := File (encoded_size env fmt params img)
                                     (Some (decoded_from fmt params img))]> (fs w)) w)
            end
        end
  end.

End WithEnv.
End PIL.

(** ** Python arithmetic *)

(** [int(a / b)] on integers: true division, then truncation toward zero.
    The quotient is taken exactly; the double-precision division of the
    source agrees with it as long as [|a|] stays below [2^46], far beyond
    any pixel count times a percentage. *)
Definition int_truediv (a b : Z) : Z := Z.quot a b.

(** [round(n / d)] for [d > 0]: Python rounds to the nearest integer and
    sends a tie to the even neighbour. *)
Definition round_half_even (n d : Z) : Z :=
  let q := n / d in
  let r := n mod d in
  if 2 * r <? d then q
  else if d <? 2 * r then q + 1
  else if Z.even q then q else q + 1.

(** [f"{n / d:.2f}"] for [n >= 0] and [d] a power of two (the division is
    then exact in double precision). *)
Definition format_2f (n d : Z) : string :=
  let h := round_half_even (100 * n) d in
  let frac := h mod 100 in
  pretty (h / 100) +:+ "." +:+ (if frac <? 10 then "0" else "") +:+ pretty frac.

(** The value of an optional integer known to be set. *)
Definition val (x : option Z) : Z := default 0 x.

(** ** The task tuples *)

(** The 9-tuple [compress_image] unpacks. *)
Record Task := mkTask {
  t_input_path : string;
  t_output_path : string;
  t_quality : Z;
  t_use_webp : bool;
  t_webp_method : Z;
  t_resize_percentage : option Z;
  t_max_dimension : option Z;
  t_strip_exif : bool;
  t_dither : Dither
}.

(** The 8-tuple [compress_image_worker] unpacks. *)
Record WorkerTask := mkWorkerTask {
  g_input_path : string;
  g_output_dir : string;
  g_quality : Z;
  g_use_webp : bool;
  g_webp_method : Z;
  g_resize_percentage : option Z;
  g_max_dimension : option Z;
  g_strip_exif : bool
}.

(** The [argparse] namespace. *)
Record Args := mkArgs {
  args_input : option string;
  args_output : option string;
  args_quality : Z;
  args_no_webp : bool;
  args_webp_method : Z;
  args_resize : option Z;
  args_max_dim : option Z;
  args_strip_exif : bool;
  args_no_parallel : bool
}.

(** [if result:] on a value that is [None] or a string. *)
Definition result_truthy (result : option string) : bool :=
  match result with
  | Some s => Str.truthy s
  | None => false
  end.

Definition IMAGE_SUFFIXES : list string := [".png"; ".jpg"; ".jpeg"; ".ppm"].

Section Program.
Context (env : Env).

(** ** image_compressor.py *)

(** [get_file_size]: the file size in KB or MB. *)
Definition get_file_size (file_path : string) : M string :=
  size_bytes ← os.path_getsize env file_path;
  if size_bytes <? 1024 * 1024
  then mret (format_2f size_bytes 1024 +:+ " KB")
  else mret (format_2f size_bytes (1024 * 1024) +:+ " MB").

(** The body of the [try] block of [compress_image]. *)
Definition compress_image_try (args_tuple : Task) : M (option string) :=
  let 'mkTask input_path output_path quality use_webp webp_method
              resize_percentage max_dimension strip_exif dither := args_tuple in
  original_size ← get_file_size input_path;
  img ← PIL.open env input_path;
  (* --- 1. Strip EXIF Data --- *)
  img ← (if strip_exif && PIL.hasattr_info img then
           img_data ← PIL.getdata env img;
           new_img ← PIL.new env (mode img) (size img);
           PIL.putdata env new_img img_data
         else mret img);
  (* --- 2. Image Resizing --- *)
  img ← (if PIL.truthy resize_percentage then
           let '(width, height) := size img in
           let new_width := int_truediv (width * val resize_percentage) 100 in
           let new_height := int_truediv (height * val resize_percentage) 100 in
           PIL.resize env img (new_width, new_height) LANCZOS
         else if PIL.truthy max_dimension then
           PIL.thumbnail env img (val max_dimension, val max_dimension) LANCZOS
         else mret img);
  (* Ensure output directory exists *)
  let output_dir := os_path.dirname output_path in
  present ← os.path_exists output_dir;
  when (negb present) (os.makedirs env output_dir);;
  (* --- 3. Smart Compression Logic --- *)
  let save_params := mkSaveParams true None None in
  (if use_webp then
     let save_params := mkSaveParams true (Some quality) (Some webp_method) in
     PIL.save env img output_path (Some "webp") save_params
   else
     img ← (if bool_decide (mode img = "RGBA")
               || bool_decide ("transparency" ∈ info img)
            then PIL.quantize env img 256 LIBIMAGEQUANT dither
            else
              rgb ← PIL.convert env img "RGB";
              PIL.quantize env rgb 256 LIBIMAGEQUANT dither);
     PIL.save env img output_path None save_params);;
  compressed_size ← get_file_size output_path;
  mret (Some ("  - Input: " +:+ os_path.basename input_path
              +:+ " (" +:+ original_size +:+ ") -> Output: "
              +:+ os_path.basename output_path
              +:+ " (" +:+ compressed_size +:+ ")")).

(** [compress_image]: the worker function for one image.  [None] stands
    for a skipped job. *)
Definition compress_image (args_tuple : Task) : M (option string) :=
  let input_path := t_input_path args_tuple in
  missing ← (if negb (Str.truthy input_path) then (mret true : M bool)
             else negb <$> os.path_exists input_path);
  if (missing : bool) then
    print ("Skipping missing file: " +:+ input_path);;
    mret None
  else
    try_except (compress_image_try args_tuple)
      (λ e, mret (Some ("Error compressing " +:+ os_path.basename input_path
                        +:+ ": " +:+ exc_str e))).

(** The task [main] builds for one input file. *)
Definition task_for (args : Args) (in_file out_file : string) : Task :=
  mkTask in_file out_file (args_quality args) (negb (args_no_webp args))
         (args_webp_method args) (args_resize args) (args_max_dim args)
         (args_strip_exif args) NONE.

(** [main], "Prepare": the list of tasks for an input file or directory. *)
Definition prepare_tasks (args : Args) (input_path output_path : string)
  : M (list Task) :=
  is_directory ← os.path_isdir input_path;
  if (is_directory : bool) then
    present ← os.path_exists output_path;
    when (negb present) (os.makedirs env output_path);;
    names ← os.listdir env input_path;
    mret ((λ filename,
             let in_file := os_path.join input_path filename in
             let out_file :=
               os_path.join output_path
                 (fst (os_path.splitext filename)
                  +:+ (if negb (args_no_webp args) then ".webp" else ".png")) in
             task_for args in_file out_file)
          <$> filter (λ filename,
                        Is_true (Str.endswith_any (Str.lower filename) IMAGE_SUFFIXES))
                     names)
  else
    mret [task_for args input_path output_path].

(** [main], sequential processing: each task in turn, its result printed
    when there is one.  The value returned lists the results. *)
Fixpoint run_sequential (tasks : list Task) : M (list (option string)) :=
  match tasks with
  | [] => mret []
  | task :: rest =>
      result ← compress_image task;
      when (result_truthy result) (print (default "" result));;
      results ← run_sequential rest;
      mret (result :: results)
  end.

(** The result iterator of [executor.map]: it yields the results in the
    order of the tasks.  [pending] holds the futures of the jobs not yet
    yielded, [None] for a job still running, the first of them being the
    future of job [next]; the loop of [main] prints each result as soon as
    the iterator yields it.  The value returned lists what was yielded,
    each result with the index of its job. *)
Fixpoint drain (next : nat) (pending : list (option (option string)))
  : M (list (nat * option string) * list (option (option string))) :=
  match pending with
  | Some result :: rest =>
      when (result_truthy result) (print (default "" result));;
      '(yielded, rest') ← drain (S next) rest;
      mret ((next, result) :: yielded, rest')
  | _ => mret ([], pending)
  end.

(** The pool: the workers finish the jobs in the order [order]; after each
    completion the main process prints whatever the iterator can yield. *)
Fixpoint pool_run (tasks : list Task) (order : list nat) (next : nat)
    (pending : list (option (option string))) : M (list (nat * option string)) :=
  match order with
  | [] => mret []
  | i :: order' =>
      match tasks !! i with
      | None => pool_run tasks order' next pending
      | Some task =>
          result ← compress_image task;
          let pending :=
            if (next <=? i)%nat then <[(i - next)%nat := Some result]> pending
            else pending in
          '(yielded, pending) ← drain next pending;
          later ← pool_run tasks order' (next + length yielded)%nat pending;
          mret (yielded ++ later)
      end
  end.

(** [main], parallel processing.  The value returned lists the results in
    the order the main process received them, each with the index of its
    job in [tasks]. *)
Definition run_parallel (tasks : list Task) : M (list (nat * option string)) :=
  let num_workers := cpu_count env in
  print ("Using " +:+ pretty num_workers +:+ " CPU cores for parallel processing...");;
  pool_run tasks (completion_order env (length tasks)) 0
           (replicate (length tasks) None).

(** [main], "Execute": the banner lines around the chosen loop. *)
Definition execute (args : Args) (tasks : list Task) : M unit :=
  print ("Starting compression for " +:+ pretty (length tasks) +:+ " image(s)...");;
  (if (1 <? length tasks)%nat && negb (args_no_parallel args)
   then run_parallel tasks;; mret tt
   else run_sequential tasks;; mret tt);;
  print (String "010" "Compression complete.").

(** The prompt loop of [main]: it ends on [f] or [d], or with the
    [EOFError] of [input] at the end of the input. *)
Fixpoint ask_choice (fuel : nat) : M string :=
  match fuel with
  | O => raise (mkExn "EOFError" "EOF when reading a line")
  | S fuel' =>
      choice ← Str.lower <$>
        input_ "What do you want to compress? (f = single file, d = directory): ";
      if bool_decide (choice ∈ ["f"; "d"]) then mret choice
      else ask_choice fuel'
  end.

(** [main], from the parsed arguments on. *)
Definition main (args : Args) : M unit :=
  (* --- Handle GUI File Pickers --- *)
  input_path ←
    (if negb (Str.truthy (default "" (args_input args))) then
       choice ← (λ w, ask_choice (S (length (stdin w))) w);
       if bool_decide (choice = "f") then
         print "Please select an image file to compress...";;
         mret (askopenfilename env)
       else
         print "Please select a directory of images to compress...";;
         mret (askdirectory env "Select a Directory of Images")
     else mret (default "" (args_input args)));
  if negb (Str.truthy input_path) then
    print "No input selected. Exiting."
  else
    output_path ←
      (if negb (Str.truthy (default "" (args_output args))) then
         let use_webp := negb (args_no_webp args) in
         is_directory ← os.path_isdir input_path;
         if (is_directory : bool) then
           print "Please choose an output directory...";;
           mret (askdirectory env "Save Compressed Images To...")
         else
           let ext := if use_webp then ".webp" else ".png" in
           print "Please choose where to save the compressed file...";;
           mret (asksaveasfilename env
                   (fst (os_path.splitext (os_path.basename input_path))) ext)
       else mret (default "" (args_output args)));
    if negb (Str.truthy output_path) then
      print "No output location chosen. Exiting."
    else
      (* --- Prepare and Execute Compression --- *)
      tasks ← prepare_tasks args input_path output_path;
      execute args tasks.

(** ** image_compressor_gui.py *)

(** [compress_image_worker]: the worker function of the GUI. *)
Definition compress_image_worker (args_tuple : WorkerTask) : M string :=
  let 'mkWorkerTask input_path output_dir quality use_webp webp_method
                    resize_percentage max_dimension strip_exif := args_tuple in
  let base_name := os_path.basename input_path in
  let output_ext := if use_webp then ".webp" else ".png" in
  let output_path :=
    os_path.join output_dir (fst (os_path.splitext base_name) +:+ output_ext) in
  try_except
    (img ← PIL.open env input_path;
     img ← (if strip_exif && PIL.hasattr_info img then
              img_data ← PIL.getdata env img;
              new_img ← PIL.new env (mode img) (size img);
              PIL.putdata env new_img img_data
            else mret img);
     img ← (if PIL.truthy resize_percentage && (val resize_percentage <? 100) then
              let '(w, h) := size img in
              let '(nw, nh) := (int_truediv (w * val resize_percentage) 100,
                                int_truediv (h * val resize_percentage) 100) in
              PIL.resize env img (nw, nh) LANCZOS
            else if PIL.truthy max_dimension then
              PIL.thumbnail env img (val max_dimension, val max_dimension) LANCZOS
            else mret img);
     let save_params := mkSaveParams true None None in
     (if use_webp then
        let save_params := mkSaveParams true (Some quality) (Some webp_method) in
        PIL.save env img output_path (Some "webp") save_params
      else
        img ← (if negb (bool_decide (mode img = "RGB"))
               then PIL.convert env img "RGB" else mret img);
        img ← PIL.quantize env img 256 LIBIMAGEQUANT NONE;
        PIL.save env img output_path (Some "png") save_params);;
     mret ("SUCCESS: " +:+ base_name +:+ " -> " +:+ os_path.basename output_path))
    (λ e, mret ("ERROR: Compressing " +:+ base_name +:+ ": " +:+ exc_str e)).

End Program.

(** ** image_compressor_gui.py: the application window *)

(** A [tk.IntVar]: the integer its [get] returns, or a text [get] fails on
    (an entry field bound to the variable holds whatever was typed). *)
Inductive IntVar :=
| int_value (n : Z)
| int_invalid (text : string).

(** The attributes of [ImageCompressorApp] the methods read or write: the
    list of files and the list box showing it, the lines inserted into the
    log, the progress bar, and the variables behind the controls. *)
Record ImageCompressorApp := mkApp {
  file_list : list string;
  listbox : list string;
  log_text : list string;
  progress_value : Z;
  progress_maximum : Z;
  use_webp : bool;
  quality : IntVar;
  webp_method : IntVar;
  resize_mode : string;
  resize_pct_var : IntVar;
  max_dim_var : IntVar;
  strip_exif : bool
}.

(** A message box that was shown: its kind, title and text. *)
Record MessageBox := mkMessageBox {
  box_kind : string;
  box_title : string;
  box_message : string
}.

(** What a method of the window acts on: the window itself, the world of
    the worker processes, the message boxes shown so far, and the threads
    started so far, each known by the argument [run_compression] is to be
    called with. *)
Record Desktop := mkDesktop {
  self : ImageCompressorApp;
  world : World;
  messagebox : list MessageBox;
  threads : list string
}.

Definition set_self (a : ImageCompressorApp) (d : Desktop) : Desktop :=
  mkDesktop a (world d) (messagebox d) (threads d).
Definition set_world (w : World) (d : Desktop) : Desktop :=
  mkDesktop (self d) w (messagebox d) (threads d).

(** The monad of the methods: state and exceptions over a [Desktop]. *)
Definition G (A : Type) : Type := Desktop → Res A * Desktop.

#[global] Instance G_ret : MRet G := λ A a d, (Return a, d).
#[global] Instance G_bind : MBind G := λ A B f m d,
  match m d with
  | (Return a, d') => f a d'
  | (Raise e, d') => (Raise e, d')
  end.

#[global] Instance G_fmap : FMap G := λ A B f m d,
  match m d with
  | (Return a, d') => (Return (f a), d')
  | (Raise e, d') => (Raise e, d')
  end.

(** A computation on the world, run from a method. *)
Definition lift {A} (m : M A) : G A := λ d,
  let (r, w') := m (world d) in (r, set_world w' d).

(** Reading and assigning attributes of [self]. *)
Definition attr {A} (f : ImageCompressorApp → A) : G A := λ d, (Return (f (self d)), d).
Definition assign (f : ImageCompressorApp → ImageCompressorApp) : G unit := λ d,
  (Return tt, set_self (f (self d)) d).

(** [if c: body] as a statement of a method. *)
Definition if_then (c : bool) (body : G unit) : G unit :=
  if c then body else mret tt.

Definition TclError (text : string) : Exn :=
  mkExn "TclError"
        ("expected floating-point number but got "
         +:+ String "034" (text +:+ String "034" "")).

(** [var.get()] on an [IntVar]. *)
Definition IntVar_get (v : IntVar) : G Z := λ d,
  match v with
  | int_value n => (Return n, d)
  | int_invalid text => (Raise (TclError text), d)
  end.

(** [self.file_list.append(f)] and [self.listbox.insert(tk.END, name)]. *)
Definition file_list_append (f : string) (a : ImageCompressorApp) : ImageCompressorApp :=
  mkApp (file_list a ++ [f]) (listbox a) (log_text a)
        (progress_value a) (progress_maximum a) (use_webp a) (quality a)
        (webp_method a) (resize_mode a) (resize_pct_var a) (max_dim_var a)
        (strip_exif a).
Definition listbox_insert_end (name : string) (a : ImageCompressorApp) : ImageCompressorApp :=
  mkApp (file_list a) (listbox a ++ [name]) (log_text a)
        (progress_value a) (progress_maximum a) (use_webp a) (quality a)
        (webp_method a) (resize_mode a) (resize_pct_var a) (max_dim_var a)
        (strip_exif a).

(** [self.file_list.clear()] and [self.listbox.delete(0, tk.END)]. *)
Definition file_list_clear (a : ImageCompressorApp) : ImageCompressorApp :=
  mkApp [] (listbox a) (log_text a)
        (progress_value a) (progress_maximum a) (use_webp a) (quality a)
        (webp_method a) (resize_mode a) (resize_pct_var a) (max_dim_var a)
        (strip_exif a).
Definition listbox_delete_all (a : ImageCompressorApp) : ImageCompressorApp :=
  mkApp (file_list a) [] (log_text a)
        (progress_value a) (progress_maximum a) (use_webp a) (quality a)
        (webp_method a) (resize_mode a) (resize_pct_var a) (max_dim_var a)
        (strip_exif a).

(** [self.log_text.insert(tk.END, text)], [self.progress['value'] = v] and
    [self.progress['maximum'] = v]. *)
Definition log_text_insert_end (text : string) (a : ImageCompressorApp) : ImageCompressorApp :=
  mkApp (file_list a) (listbox a) (log_text a ++ [text])
        (progress_value a) (progress_maximum a) (use_webp a) (quality a)
        (webp_method a) (resize_mode a) (resize_pct_var a) (max_dim_var a)
        (strip_exif a).
Definition set_progress_value (v : Z) (a : ImageCompressorApp) : ImageCompressorApp :=
  mkApp (file_list a) (listbox a) (log_text a)
        v (progress_maximum a) (use_webp a) (quality a)
        (webp_method a) (resize_mode a) (resize_pct_var a) (max_dim_var a)
        (strip_exif a).
Definition set_progress_maximum (v : Z) (a : ImageCompressorApp) : ImageCompressorApp :=
  mkApp (file_list a) (listbox a) (log_text a)
        (progress_value a) v (use_webp a) (quality a)
        (webp_method a) (resize_mode a) (resize_pct_var a) (max_dim_var a)
        (strip_exif a).

(** [messagebox.showerror] and [messagebox.showinfo]. *)
Definition show (kind title message : string) : G unit := λ d,
  (Return tt,
   mkDesktop (self d) (world d) (messagebox d ++ [mkMessageBox kind title message])
             (threads d)).

(** [threading.Thread(target=self.run_compression, args=(arg,)).start()]. *)
Definition thread_start (arg : string) : G unit := λ d,
  (Return tt, mkDesktop (self d) (world d) (messagebox d) (threads d ++ [arg])).

Section Application.
Context (env : Env).

(** The loop of [add_files] over the files chosen in the dialog. *)
Fixpoint add_files_loop (files : list string) : G unit :=
  match files with
  | [] => mret tt
  | f :: rest =>
      listed ← attr (λ a, bool_decide (f ∈ file_list a));
      if_then (negb listed)
        (assign (file_list_append f);;
         assign (listbox_insert_end (os_path.basename f)));;
      add_files_loop rest
  end.

(** [add_files]; [files] is what [filedialog.askopenfilenames] returns,
    nothing when the dialog is cancelled. *)
Definition add_files (files : list string) : G unit :=
  add_files_loop files.

(** The loop of [add_folder] over the names in the folder. *)
Fixpoint add_folder_loop (folder : string) (names : list string) : G unit :=
  match names with
  | [] => mret tt
  | filename :: rest =>
      if_then (Str.endswith_any (Str.lower filename) IMAGE_SUFFIXES)
        (let full_path := os_path.join folder filename in
         listed ← attr (λ a, bool_decide (full_path ∈ file_list a));
         if_then (negb listed)
           (assign (file_list_append full_path);;
            assign (listbox_insert_end filename)));;
      add_folder_loop folder rest
  end.

(** [add_folder]. *)
Definition add_folder : G unit :=
  let folder := askdirectory env "Select Folder Containing Images" in
  if negb (Str.truthy folder) then mret tt
  else
    names ← lift (os.listdir env folder);
    add_folder_loop folder names.

(** [clear_list]. *)
Definition clear_list : G unit :=
  assign file_list_clear;;
  assign listbox_delete_all.

(** [log]. *)
Definition log (message : string) : G unit :=
  assign (log_text_insert_end (message +:+ String "010" "")).

(** [start_compression_thread]. *)
Definition start_compression_thread : G unit :=
  empty ← attr (λ a, bool_decide (file_list a = []));
  if (empty : bool) then
    show "error" "Error" "No files selected for compression."
  else
    let output_dir := askdirectory env "Select Output Folder" in
    if negb (Str.truthy output_dir) then mret tt
    else thread_start output_dir.

(** The tuple [run_compression] builds for the file [f]: the variables of
    the controls are read anew for every file. *)
Definition worker_task_for (f output_dir : string) (resize_pct max_dim : option Z)
  : G WorkerTask :=
  q ← (attr quality ≫= IntVar_get);
  webp ← attr use_webp;
  method ← (attr webp_method ≫= IntVar_get);
  strip ← attr strip_exif;
  mret (mkWorkerTask f output_dir q webp method resize_pct max_dim strip).

Fixpoint worker_tasks (files : list string) (output_dir : string)
    (resize_pct max_dim : option Z) : G (list WorkerTask) :=
  match files with
  | [] => mret []
  | f :: rest =>
      t ← worker_task_for f output_dir resize_pct max_dim;
      ts ← worker_tasks rest output_dir resize_pct max_dim;
      mret (t :: ts)
  end.

(** The loop of [run_compression] over the result iterator of
    [executor.map], as far as it can go: [pending] holds the futures of the
    jobs not yet yielded, the first being that of job [next]. *)
Fixpoint log_results (next : nat) (pending : list (option string))
  : G (nat * list (option string)) :=
  match pending with
  | Some result :: rest =>
      log result;;
      assign (set_progress_value (Z.of_nat next + 1));;
      log_results (S next) rest
  | _ => mret (next, pending)
  end.

(** The pool of [run_compression]: the workers finish the jobs in the order
    [order]; after each completion the loop logs what the iterator yields. *)
Fixpoint worker_pool (tasks : list WorkerTask) (order : list nat) (next : nat)
    (pending : list (option string)) : G unit :=
  match order with
  | [] => mret tt
  | i :: order' =>
      match tasks !! i with
      | None => worker_pool tasks order' next pending
      | Some task =>
          result ← lift (compress_image_worker env task);
          let pending :=
            if (next <=? i)%nat then <[(i - next)%nat := Some result]> pending
            else pending in
          '(next, pending) ← log_results next pending;
          worker_pool tasks order' next pending
      end
  end.

(** [run_compression], run to its end with no other event of the window
    in between. *)
Definition run_compression (output_dir : string) : G unit :=
  assign (set_progress_value 0);;
  n ← attr (λ a, length (file_list a));
  assign (set_progress_maximum (Z.of_nat n));;
  log "Starting compression...";;
  selected ← attr resize_mode;
  resize_pct ← (if bool_decide (selected = "pct")
                then Some <$> (attr resize_pct_var ≫= IntVar_get)
                else mret None);
  selected ← attr resize_mode;
  max_dim ← (if bool_decide (selected = "dim")
             then Some <$> (attr max_dim_var ≫= IntVar_get)
             else mret None);
  files ← attr file_list;
  tasks ← worker_tasks files output_dir resize_pct max_dim;
  worker_pool tasks (completion_order env (length tasks)) 0
              (replicate (length tasks) None);;
  log "--- Compression Complete ---";;
  show "info" "Success" "All images have been processed.".

End Application.

(** ** A reference environment and small worlds for the examples *)

(** No spontaneous failure; a codec whose output grows with the pixel
    count; a shrink-to-fit that keeps the aspect ratio; four cores; a pool
    that finishes the last job first. *)
Definition shrink_to_fit (sz : Z * Z) (m : Z) : Z * Z :=
  let (w, h) := sz in
  if h <=? w then (m, Z.max 1 (h * m / w)) else (Z.max 1 (w * m / h), m).

Definition env_ref : Env :=
  mkEnv (λ _, None)
        (λ _ _ img, 2048 + fst (size img) * snd (size img))
        shrink_to_fit 4 (λ n, rev (seq 0 n))
        "" (λ _, "") (λ _ _, "").

(** The same environment with one failing call. *)
Definition env_failing (bad : LibCall → bool) (e : Exn) : Env :=
  mkEnv (λ c, if bad c then Some e else None)
        (encoded_size env_ref) (thumbnail_fit env_ref) (cpu_count env_ref)
        (completion_order env_ref)
        "" (λ _, "") (λ _ _, "").

Definition cat_png : Image := mkImage "RGB" (3, 7) [] (px_file 1).
Definition dog_jpg : Image := mkImage "RGB" (10, 10) ["exif"] (px_file 2).
Definition logo_png : Image := mkImage "RGBA" (10, 10) [] (px_file 3).

(** A directory [photos] with two images and a text file. *)
Definition world_photos : World :=
  mkWorld (<[ ["photos"; "cat.png"] := File 10240 (Some cat_png) ]>
          (<[ ["photos"; "dog.jpg"] := File 2000000 (Some dog_jpg) ]>
          (<[ ["photos"; "notes.txt"] := File 10 None ]>
          (<[ ["photos"] := Dir ]> ∅))))
          [] [] [].

(** A directory [mix] where [a.jpg] and [a.png] share their stem. *)
Definition world_mix : World :=
  mkWorld (<[ ["mix"; "a.jpg"] := File 5000 (Some dog_jpg) ]>
          (<[ ["mix"; "a.png"] := File 10240 (Some cat_png) ]>
          (<[ ["mix"] := Dir ]> ∅)))
          [] [] [].

(** A directory [art] with one image that has an alpha channel. *)
Definition world_art : World :=
  mkWorld (<[ ["art"; "logo.png"] := File 4096 (Some logo_png) ]>
          (<[ ["art"] := Dir ]> ∅))
          [] [] [].

Definition default_args (input output : string) : Args :=
  mkArgs (Some input) (Some output) 85 false 4 None None false false.

(** A view of the file system and the console for the examples. *)
Definition files_of (w : World) : list (list string * Node) := map_to_list (fs w).

(** Tasks for the examples. *)
Definition cat_task : Task :=
  mkTask "photos/cat.png" "photos/cat.webp" 85 true 4 (Some 50) None true NONE.

Definition notes_task : Task :=
  mkTask "photos/notes.txt" "out/notes.webp" 85 true 4 None None false NONE.

Definition boom : Exn := mkExn "OSError" "boom".

Definition gone_task : Task :=
  mkTask "photos/gone.png" "out/gone.webp" 85 true 4 None None false NONE.

Definition folder_task : Task :=
  mkTask "photos" "out/photos.webp" 85 true 4 None None false NONE.

(** The same task with another [max_dimension]. *)
Definition with_max_dimension (m : option Z) (t : Task) : Task :=
  mkTask (t_input_path t) (t_output_path t) (t_quality t) (t_use_webp t)
         (t_webp_method t) (t_resize_percentage t) m (t_strip_exif t) (t_dither t).

Definition worker_with_max_dimension (m : option Z) (g : WorkerTask) : WorkerTask :=
  mkWorkerTask (g_input_path g) (g_output_dir g) (g_quality g) (g_use_webp g)
               (g_webp_method g) (g_resize_percentage g) m (g_strip_exif g).

Definition dog_both_task : Task :=
  mkTask "photos/dog.jpg" "photos/dog.webp" 85 true 4 (Some 50) (Some 8) false NONE.

Definition dog_both_worker (percent : Z) : WorkerTask :=
  mkWorkerTask "photos/dog.jpg" "photos" 85 true 4 (Some percent) (Some 8) false.

Definition cat_worker : WorkerTask :=
  mkWorkerTask "photos/cat.png" "photos" 85 true 4 (Some 50) None true.

(** The task [compress_image] receives when it is given the same job as
    [compress_image_worker]: the output path the latter derives, and the
    dithering it uses. *)
Definition cli_task_of (g : WorkerTask) : Task :=
  mkTask (g_input_path g)
         (os_path.join (g_output_dir g)
            (fst (os_path.splitext (os_path.basename (g_input_path g)))
             +:+ (if g_use_webp g then ".webp" else ".png")))
         (g_quality g) (g_use_webp g) (g_webp_method g)
         (g_resize_percentage g) (g_max_dimension g) (g_strip_exif g) NONE.

(** A call that neither reads nor changes the world. *)
Definition pure_call {A} (m : M A) : Prop := ∃ r, ∀ w, m w = (r, w).

Definition cat_worker_png : WorkerTask :=
  mkWorkerTask "photos/cat.png" "photos" 85 false 4 (Some 50) None false.

Definition gone_worker : WorkerTask :=
  mkWorkerTask "photos/gone.png" "photos" 85 true 4 None None false.

Definition double_worker : WorkerTask :=
  mkWorkerTask "photos/dog.jpg" "photos" 85 true 4 (Some 200) None false.

Definition logo_worker : WorkerTask :=
  mkWorkerTask "art/logo.png" "art" 85 false 4 None None false.

(** ** Vocabulary of the statements *)

(** A call that may read the world but leaves it as it is. *)
Definition read_only {A} (m : M A) : Prop := ∀ w, snd (m w) = w.

(** [post I P m]: from a world in [I], [m] leads to a world in [I] that is
    related to the first by [P], whether it returns or raises. *)
Definition post {A} (I : World → Prop) (P : World → World → Prop) (m : M A) : Prop :=
  ∀ w, I w → P w (snd (m w)) ∧ I (snd (m w)).

(** The console is as it was. *)
Definition keeps_stdout (w w' : World) : Prop := stdout w' = stdout w.

(** The lines a job adds to the console by itself. *)
Definition worker_lines (t : Task) (r : option string) : list string :=
  match r with
  | None => ["Skipping missing file: " +:+ t_input_path t]
  | Some _ => []
  end.

(** The line the main process prints for a result. *)
Definition orchestrator_lines (r : option string) : list string :=
  match r with
  | None => []
  | Some s => [s]
  end.

(** The line a job leaves on the console: the skip message or the result. *)
Definition job_lines (t : Task) (r : option string) : list string :=
  worker_lines t r ++ orchestrator_lines r.

(** The skip message of the job a result belongs to, for a result paired
    with the index of its job. *)
Definition worker_lines_at (tasks : list Task) (ir : nat * option string) : list string :=
  match tasks !! ir.1 with
  | Some t => worker_lines t ir.2
  | None => []
  end.

(** The line of the job a result belongs to. *)
Definition lines_at (tasks : list Task) (ir : nat * option string) : list string :=
  worker_lines_at tasks ir ++ orchestrator_lines ir.2.

(** The results stored in the futures of the pool, with their indices. *)
Fixpoint filled (next : nat) (pending : list (option (option string)))
  : list (nat * option string) :=
  match pending with
  | [] => []
  | Some r :: rest => (next, r) :: filled (S next) rest
  | None :: rest => filled (S next) rest
  end.

(** A result the loops of [main] handle in one step: [None], which prints
    nothing, or a string that [if result:] lets through. *)
Definition printable (r : option string) : Prop := r = None ∨ result_truthy r = true.

(** The state of the pool between two completions: [order] lists the jobs
    still running, without repetition; the futures in [pending] are those
    of the jobs from [next] on, empty exactly for the jobs still running;
    every result already stored is printable or [None] and satisfies [Q];
    the first future is not ready. *)
Definition slots_ok (tasks : list Task) (Q : nat → option string → Prop)
    (order : list nat) (next : nat)
    (pending : list (option (option string))) : Prop :=
  NoDup order ∧
  (next + length pending = length tasks)%nat ∧
  (∀ j, (j < length pending)%nat → pending !! j = Some None ↔ (next + j)%nat ∈ order) ∧
  (∀ i, i ∈ order → (next ≤ i < next + length pending)%nat) ∧
  (∀ j r, pending !! j = Some (Some r) →
          (r = None ∨ result_truthy r = true) ∧ Q (next + j)%nat r) ∧
  (∀ r, head pending ≠ Some (Some r)).

(** [respects R m]: run from two worlds related by [R], [m] gives the same
    result and leaves the worlds related. *)
Definition respects {A} (R : World → World → Prop) (m : M A) : Prop :=
  ∀ w1 w2, R w1 w2 → fst (m w1) = fst (m w2) ∧ R (snd (m w1)) (snd (m w2)).

(** The entries job [t] reads or writes: its input, the directory of its
    output, and its output with the directory above it. *)
Definition job_keys (w : World) (t : Task) : list (list string) :=
  [os.resolve w (t_input_path t);
   os.resolve w (os_path.dirname (t_output_path t));
   os.resolve w (t_output_path t);
   removelast (os.resolve w (t_output_path t))].

(** Two worlds that look the same to job [t] of a batch started in [w0]. *)
Definition same_for (w0 : World) (t : Task) (w1 w2 : World) : Prop :=
  cwd w1 = cwd w0 ∧ cwd w2 = cwd w0 ∧
  (∀ k, k ∈ job_keys w0 t → PIL.node_at w1 k = PIL.node_at w2 k) ∧
  is_Some (os.stat w1 (os_path.dirname (t_output_path t))).

(** From [w] to [w'] at most the entry at [k] changed, from a file or
    nothing to a file. *)
Definition writes_only (k : list string) (w w' : World) : Prop :=
  cwd w' = cwd w ∧
  ∀ k', PIL.node_at w' k' = PIL.node_at w k' ∨
        (k' = k ∧ os.is_dir (PIL.node_at w k') = false ∧
         os.is_file (PIL.node_at w' k') = true).

(** The jobs of a batch do not interfere in [w]: every output directory
    exists, and no job writes where another job reads or writes. *)
Definition independent (w : World) (tasks : list Task) : bool :=
  forallb (λ t, bool_decide (is_Some (os.stat w (os_path.dirname (t_output_path t)))))
          tasks &&
  forallb (λ it : nat * Task,
     forallb (λ jt : nat * Task,
        bool_decide (it.1 = jt.1)
        || negb (bool_decide (os.resolve w (t_output_path it.2) ∈ job_keys w jt.2)))
       (imap pair tasks))
    (imap pair tasks).

(** Every job still to run sees the world as it was at the start. *)
Definition untouched (tasks : list Task) (w0 : World)
    (order : list nat) (w : World) : Prop :=
  cwd w = cwd w0 ∧
  ∀ j tj k, j ∈ order → tasks !! j = Some tj → k ∈ job_keys w0 tj →
            PIL.node_at w k = PIL.node_at w0 k.

(** The result of job [i] is the one it has when run alone from the start. *)
Definition as_alone (env : Env) (tasks : list Task) (w0 : World)
    (i : nat) (r : option string) : Prop :=
  ∀ t, tasks !! i = Some t → fst (compress_image env t w0) = Return r.

(** A path component: no separator inside. *)
Definition no_sep (c : string) : bool := negb (Str.contains os_path.sep c).

(** A well-formed world: no separator inside a component of the working
    directory or of a path of the file system. *)
Definition wf_world (w : World) : bool :=
  forallb no_sep (cwd w) && forallb (λ kn, forallb no_sep kn.1) (map_to_list (fs w)).

(** The same, as a proposition. *)
Definition keys_ok (w : World) : Prop :=
  Forall (λ c, no_sep c = true) (cwd w) ∧
  ∀ k n, fs w !! k = Some n → Forall (λ c, no_sep c = true) k.

(** While the batch runs: the output directory of every task exists and
    the directories are those of [w1]. *)
Definition dirs_kept (tasks : list Task) (w1 : World) (order : list nat)
    (w : World) : Prop :=
  cwd w = cwd w1 ∧
  (∀ t, t ∈ tasks → is_Some (os.stat w (os_path.dirname (t_output_path t)))) ∧
  ∀ k, os.is_dir (PIL.node_at w k) = os.is_dir (PIL.node_at w1 k).

(** The batch [main] prepares for the directory [photos] and the output
    directory [out], and the world it leaves. *)
Definition photos_tasks : list Task :=
  [task_for (default_args "photos" "out") "photos/dog.jpg" "out/dog.webp";
   task_for (default_args "photos" "out") "photos/cat.png" "out/cat.webp"].

Definition world_photos_out : World :=
  set_fs (<[ ["out"] := Dir ]> (fs world_photos)) world_photos.

(** The batch [main] prepares for the directory [mix] written onto itself
    as PNG. *)
Definition mix_args : Args :=
  mkArgs (Some "mix") (Some "mix") 85 true 4 None None false false.

Definition mix_tasks : list Task :=
  [task_for mix_args "mix/a.jpg" "mix/a.png";
   task_for mix_args "mix/a.png" "mix/a.png"].

(** A batch with a job that succeeds, one whose input is missing and one
    whose input is not an image. *)
Definition mixed_tasks : list Task :=
  [task_for (default_args "photos" "out") "photos/gone.png" "out/gone.webp";
   task_for (default_args "photos" "out") "photos/cat.png" "out/cat.webp";
   task_for (default_args "photos" "out") "photos/notes.txt" "out/notes.webp"].

(** ** Vocabulary of the statements about the lines of a batch *)

(** What the workers of a batch do, the main process left aside: the jobs
    run one after the other in the order [order].  The value lists the
    result each job returned, with the index of the job. *)
Fixpoint run_jobs (env : Env) (tasks : list Task) (order : list nat)
  : M (list (nat * option string)) :=
  match order with
  | [] => mret []
  | i :: order' =>
      match tasks !! i with
      | None => run_jobs env tasks order'
      | Some task =>
          result ← compress_image env task;
          results ← run_jobs env tasks order';
          mret ((i, result) :: results)
      end
  end.

(** [interleaved l1 l2 l]: [l] holds the elements of [l1] and of [l2],
    those of each list in the order of that list. *)
Inductive interleaved {A : Type} : list A → list A → list A → Prop :=
| interleaved_nil : interleaved [] [] []
| interleaved_left a l1 l2 l :
    interleaved l1 l2 l → interleaved (a :: l1) l2 (a :: l)
| interleaved_right a l1 l2 l :
    interleaved l1 l2 l → interleaved l1 (a :: l2) (a :: l).

(** The one line of a job on the console: the result it returned, or the
    skip message when it returned [None]. *)
Definition job_line (tasks : list Task) (ir : nat * option string) : string :=
  match ir.2 with
  | Some s => s
  | None => "Skipping missing file: " +:+ default "" (t_input_path <$> tasks !! ir.1)
  end.

(** Two worlds with the same file system and working directory: they
    differ at most by the console. *)
Definition same_files (w1 w2 : World) : Prop := fs w1 = fs w2 ∧ cwd w1 = cwd w2.

(** Path lookup as the file system does it, one component at a time: each
    component, the empty one after a trailing separator included, is looked
    up in the entry reached so far, which must be a directory.  (The
    resolution of [os.resolve] is purely lexical; the two agree on the
    paths [lookup_path] finds.) *)
Fixpoint lookup_components (w : World) (dir : list string) (components : list string)
  : option Node :=
  match components with
  | [] => PIL.node_at w dir
  | c :: rest =>
      if os.is_dir (PIL.node_at w dir)
      then lookup_components w (os.walk dir c) rest
      else None
  end.

Definition lookup_path (w : World) (p : string) : option Node :=
  if Str.truthy p
  then lookup_components w (if Str.startswith p "/" then [] else cwd w)
                         (Str.split os_path.sep p)
  else None.

(** ** Vocabulary of the further properties *)

(** From [w] to [w'] nothing was removed, and nothing replaced except,
    possibly, the entry at [k] when it was not a directory: every entry is
    as it was, or is a new directory, or is a file at [k]. *)
Definition extends_except (k : list string) (w w' : World) : Prop :=
  cwd w' = cwd w ∧
  ∀ k', PIL.node_at w' k' = PIL.node_at w k' ∨
        (PIL.node_at w k' = None ∧ PIL.node_at w' k' = Some Dir) ∨
        (k' = k ∧ os.is_dir (PIL.node_at w k') = false ∧
         os.is_file (PIL.node_at w' k') = true).

(** The text [get_file_size] gives for a file of [n] bytes. *)
Definition size_text (n : Z) : string :=
  if n <? 1024 * 1024
  then format_2f n 1024 +:+ " KB"
  else format_2f n (1024 * 1024) +:+ " MB".

(** The line of a job that went through, and the line of one that failed. *)
Definition is_success_line (line : string) : bool := Str.startswith line "  - Input: ".
Definition is_error_line (line : string) : bool := Str.startswith line "Error compressing ".

(** What the EXIF step leaves of an image: the same mode, size and pixel
    data, and an empty [info]. *)
Definition stripped (img : Image) : Image :=
  mkImage (mode img) (size img) [] (px img).

(** The size a percentage resize asks for. *)
Definition percent_size (sz : Z * Z) (p : Z) : Z * Z :=
  (int_truediv (fst sz * p) 100, int_truediv (snd sz * p) 100).

(** From [w] to [w'] no file was written: every entry is as it was, or is
    a new directory. *)
Definition only_new_dirs (w w' : World) : Prop :=
  cwd w' = cwd w ∧
  ∀ k, PIL.node_at w' k = PIL.node_at w k ∨
       (PIL.node_at w k = None ∧ PIL.node_at w' k = Some Dir).

(** An environment in which no call fails for a reason outside the model. *)
Definition fault_free (env : Env) : Prop := ∀ c, fault env c = None.

(** A task for a one-percent resize of the image [photos/cat.png]. *)
Definition tiny_task : Task :=
  mkTask "photos/cat.png" "out/cat.webp" 85 true 4 (Some 1) None false NONE.

(** A task that asks for PNG quantization with an output path that has no
    extension. *)
Definition bare_task : Task :=
  mkTask "photos/cat.png" "out/cat" 85 false 4 None None false NONE.

(** A WebP task whose output path has the extension of a PNG. *)
Definition misnamed_task : Task :=
  mkTask "photos/cat.png" "photos/small.png" 60 true 6 None None false NONE.

(** A PNG task. *)
Definition png_task : Task :=
  mkTask "photos/dog.jpg" "photos/dog.png" 85 false 4 None None true NONE.

(** The name and the path of the file [compress_image_worker] writes. *)
Definition worker_output_name (g : WorkerTask) : string :=
  fst (os_path.splitext (os_path.basename (g_input_path g)))
  +:+ (if g_use_webp g then ".webp" else ".png").
Definition worker_output_path (g : WorkerTask) : string :=
  os_path.join (g_output_dir g) (worker_output_name g).

(** A job of the GUI whose output folder does not exist. *)
Definition lost_worker : WorkerTask :=
  mkWorkerTask "photos/cat.png" "nowhere" 85 true 4 None None false.

(** The prompt of [main] and what counts as an answer to it. *)
Definition CHOICE_PROMPT : string :=
  "What do you want to compress? (f = single file, d = directory): ".
Definition is_choice (line : string) : bool :=
  bool_decide (Str.lower line ∈ ["f"; "d"]).

(** No [-i] and no [-o] on the command line. *)
Definition no_args : Args :=
  mkArgs None None 85 false 4 None None false false.


(** The world [world_photos] with lines waiting on the standard input. *)
Definition with_stdin (lines : list string) (w : World) : World :=
  mkWorld (fs w) (cwd w) (stdout w) lines.

(** A line that reports a job that ran, with or without success. *)
Definition reported (line : string) : Prop :=
  is_success_line line = true ∨ is_error_line line = true.

(** An input on the command line, no output. *)
Definition input_only (input : string) : Args :=
  mkArgs (Some input) None 85 false 4 None None false false.

(** A job that bounds [photos/cat.png] by 1920 pixels. *)
Definition bounded_task : Task :=
  mkTask "photos/cat.png" "photos/cat.webp" 85 true 4 None (Some 1920) false NONE.


(** The list box shows the base names of the files of the list, in the
    same order, and the list holds no file twice. *)
Definition list_in_step (a : ImageCompressorApp) : Prop :=
  NoDup (file_list a) ∧ listbox a = map os_path.basename (file_list a).

(** Two windows that differ at most by the list of files and the list
    box. *)
Definition same_controls (a a' : ImageCompressorApp) : Prop :=
  log_text a' = log_text a ∧
  progress_value a' = progress_value a ∧ progress_maximum a' = progress_maximum a ∧
  use_webp a' = use_webp a ∧ quality a' = quality a ∧ webp_method a' = webp_method a ∧
  resize_mode a' = resize_mode a ∧ resize_pct_var a' = resize_pct_var a ∧
  max_dim_var a' = max_dim_var a ∧ strip_exif a' = strip_exif a.

(** The line [compress_image_worker] returns for the file [f]: a success
    that names the file written, or an error. *)
Definition reports_file (webp : bool) (f line : string) : Prop :=
  line = "SUCCESS: " +:+ os_path.basename f +:+ " -> "
         +:+ fst (os_path.splitext (os_path.basename f))
         +:+ (if webp then ".webp" else ".png")
  ∨ ∃ msg, line = "ERROR: Compressing " +:+ os_path.basename f +:+ ": " +:+ msg.

(** The state of the pool of [run_compression] between two completions:
    [order] lists the jobs still running, without repetition; the futures
    in [pending] are those of the jobs from [next] on, empty exactly for
    the jobs still running; every result already stored satisfies [Q]; the
    first future is not ready. *)
Definition futures_ok (n : nat) (Q : nat → string → Prop)
    (order : list nat) (next : nat) (pending : list (option string)) : Prop :=
  NoDup order ∧
  (next + length pending = n)%nat ∧
  (∀ j, (j < length pending)%nat → pending !! j = Some None ↔ (next + j)%nat ∈ order) ∧
  (∀ i, i ∈ order → (next ≤ i < next + length pending)%nat) ∧
  (∀ j r, pending !! j = Some (Some r) → Q (next + j)%nat r) ∧
  (∀ r, head pending ≠ Some (Some r)).

(** The window after the lines [results] have been logged, the last of
    them being the result of job [next - 1]. *)
Definition logged (results : list string) (next : nat) (a : ImageCompressorApp)
  : ImageCompressorApp :=
  mkApp (file_list a) (listbox a)
        (log_text a ++ map (λ r, r +:+ String "010" "") results)
        (if bool_decide (results = []) then progress_value a else Z.of_nat next)
        (progress_maximum a) (use_webp a) (quality a)
        (webp_method a) (resize_mode a) (resize_pct_var a) (max_dim_var a)
        (strip_exif a).

(** A window with two files listed, and a desktop around it. *)
Definition app_photos : ImageCompressorApp :=
  mkApp ["photos/dog.jpg"; "photos/cat.png"] ["dog.jpg"; "cat.png"] [] 0 100
        true (int_value 85) (int_value 4) "none"
        (int_invalid "fifty") (int_value 1920) true.

Definition desktop_photos : Desktop :=
  mkDesktop app_photos world_photos [] [].

(** The same window with the percentage selected. *)
Definition app_percent : ImageCompressorApp :=
  mkApp ["photos/dog.jpg"; "photos/cat.png"] ["dog.jpg"; "cat.png"] [] 0 100
        true (int_value 85) (int_value 4) "pct"
        (int_invalid "fifty") (int_value 1920) true.

(** An environment whose folder dialog answers [photos]. *)
Definition env_folder : Env :=
  mkEnv (fault env_ref) (encoded_size env_ref) (thumbnail_fit env_ref)
        (cpu_count env_ref) (completion_order env_ref)
        "" (λ _, "photos") (λ _ _, "").

(** A window with one file listed. *)
Definition app_one : ImageCompressorApp :=
  mkApp ["photos/cat.png"] ["cat.png"] [] 0 100
        true (int_value 85) (int_value 4) "none"
        (int_value 50) (int_value 1920) true.

Definition desktop_one : Desktop :=
  mkDesktop app_one world_photos [] [].


(** One turn of the loops of [add_files] and [add_folder] on the window:
    the path is appended to the list, and the name to the list box, unless
    the path is listed already. *)
Definition add_entry (p name : string) (a : ImageCompressorApp) : ImageCompressorApp :=
  if bool_decide (p ∈ file_list a) then a
  else listbox_insert_end name (file_list_append p a).

(** The window after [add_files] went over [files]. *)
Definition add_all (files : list string) (a : ImageCompressorApp) : ImageCompressorApp :=
  foldl (λ a f, add_entry f (os_path.basename f) a) a files.

(** Whether [add_folder] takes a name of the folder. *)
Definition is_image_name (name : string) : bool :=
  Str.endswith_any (Str.lower name) IMAGE_SUFFIXES.

(** The window after [add_folder] went over the names of [folder]. *)
Definition add_names (folder : string) (names : list string) (a : ImageCompressorApp)
  : ImageCompressorApp :=
  foldl (λ a name, if is_image_name name
                   then add_entry (os_path.join folder name) name a
                   else a) a names.

(** * Properties *)

(** ** Running monadic code *)

Lemma bind_run {A B} (m : M A) (f : A → M B) w :
  (m ≫= f) w = match m w with
               | (Return a, w') => f a w'
               | (Raise e, w') => (Raise e, w')
               end.
Proof. reflexivity. Qed.

Lemma bind_Return_inv {A B} (m : M A) (f : A → M B) w b w' :
  (m ≫= f) w = (Return b, w') →
  ∃ a w1, m w = (Return a, w1) ∧ f a w1 = (Return b, w').
Proof.
  rewrite bind_run. destruct (m w) as [[a|e] w1]; [eauto | discriminate].
Qed.

Lemma try_except_run {A} (body : M A) (handler : Exn → M A) w :
  try_except body handler w = match body w with
                              | (Return a, w') => (Return a, w')
                              | (Raise e, w') => handler e w'
                              end.
Proof. reflexivity. Qed.

(** ** C1: [compress_image] captures every exception *)

Lemma compress_image_returns env t w :
  ∃ r w', compress_image env t w = (Return r, w').
Proof.
  unfold compress_image. rewrite bind_run.
  destruct (Str.truthy (t_input_path t)); simpl.
  - unfold fmap, M_fmap, os.path_exists.
    destruct (bool_decide _); simpl.
    + rewrite try_except_run.
      destruct (compress_image_try env t w) as [[r|e] w']; eauto.
    + eauto.
  - eauto.
Qed.

Lemma compress_image_enters_try env t w :
  is_Some (os.stat w (t_input_path t)) →
  compress_image env t w =
    try_except (compress_image_try env t)
      (λ e, mret (Some ("Error compressing " +:+ os_path.basename (t_input_path t)
                        +:+ ": " +:+ exc_str e))) w.
Proof.
  intros Hs. unfold compress_image. rewrite bind_run.
  assert (Str.truthy (t_input_path t) = true) as ->.
  { destruct Hs as [n Hn]. unfold os.stat in Hn.
    destruct (Str.truthy _); [done | discriminate]. }
  simpl. unfold fmap, M_fmap, os.path_exists.
  rewrite bool_decide_true by done. reflexivity.
Qed.

(** C1.  For every task, [compress_image] returns and never raises; when a
    stage inside its [try] block raises [e], the value returned is the
    failure message made of the base name of the input and [str(e)]. *)
Theorem compress_image_captures_exceptions env t w :
  (∃ r w', compress_image env t w = (Return r, w')) ∧
  (∀ e w',
     is_Some (os.stat w (t_input_path t)) →
     compress_image_try env t w = (Raise e, w') →
     compress_image env t w =
       (Return (Some ("Error compressing " +:+ os_path.basename (t_input_path t)
                      +:+ ": " +:+ exc_str e)), w')).
Proof.
  split; [apply compress_image_returns |].
  intros e w' Hs He.
  rewrite compress_image_enters_try by done.
  rewrite try_except_run, He. reflexivity.
Qed.

Lemma compress_image_captures_exceptions_witness :
  is_Some (os.stat world_photos "photos/notes.txt") ∧
  compress_image_try env_ref notes_task world_photos
  = (Raise (PIL.UnidentifiedImageError "photos/notes.txt"), world_photos) ∧
  compress_image env_ref notes_task world_photos
  = (Return (Some "Error compressing notes.txt: cannot identify image file 'photos/notes.txt'"),
     world_photos).
Proof.
  assert (Hs : is_Some (os.stat world_photos "photos/notes.txt")).
  { vm_compute. eexists. reflexivity. }
  assert (He : compress_image_try env_ref notes_task world_photos
    = (Raise (PIL.UnidentifiedImageError "photos/notes.txt"), world_photos)).
  { vm_compute. reflexivity. }
  split; [exact Hs | split; [exact He |]].
  exact (proj2 (compress_image_captures_exceptions env_ref notes_task world_photos) _ _ Hs He).
Defined.

(** One failure per stage of the pipeline, each reported as a message. *)

Example decode_failure_reported :
  result_of (compress_image
    (env_failing (λ c, match c with c_open _ => true | _ => false end) boom)
    cat_task) world_photos
  = Return (Some "Error compressing cat.png: boom").
Proof. vm_compute. reflexivity. Qed.

Example strip_failure_reported :
  result_of (compress_image
    (env_failing (λ c, match c with c_putdata _ _ => true | _ => false end) boom)
    cat_task) world_photos
  = Return (Some "Error compressing cat.png: boom").
Proof. vm_compute. reflexivity. Qed.

Example resize_failure_reported :
  result_of (compress_image
    (env_failing (λ c, match c with c_resize _ _ => true | _ => false end) boom)
    cat_task) world_photos
  = Return (Some "Error compressing cat.png: boom").
Proof. vm_compute. reflexivity. Qed.

Example encode_failure_reported :
  result_of (compress_image
    (env_failing (λ c, match c with c_save _ _ _ _ => true | _ => false end) boom)
    cat_task) world_photos
  = Return (Some "Error compressing cat.png: boom").
Proof. vm_compute. reflexivity. Qed.

Example size_query_failure_reported :
  result_of (compress_image
    (env_failing (λ c, match c with
                       | c_getsize p => bool_decide (p = "photos/cat.webp")
                       | _ => false
                       end) boom)
    cat_task) world_photos
  = Return (Some "Error compressing cat.png: boom").
Proof. vm_compute. reflexivity. Qed.

Example no_failure_reported :
  result_of (compress_image env_ref cat_task) world_photos
  = Return (Some "  - Input: cat.png (10.00 KB) -> Output: cat.webp (2.00 KB)").
Proof. vm_compute. reflexivity. Qed.

(** ** C6: the existence check *)

Lemma compress_image_skips env t w :
  os.stat w (t_input_path t) = None →
  compress_image env t w =
    (Return None,
     set_stdout (stdout w ++ ["Skipping missing file: " +:+ t_input_path t]) w).
Proof.
  intros Hs. unfold compress_image. rewrite bind_run.
  destruct (Str.truthy (t_input_path t)); simpl; [| reflexivity].
  unfold fmap, M_fmap, os.path_exists. rewrite Hs.
  rewrite bool_decide_false by (intros [? ?]; discriminate). reflexivity.
Qed.

Lemma compress_image_not_skipped env t w :
  is_Some (os.stat w (t_input_path t)) →
  ∃ line w', compress_image env t w = (Return (Some line), w').
Proof.
  intros Hs. rewrite compress_image_enters_try by done.
  rewrite try_except_run.
  destruct (compress_image_try env t w) as [[r|e] w'] eqn:Hrun; [| by eauto].
  destruct t as [inp out q uw wm rp md se di]. unfold compress_image_try in Hrun.
  repeat (apply bind_Return_inv in Hrun as (? & ? & _ & Hrun)).
  injection Hrun as <- <-. eauto.
Qed.

Lemma lookup_components_resolve w components : ∀ dir n,
  lookup_components w dir components = Some n →
  PIL.node_at w (fold_left os.walk components dir) = Some n.
Proof.
  induction components as [|c components IH]; intros dir n; simpl; [done |].
  destruct (os.is_dir _); [apply IH | done].
Qed.

Lemma lookup_path_stat w p n : lookup_path w p = Some n → os.stat w p = Some n.
Proof.
  unfold lookup_path, os.stat, os.resolve. destruct (Str.truthy p); [| done].
  intros H. apply lookup_components_resolve in H. unfold PIL.node_at in H.
  by destruct (fold_left _ _ _).
Qed.

(** C6 (as amended).  When the input path is empty or [os.path.exists]
    finds nothing there, [compress_image] prints the skip message and
    returns [None] at once, leaving the file system as it was; when the
    path leads to an entry, file or directory, the job is not skipped and a
    message is returned. *)
Theorem missing_input_is_skipped env t w :
  (os.stat w (t_input_path t) = None →
   compress_image env t w =
     (Return None,
      set_stdout (stdout w ++ ["Skipping missing file: " +:+ t_input_path t]) w)) ∧
  (is_Some (lookup_path w (t_input_path t)) →
   ∃ line w', compress_image env t w = (Return (Some line), w')).
Proof.
  split; [apply compress_image_skips |].
  intros [n Hn]. apply compress_image_not_skipped.
  rewrite (lookup_path_stat _ _ _ Hn). by eexists.
Qed.

Lemma missing_input_is_skipped_witness :
  os.stat world_photos "photos/gone.png" = None ∧
  compress_image env_ref gone_task world_photos =
    (Return None,
     set_stdout ["Skipping missing file: photos/gone.png"] world_photos) ∧
  lookup_path world_photos "photos" = Some Dir ∧
  ∃ line w', compress_image env_ref folder_task world_photos = (Return (Some line), w').
Proof.
  assert (H1 : os.stat world_photos (t_input_path gone_task) = None)
    by (vm_compute; reflexivity).
  assert (H2 : lookup_path world_photos (t_input_path folder_task) = Some Dir)
    by (vm_compute; reflexivity).
  split; [exact H1 | split; [| split; [exact H2 |]]].
  - exact (proj1 (missing_input_is_skipped env_ref gone_task world_photos) H1).
  - apply (proj2 (missing_input_is_skipped env_ref folder_task world_photos)).
    rewrite H2. by eexists.
Defined.

(** The claim as stated fails in two places: the worker of the GUI has no
    existence check and reports a missing input as an error, and
    [compress_image] lets an existing directory through. *)
Lemma missing_input_not_always_skipped :
  os.stat world_photos "photos/gone.png" = None ∧
  compress_image_worker env_ref
    (mkWorkerTask "photos/gone.png" "out" 85 true 4 None None false) world_photos
  = (Return "ERROR: Compressing gone.png: [Errno 2] No such file or directory: 'photos/gone.png'",
     world_photos) ∧
  lookup_path world_photos "photos" = Some Dir ∧
  compress_image env_ref folder_task world_photos
  = (Return (Some "Error compressing photos: [Errno 21] Is a directory: 'photos'"),
     world_photos).
Proof. vm_compute. repeat split; reflexivity. Qed.

(** ** C5: an input path that does not exist *)

Lemma prepare_tasks_single env args input_path output_path w :
  os.is_dir (os.stat w input_path) = false →
  prepare_tasks env args input_path output_path w =
    (Return [task_for args input_path output_path], w).
Proof.
  intros Hd. unfold prepare_tasks. rewrite bind_run. unfold os.path_isdir.
  rewrite Hd. reflexivity.
Qed.

Lemma main_with_paths env args input_path output_path w :
  args_input args = Some input_path →
  args_output args = Some output_path →
  Str.truthy input_path = true →
  Str.truthy output_path = true →
  main env args w =
    (tasks ← prepare_tasks env args input_path output_path; execute env args tasks) w.
Proof.
  intros Hi Ho Hti Hto. unfold main. rewrite Hi, Ho. simpl.
  rewrite Hti. simpl. rewrite bind_run. simpl. rewrite Hti. simpl.
  rewrite Hto. simpl. rewrite (bind_run (mret output_path)). simpl. rewrite Hto. reflexivity.
Qed.

(** C5 (as amended).  When the input path names nothing, [main] does not
    fail: it builds a batch of one task, the task is skipped by the
    existence check of [compress_image], and the run ends normally after
    the completion line. *)
Theorem main_missing_input env args input_path output_path w :
  args_input args = Some input_path →
  args_output args = Some output_path →
  Str.truthy input_path = true →
  Str.truthy output_path = true →
  os.stat w input_path = None →
  main env args w =
    (Return tt,
     set_stdout (stdout w ++ ["Starting compression for 1 image(s)...";
                              "Skipping missing file: " +:+ input_path;
                              String "010" "Compression complete."]) w).
Proof.
  intros Hi Ho Hti Hto Hs.
  rewrite (main_with_paths env args input_path output_path) by done.
  rewrite bind_run, prepare_tasks_single by (rewrite Hs; done).
  unfold execute. rewrite bind_run. simpl.
  unfold print at 1. simpl.
  rewrite bind_run. simpl. rewrite bind_run. simpl.
  rewrite bind_run.
  rewrite compress_image_skips by exact Hs.
  simpl. destruct w; unfold set_stdout, print; simpl.
  rewrite <- !app_assoc. reflexivity.
Qed.

Lemma main_missing_input_witness :
  os.stat world_photos "nope.png" = None ∧
  main env_ref (default_args "nope.png" "out.webp") world_photos =
    (Return tt,
     set_stdout ["Starting compression for 1 image(s)...";
                 "Skipping missing file: nope.png";
                 String "010" "Compression complete."] world_photos).
Proof.
  assert (Hs : os.stat world_photos "nope.png" = None) by (vm_compute; reflexivity).
  split; [exact Hs |].
  exact (main_missing_input env_ref (default_args "nope.png" "out.webp")
           "nope.png" "out.webp" world_photos eq_refl eq_refl eq_refl eq_refl Hs).
Defined.

(** The claim as stated fails: with an input path that does not exist the
    run of [main] is not an error, and one job does run. *)
Lemma missing_input_is_not_an_error :
  os.stat world_photos "nope.png" = None ∧
  result_of (main env_ref (default_args "nope.png" "out.webp")) world_photos = Return tt ∧
  stdout (world_after (main env_ref (default_args "nope.png" "out.webp")) world_photos) =
    ["Starting compression for 1 image(s)...";
     "Skipping missing file: nope.png";
     String "010" "Compression complete."].
Proof. vm_compute. repeat split; reflexivity. Qed.

(** ** C9: percentage against maximal dimension *)

Lemma compress_image_ignores_max_dimension env t m w :
  PIL.truthy (t_resize_percentage t) = true →
  compress_image env t w = compress_image env (with_max_dimension m t) w.
Proof.
  intros Hp. destruct t as [inp out q uw wm rp md se di]. simpl in Hp.
  unfold compress_image, with_max_dimension, compress_image_try. simpl.
  rewrite Hp. reflexivity.
Qed.

Lemma worker_ignores_max_dimension env g m w :
  PIL.truthy (g_resize_percentage g) = true →
  val (g_resize_percentage g) < 100 →
  compress_image_worker env g w =
    compress_image_worker env (worker_with_max_dimension m g) w.
Proof.
  intros Hp Hlt. destruct g as [inp out q uw wm rp md se]. simpl in Hp, Hlt.
  unfold compress_image_worker, worker_with_max_dimension. simpl.
  rewrite Hp. apply Z.ltb_lt in Hlt. rewrite Hlt. reflexivity.
Qed.




(** ** C2: the dimensions of a percentage resize *)

(** What a successful call says about its result. *)

Lemma resolve_cwd w1 w2 p : cwd w1 = cwd w2 → os.resolve w1 p = os.resolve w2 p.
Proof. unfold os.resolve. by intros ->. Qed.

Lemma get_file_size_world env p w r w' :
  get_file_size env p w = (r, w') → w' = w.
Proof.
  unfold get_file_size. rewrite bind_run. unfold os.path_getsize.
  destruct (fault env _); [by intros [= _ <-] |].
  destruct (os.stat w p) as [[|n o]|]; simpl;
    try destruct (_ <? _); by intros [= _ <-].
Qed.

Lemma open_inv env p w img w' :
  PIL.open env p w = (Return img, w') →
  w' = w ∧ ∃ n, os.stat w p = Some (File n (Some img)).
Proof.
  unfold PIL.open. destruct (fault env _); [discriminate |].
  destruct (os.stat w p) as [[|n [i|]]|]; try discriminate.
  intros [= <- <-]. eauto.
Qed.

Lemma strip_inv env img w img' w' :
  (img_data ← PIL.getdata env img;
   new_img ← PIL.new env (mode img) (size img);
   PIL.putdata env new_img img_data) w = (Return img', w') →
  w' = w ∧ img' = mkImage (mode img) (size img) [] (px img).
Proof.
  intros H.
  apply bind_Return_inv in H as (d & w1 & Hd & H).
  apply bind_Return_inv in H as (n & w2 & Hn & H).
  unfold PIL.getdata in Hd. destruct (fault env _); [discriminate |].
  injection Hd as <- <-.
  unfold PIL.new in Hn. destruct (fault env _); [discriminate |].
  injection Hn as <- <-.
  unfold PIL.putdata in H. destruct (fault env _); [discriminate |].
  injection H as <- <-. done.
Qed.

Lemma resize_inv env img s r w img' w' :
  PIL.resize env img s r w = (Return img', w') →
  w' = w ∧ size img' = s ∧ mode img' = mode img ∧ info img' = info img.
Proof.
  unfold PIL.resize. destruct (fault env _); [discriminate |].
  case_bool_decide as Hs.
  - intros [= <- <-]. done.
  - destruct (_ || _); [discriminate |]. intros [= <- <-]. done.
Qed.

Lemma thumbnail_inv env img s r w img' w' :
  PIL.thumbnail env img s r w = (Return img', w') →
  w' = w ∧ mode img' = mode img ∧ info img' = info img.
Proof.
  unfold PIL.thumbnail. destruct (fault env _); [discriminate |].
  destruct (_ && _); [by intros [= <- <-] |].
  case_bool_decide; [by intros [= <- <-] |].
  destruct (_ || _); [discriminate |]. by intros [= <- <-].
Qed.

Lemma convert_inv env img m w img' w' :
  PIL.convert env img m w = (Return img', w') →
  w' = w ∧ size img' = size img.
Proof.
  unfold PIL.convert. case_bool_decide; [by intros [= <- <-] |].
  destruct (fault env _); [discriminate |]. by intros [= <- <-].
Qed.

Lemma quantize_inv env img c m d w img' w' :
  PIL.quantize env img c m d w = (Return img', w') →
  w' = w ∧ size img' = size img.
Proof.
  unfold PIL.quantize. destruct (fault env _); [discriminate |]. by intros [= <- <-].
Qed.

Lemma makedirs_cwd env p w r w' :
  os.makedirs env p w = (r, w') → cwd w' = cwd w.
Proof.
  unfold os.makedirs. destruct (fault env _); [by intros [= _ <-] |].
  destruct (negb _); [by intros [= _ <-] |].
  destruct (bool_decide _); [by intros [= _ <-] |].
  destruct (existsb _ _); by intros [= _ <-].
Qed.

Lemma save_inv env img p format params w w' :
  PIL.save env img p format params w = (Return tt, w') →
  ∃ fmt,
    w' = set_fs (<[os.resolve w p :=
                     File (encoded_size env fmt params img)
                          (Some (PIL.decoded_from fmt params img))]> (fs w)) w.
Proof.
  unfold PIL.save.
  destruct (match format with Some f => Some f | None => _ end) as [f|];
    [| discriminate].
  destruct (negb (bool_decide _)); [discriminate |].
  destruct (negb (Str.truthy p)); [discriminate |].
  destruct (PIL.node_at w (os.resolve w p)) as [[|n o]|],
           (PIL.node_at w (removelast (os.resolve w p))) as [[|n' o']|];
    try discriminate;
    (destruct (fault env _); [discriminate |]); intros [= <-]; eauto.
Qed.

Lemma percent_resize_cli env t w r w' n src :
  PIL.truthy (t_resize_percentage t) = true →
  os.stat w (t_input_path t) = Some (File n (Some src)) →
  compress_image_try env t w = (Return r, w') →
  ∃ n' out,
    fs w' !! os.resolve w (t_output_path t) = Some (File n' (Some out)) ∧
    size out = (int_truediv (fst (size src) * val (t_resize_percentage t)) 100,
                int_truediv (snd (size src) * val (t_resize_percentage t)) 100).
Proof.
  intros Hp Hsrc Hrun.
  destruct t as [inp out q uw wm rp md se di]. simpl in *.
  unfold compress_image_try in Hrun.
  apply bind_Return_inv in Hrun as (osz & w1 & Hosz & Hrun).
  apply get_file_size_world in Hosz as ->.
  apply bind_Return_inv in Hrun as (img & w1 & Hopen & Hrun).
  apply open_inv in Hopen as [-> [n0 Hst]].
  rewrite Hsrc in Hst. injection Hst as _ ->.
  apply bind_Return_inv in Hrun as (img1 & w1 & Hstrip & Hrun).
  assert (w1 = w ∧ size img1 = size img) as [-> Hsz1].
  { destruct (se && PIL.hasattr_info img).
    - apply strip_inv in Hstrip as [-> ->]. done.
    - by injection Hstrip as <- <-. }
  apply bind_Return_inv in Hrun as (img2 & w1 & Hres & Hrun).
  rewrite Hp in Hres.
  destruct (size img1) as [width height] eqn:Hwh.
  apply resize_inv in Hres as (-> & Hsz2 & _ & _).
  apply bind_Return_inv in Hrun as (present & w1 & Hex & Hrun).
  assert (w1 = w) as -> by (by injection Hex).
  apply bind_Return_inv in Hrun as ([] & w1 & Hmk & Hrun).
  assert (cwd w1 = cwd w) as Hcwd.
  { destruct present; simpl in Hmk.
    - by injection Hmk as <-.
    - by apply makedirs_cwd in Hmk. }
  apply bind_Return_inv in Hrun as ([] & w2 & Hsave & Hrun).
  apply bind_Return_inv in Hrun as (csz & w3 & Hcsz & Hrun).
  apply get_file_size_world in Hcsz as ->.
  injection Hrun as _ <-.
  assert (∃ img3 fmt params,
    size img3 = size img2 ∧
    w2 = set_fs (<[os.resolve w1 out :=
                     File (encoded_size env fmt params img3)
                          (Some (PIL.decoded_from fmt params img3))]> (fs w1)) w1)
    as (img3 & fmt & params & Hsz3 & ->).
  { destruct uw.
    - apply save_inv in Hsave as [fmt ->]. eauto.
    - apply bind_Return_inv in Hsave as (img3 & w4 & Hq & Hsave).
      assert (w4 = w1 ∧ size img3 = size img2) as [-> Hsz3].
      { destruct (_ || _).
        - by apply quantize_inv in Hq.
        - apply bind_Return_inv in Hq as (rgb & w5 & Hc & Hq).
          apply convert_inv in Hc as [-> Hc].
          apply quantize_inv in Hq as [-> Hq]. by rewrite Hq. }
      apply save_inv in Hsave as [fmt ->]. eauto. }
  simpl. rewrite (resolve_cwd w w1) by done.
  rewrite lookup_insert_eq. do 2 eexists. split; [reflexivity |].
  simpl. rewrite Hsz3, Hsz2, <- Hsz1. reflexivity.
Qed.

Lemma compress_image_success env t w line w' :
  is_Some (os.stat w (t_input_path t)) →
  compress_image env t w = (Return (Some line), w') →
  Str.startswith line "  - Input: " = true →
  compress_image_try env t w = (Return (Some line), w').
Proof.
  intros Hs Hrun Hline. rewrite compress_image_enters_try in Hrun by done.
  rewrite try_except_run in Hrun.
  destruct (compress_image_try env t w) as [[r|e] w1]; [exact Hrun |].
  injection Hrun as <- <-. lazy in Hline. discriminate.
Qed.

Lemma percent_resize_gui env g w line w' n src :
  PIL.truthy (g_resize_percentage g) = true →
  val (g_resize_percentage g) < 100 →
  os.stat w (g_input_path g) = Some (File n (Some src)) →
  compress_image_worker env g w = (Return line, w') →
  Str.startswith line "SUCCESS: " = true →
  ∃ n' out,
    fs w' !! os.resolve w
      (os_path.join (g_output_dir g)
         (fst (os_path.splitext (os_path.basename (g_input_path g)))
          +:+ (if g_use_webp g then ".webp" else ".png")))
      = Some (File n' (Some out)) ∧
    size out = (int_truediv (fst (size src) * val (g_resize_percentage g)) 100,
                int_truediv (snd (size src) * val (g_resize_percentage g)) 100).
Proof.
  intros Hp Hlt Hsrc Hrun Hline.
  destruct g as [inp dir q uw wm rp md se]. simpl in *.
  unfold compress_image_worker in Hrun. rewrite try_except_run in Hrun.
  match type of Hrun with
  | match ?body w with _ => _ end = _ =>
      destruct (body w) as [[r|e] wb] eqn:Hbody
  end.
  2: { injection Hrun as <- <-. lazy in Hline. discriminate. }
  injection Hrun as <- <-. clear Hline. rename Hbody into Hrun.
  apply bind_Return_inv in Hrun as (img & w1 & Hopen & Hrun).
  apply open_inv in Hopen as [-> [n0 Hst]].
  rewrite Hsrc in Hst. injection Hst as _ ->.
  apply bind_Return_inv in Hrun as (img1 & w1 & Hstrip & Hrun).
  assert (w1 = w ∧ size img1 = size img) as [-> Hsz1].
  { destruct (se && PIL.hasattr_info img).
    - apply strip_inv in Hstrip as [-> ->]. done.
    - by injection Hstrip as <- <-. }
  apply bind_Return_inv in Hrun as (img2 & w1 & Hres & Hrun).
  rewrite Hp in Hres. apply Z.ltb_lt in Hlt. rewrite Hlt in Hres. simpl in Hres.
  destruct (size img1) as [width height] eqn:Hwh.
  apply resize_inv in Hres as (-> & Hsz2 & _ & _).
  apply bind_Return_inv in Hrun as ([] & w2 & Hsave & Hrun).
  injection Hrun as _ <-.
  assert (∃ img3 fmt params,
    size img3 = size img2 ∧
    w2 = set_fs (<[os.resolve w
                     (os_path.join dir
                        (fst (os_path.splitext (os_path.basename inp))
                         +:+ (if uw then ".webp" else ".png"))) :=
                     File (encoded_size env fmt params img3)
                          (Some (PIL.decoded_from fmt params img3))]> (fs w)) w)
    as (img3 & fmt & params & Hsz3 & ->).
  { destruct uw.
    - apply save_inv in Hsave as [fmt ->]. eauto.
    - apply bind_Return_inv in Hsave as (img3 & w4 & Hc & Hsave).
      assert (w4 = w ∧ size img3 = size img2) as [-> Hsz3].
      { destruct (negb _).
        - by apply convert_inv in Hc.
        - by injection Hc as <- <-. }
      apply bind_Return_inv in Hsave as (img4 & w5 & Hq & Hsave).
      apply quantize_inv in Hq as [-> Hsz4].
      apply save_inv in Hsave as [fmt ->].
      exists img4, fmt. eexists. split; [by rewrite Hsz4 | reflexivity]. }
  simpl. rewrite lookup_insert_eq. do 2 eexists. split; [reflexivity |].
  simpl. rewrite Hsz3, Hsz2, <- Hsz1. reflexivity.
Qed.

Lemma int_truediv_floor a : 0 ≤ a → int_truediv a 100 = a / 100.
Proof. intros Ha. unfold int_truediv. apply Z.quot_div_nonneg; lia. Qed.

Lemma round_half_even_near n d :
  0 < d → n / d ≤ round_half_even n d ≤ n / d + 1.
Proof.
  intros Hd. unfold round_half_even.
  repeat match goal with |- context [if ?b then _ else _] => destruct b end; lia.
Qed.

Lemma int_truediv_half d : 0 ≤ d → int_truediv (d * 50) 100 = d / 2.
Proof.
  intros Hd. rewrite int_truediv_floor by lia.
  replace 100 with (50 * 2) by lia.
  rewrite <- Z.div_div by lia. rewrite Z.div_mul by lia. reflexivity.
Qed.

(** C2 (as amended).  When the percentage [p] is set and not zero and the
    job succeeds, [compress_image] writes an image of exactly
    [int(w * p / 100)] by [int(h * p / 100)], the quotients truncated, not
    rounded; [compress_image_worker] does the same for [p] below 100.  For
    sizes and percentages that are not negative the truncated quotient is
    the floor, it is at most one below [round(w * p / 100)], and with
    [p = 50] it is [w // 2]. *)
Theorem percent_resize_truncates env w :
  (∀ t line w' n src,
     PIL.truthy (t_resize_percentage t) = true →
     os.stat w (t_input_path t) = Some (File n (Some src)) →
     compress_image env t w = (Return (Some line), w') →
     Str.startswith line "  - Input: " = true →
     ∃ n' out,
       fs w' !! os.resolve w (t_output_path t) = Some (File n' (Some out)) ∧
       size out = (int_truediv (fst (size src) * val (t_resize_percentage t)) 100,
                   int_truediv (snd (size src) * val (t_resize_percentage t)) 100)) ∧
  (∀ g line w' n src,
     PIL.truthy (g_resize_percentage g) = true →
     val (g_resize_percentage g) < 100 →
     os.stat w (g_input_path g) = Some (File n (Some src)) →
     compress_image_worker env g w = (Return line, w') →
     Str.startswith line "SUCCESS: " = true →
     ∃ n' out,
       fs w' !! os.resolve w
         (os_path.join (g_output_dir g)
            (fst (os_path.splitext (os_path.basename (g_input_path g)))
             +:+ (if g_use_webp g then ".webp" else ".png")))
         = Some (File n' (Some out)) ∧
       size out = (int_truediv (fst (size src) * val (g_resize_percentage g)) 100,
                   int_truediv (snd (size src) * val (g_resize_percentage g)) 100)) ∧
  (∀ d p, 0 ≤ d → 0 ≤ p →
     int_truediv (d * p) 100 = d * p / 100 ∧
     round_half_even (d * p) 100 - 1 ≤ int_truediv (d * p) 100
       ≤ round_half_even (d * p) 100) ∧
  (∀ d, 0 ≤ d → int_truediv (d * 50) 100 = d / 2).
Proof.
  split; [| split; [| split]].
  - intros t line w' n src Hp Hsrc Hrun Hline.
    apply (percent_resize_cli env t w (Some line) w' n src Hp Hsrc).
    apply compress_image_success; [by rewrite Hsrc | done | done].
  - intros g line w' n src. apply percent_resize_gui.
  - intros d p Hd Hp. rewrite int_truediv_floor by lia.
    split; [reflexivity |].
    pose proof (round_half_even_near (d * p) 100). lia.
  - apply int_truediv_half.
Qed.

Lemma percent_resize_truncates_witness :
  (∃ n' out,
     fs (world_after (compress_image env_ref cat_task) world_photos)
       !! os.resolve world_photos "photos/cat.webp" = Some (File n' (Some out)) ∧
     size out = (int_truediv (3 * 50) 100, int_truediv (7 * 50) 100)) ∧
  (∃ n' out,
     fs (world_after (compress_image_worker env_ref cat_worker) world_photos)
       !! os.resolve world_photos "photos/cat.webp" = Some (File n' (Some out)) ∧
     size out = (int_truediv (3 * 50) 100, int_truediv (7 * 50) 100)) ∧
  (int_truediv (7 * 50) 100 = 7 * 50 / 100 ∧
   round_half_even (7 * 50) 100 - 1 ≤ int_truediv (7 * 50) 100
     ≤ round_half_even (7 * 50) 100) ∧
  int_truediv (7 * 50) 100 = 7 / 2.
Proof.
  pose proof (percent_resize_truncates env_ref world_photos) as (Hcli & Hgui & Har & Hhalf).
  split; [| split; [| split]].
  - apply (Hcli cat_task
             "  - Input: cat.png (10.00 KB) -> Output: cat.webp (2.00 KB)"
             _ 10240 cat_png).
    + reflexivity.
    + vm_compute. reflexivity.
    + vm_compute. reflexivity.
    + reflexivity.
  - apply (Hgui cat_worker "SUCCESS: cat.png -> cat.webp" _ 10240 cat_png).
    + reflexivity.
    + reflexivity.
    + vm_compute. reflexivity.
    + vm_compute. reflexivity.
    + reflexivity.
  - apply Har; lia.
  - apply Hhalf; lia.
Defined.

(** The claim as stated fails: a 3x7 image resized to 50 percent is written
    1x3, whereas [round(3 * 50 / 100)] is 2 and [round(7 * 50 / 100)] is 4. *)
Lemma percent_resize_is_not_rounded :
  ∃ n' out,
    fs (world_after (compress_image env_ref cat_task) world_photos)
      !! ["photos"; "cat.webp"] = Some (File n' (Some out)) ∧
    size out = (1, 3) ∧
    (round_half_even (3 * 50) 100, round_half_even (7 * 50) 100) = (2, 4) ∧
    size out ≠ (round_half_even (3 * 50) 100, round_half_even (7 * 50) 100).
Proof.
  vm_compute. do 2 eexists.
  split; [reflexivity |]. split; [reflexivity |]. split; [reflexivity | discriminate].
Qed.

(** ** C10: the two workers compared *)

Lemma pure_ret {A} (a : A) : pure_call (mret a).
Proof. by exists (Return a). Qed.

Lemma pure_bind {A B} (m : M A) (f : A → M B) :
  pure_call m → (∀ a, pure_call (f a)) → pure_call (m ≫= f).
Proof.
  intros [r Hr] Hf. destruct r as [a|e].
  - destruct (Hf a) as [r' Hr']. exists r'. intros w.
    by rewrite bind_run, Hr, Hr'.
  - exists (Raise e). intros w. by rewrite bind_run, Hr.
Qed.

Lemma pure_getdata env img : pure_call (PIL.getdata env img).
Proof. unfold PIL.getdata. destruct (fault env _); by eexists. Qed.
Lemma pure_new env m s : pure_call (PIL.new env m s).
Proof. unfold PIL.new. destruct (fault env _); by eexists. Qed.
Lemma pure_putdata env img d : pure_call (PIL.putdata env img d).
Proof. unfold PIL.putdata. destruct (fault env _); by eexists. Qed.
Lemma pure_resize env img s r : pure_call (PIL.resize env img s r).
Proof.
  unfold PIL.resize. destruct (fault env _); [by eexists |].
  destruct (bool_decide _); [by eexists |].
  destruct (_ || _); by eexists.
Qed.
Lemma pure_thumbnail env img s r : pure_call (PIL.thumbnail env img s r).
Proof.
  unfold PIL.thumbnail. destruct (fault env _); [by eexists |].
  destruct (_ && _); [by eexists |].
  destruct (bool_decide _); [by eexists |].
  destruct (_ || _); by eexists.
Qed.
Lemma pure_convert env img m : pure_call (PIL.convert env img m).
Proof.
  unfold PIL.convert. destruct (bool_decide _); [by eexists |].
  destruct (fault env _); by eexists.
Qed.
Lemma pure_quantize env img c m d : pure_call (PIL.quantize env img c m d).
Proof. unfold PIL.quantize. destruct (fault env _); by eexists. Qed.

Lemma pure_strip env (se : bool) img :
  pure_call (if se && PIL.hasattr_info img then
               img_data ← PIL.getdata env img;
               new_img ← PIL.new env (mode img) (size img);
               PIL.putdata env new_img img_data
             else mret img).
Proof.
  destruct (_ && _); [| apply pure_ret].
  apply pure_bind; [apply pure_getdata | intros d].
  apply pure_bind; [apply pure_new | intros n]. apply pure_putdata.
Qed.

Lemma open_world env p w r w' : PIL.open env p w = (r, w') → w' = w.
Proof.
  unfold PIL.open. destruct (fault env _); [by intros [= _ <-] |].
  destruct (os.stat w p) as [[|n [i|]]|]; by intros [= _ <-].
Qed.

Lemma get_file_size_ok env p w n o :
  fault env (c_getsize p) = None →
  os.stat w p = Some (File n o) →
  ∃ s, get_file_size env p w = (Return s, w).
Proof.
  intros Hf Hs. unfold get_file_size. rewrite bind_run. unfold os.path_getsize.
  rewrite Hf, Hs. destruct (n <? _); eauto.
Qed.

Lemma save_format_png env img p params w :
  Str.lower (snd (os_path.splitext p)) = ".png" →
  PIL.save env img p None params w = PIL.save env img p (Some "png") params w.
Proof. intros Hext. unfold PIL.save. rewrite Hext. reflexivity. Qed.

(** C10 (as amended).  The two workers leave the same file system, hence
    write the same output file, when the input is a decodable file whose
    size can be queried, the percentage is unset, zero or below 100, the
    output directory exists, and, for the PNG branch, the image is not
    RGBA, carries no transparency marker that survives the strip, and the
    derived output name ends in [.png].  Here [compress_image] is given
    the output path [compress_image_worker] derives and no dithering. *)
Theorem workers_agree env g w n src :
  os.stat w (g_input_path g) = Some (File n (Some src)) →
  fault env (c_getsize (g_input_path g)) = None →
  (PIL.truthy (g_resize_percentage g) = true → val (g_resize_percentage g) < 100) →
  is_Some (os.stat w (os_path.dirname (t_output_path (cli_task_of g)))) →
  (g_use_webp g = false →
   mode src ≠ "RGBA" ∧
   (g_strip_exif g = false → "transparency" ∉ info src) ∧
   Str.lower (snd (os_path.splitext (t_output_path (cli_task_of g)))) = ".png") →
  fs (world_after (compress_image env (cli_task_of g)) w) =
  fs (world_after (compress_image_worker env g) w).
Proof.
  intros Hsrc Hsz Hpct Hdir Hpng. unfold world_after.
  rewrite compress_image_enters_try by (simpl; by rewrite Hsrc).
  destruct g as [inp dir q uw wm rp md se]. simpl in *.
  unfold compress_image_worker.
  set (out := os_path.join dir _) in *.
  rewrite !try_except_run.
  unfold compress_image_try, cli_task_of. simpl. fold out.
  destruct (get_file_size_ok env inp w n (Some src) Hsz Hsrc) as [osz Hosz].
  rewrite bind_run, Hosz.
  rewrite 2!bind_run.
  destruct (PIL.open env inp w) as [[img|e] w1] eqn:Hopen; [| by apply open_world in Hopen as ->].
  apply open_inv in Hopen as [-> [n0 Hst]].
  rewrite Hsrc in Hst. injection Hst as _ ->.
  rewrite 2!bind_run.
  destruct (pure_strip env se img) as [r1 Hr1]. rewrite !Hr1.
  destruct r1 as [img1|e]; [| done].
  assert (mode img1 = mode img ∧ info img1 = (if se then [] else info img)) as [Hm1 Hi1].
  { specialize (Hr1 w). destruct se; simpl in Hr1.
    - apply strip_inv in Hr1 as [_ ->]. done.
    - by injection Hr1 as <-. }
  rewrite 2!bind_run.
  assert (Hcond : PIL.truthy rp && (val rp <? 100) = PIL.truthy rp).
  { destruct (PIL.truthy rp); [| done]. simpl. apply Z.ltb_lt. by apply Hpct. }
  rewrite Hcond.
  set (resized := if PIL.truthy rp then _ else _).
  assert (pure_call resized) as [r2 Hr2].
  { subst resized. destruct (PIL.truthy rp).
    - destruct (size img1). apply pure_resize.
    - destruct (PIL.truthy md); [apply pure_thumbnail | apply pure_ret]. }
  assert (∀ img2, r2 = Return img2 →
            mode img2 = mode img1 ∧ info img2 = info img1) as Hattr.
  { intros img2 ->. specialize (Hr2 w). subst resized.
    destruct (PIL.truthy rp).
    - destruct (size img1). by apply resize_inv in Hr2 as (_ & _ & ? & ?).
    - destruct (PIL.truthy md).
      + by apply thumbnail_inv in Hr2 as (_ & ? & ?).
      + by injection Hr2 as <-. }
  rewrite !Hr2. clearbody resized.
  destruct r2 as [img2|e]; [| done].
  destruct (Hattr img2 eq_refl) as [Hm2 Hi2]. clear Hattr.
  assert (Hex : os.path_exists (os_path.dirname out) w = (Return true, w)).
  { unfold os.path_exists. by rewrite bool_decide_true. }
  rewrite (bind_run (os.path_exists _)), Hex. simpl negb. unfold when.
  rewrite (bind_run (mret ())). unfold mret at 1, M_ret at 1.
  destruct uw.
  - rewrite !bind_run.
    destruct (PIL.save env img2 out _ _ w) as [[[]|e] w2]; [| done].
    rewrite ?bind_run.
    destruct (get_file_size env out w2) as [[csz|e] w3] eqn:Hcsz;
      apply get_file_size_world in Hcsz as ->; done.
  - destruct (Hpng eq_refl) as (Hrgba & Htr & Hext).
    rewrite bool_decide_false by (by rewrite Hm2, Hm1).
    rewrite bool_decide_false.
    2: { rewrite Hi2, Hi1. destruct se; [set_solver | by apply Htr]. }
    simpl orb. cbv iota.
    assert (PIL.convert env img2 "RGB" =
            (if negb (bool_decide (mode img2 = "RGB"))
             then PIL.convert env img2 "RGB" else mret img2)) as <-.
    { case_bool_decide as Hrgb; [| done]. simpl.
      unfold PIL.convert. by rewrite bool_decide_true. }
    rewrite !bind_run.
    destruct (pure_convert env img2 "RGB") as [r3 Hr3]. rewrite !Hr3.
    destruct r3 as [img3|e]; [| done].
    rewrite ?bind_run.
    destruct (pure_quantize env img3 256 LIBIMAGEQUANT NONE) as [r4 Hr4]. rewrite !Hr4.
    destruct r4 as [img4|e]; [| done].
    rewrite ?bind_run.
    rewrite save_format_png by done.
    destruct (PIL.save env img4 out _ _ w) as [[[]|e] w2]; [| done].
    rewrite ?bind_run.
    destruct (get_file_size env out w2) as [[csz|e] w3] eqn:Hcsz;
      apply get_file_size_world in Hcsz as ->; done.
Qed.

Lemma workers_agree_witness :
  fs (world_after (compress_image env_ref (cli_task_of cat_worker_png)) world_photos) =
  fs (world_after (compress_image_worker env_ref cat_worker_png) world_photos).
Proof.
  apply (workers_agree env_ref cat_worker_png world_photos 10240 cat_png).
  - vm_compute. reflexivity.
  - reflexivity.
  - intros _. simpl. lia.
  - vm_compute. eexists. reflexivity.
  - intros _. split; [discriminate |]. split.
    + intros _. simpl. set_solver.
    + vm_compute. reflexivity.
Defined.

(** The claim as stated fails on each of the three points it names.  A
    missing input is skipped by one worker and reported as an error by the
    other; a percentage of 200 doubles the image in one and leaves it
    alone in the other; an RGBA image is quantised as it is by one and
    flattened to RGB first by the other. *)
Lemma workers_differ :
  (result_of (compress_image env_ref (cli_task_of gone_worker)) world_photos = Return None ∧
   result_of (compress_image_worker env_ref gone_worker) world_photos =
     Return "ERROR: Compressing gone.png: [Errno 2] No such file or directory: 'photos/gone.png'") ∧
  (∃ n1 o1 n2 o2,
     fs (world_after (compress_image env_ref (cli_task_of double_worker)) world_photos)
       !! ["photos"; "dog.webp"] = Some (File n1 (Some o1)) ∧
     fs (world_after (compress_image_worker env_ref double_worker) world_photos)
       !! ["photos"; "dog.webp"] = Some (File n2 (Some o2)) ∧
     size o1 = (20, 20) ∧ size o2 = (10, 10)) ∧
  (∃ n1 o1 n2 o2,
     fs (world_after (compress_image env_ref (cli_task_of logo_worker)) world_art)
       !! ["art"; "logo.png"] = Some (File n1 (Some o1)) ∧
     fs (world_after (compress_image_worker env_ref logo_worker) world_art)
       !! ["art"; "logo.png"] = Some (File n2 (Some o2)) ∧
     px o1 = px_codec (px_quantize (px_file 3) 256 LIBIMAGEQUANT NONE) "PNG"
               (mkSaveParams true None None) ∧
     px o2 = px_codec (px_quantize (px_convert (px_file 3) "RGB") 256 LIBIMAGEQUANT NONE)
               "PNG" (mkSaveParams true None None) ∧
     o1 ≠ o2).
Proof.
  split; [| split].
  - vm_compute. split; reflexivity.
  - vm_compute. do 4 eexists. repeat split; reflexivity.
  - vm_compute. do 4 eexists.
    split; [reflexivity |]. split; [reflexivity |].
    split; [reflexivity |]. split; [reflexivity | discriminate].
Qed.

(** ** Reasoning about runs: what a computation may change *)

Section Post.
Context (I : World → Prop) (P : World → World → Prop).
Hypothesis P_refl : ∀ w, P w w.
Hypothesis P_trans : ∀ w1 w2 w3, P w1 w2 → P w2 w3 → P w1 w3.

Lemma post_read_only {A} (m : M A) : read_only m → post I P m.
Proof. intros Hm w Hw. rewrite Hm. auto. Qed.

Lemma post_ret {A} (a : A) : post I P (mret a).
Proof. apply post_read_only. by intros w. Qed.

Lemma post_raise {A} e : post I P (raise e : M A).
Proof. apply post_read_only. by intros w. Qed.

Lemma post_bind {A B} (m : M A) (f : A → M B) :
  post I P m → (∀ a, post I P (f a)) → post I P (m ≫= f).
Proof.
  intros Hm Hf w Hw. rewrite bind_run.
  destruct (Hm w Hw) as [HP HI]. destruct (m w) as [[a|e] w1]; simpl in *; [| done].
  destruct (Hf a w1 HI) as [HP' HI']. eauto.
Qed.

Lemma post_fmap {A B} (g : A → B) (m : M A) : post I P m → post I P (g <$> m).
Proof.
  intros Hm w Hw. destruct (Hm w Hw) as [HP HI].
  unfold fmap, M_fmap. by destruct (m w) as [[a|e] w1].
Qed.

Lemma post_try {A} (body : M A) (handler : Exn → M A) :
  post I P body → (∀ e, post I P (handler e)) → post I P (try_except body handler).
Proof.
  intros Hm Hh w Hw. rewrite try_except_run.
  destruct (Hm w Hw) as [HP HI]. destruct (body w) as [[a|e] w1]; simpl in *; [done |].
  destruct (Hh e w1 HI) as [HP' HI']. eauto.
Qed.

Lemma post_when (c : bool) (body : M unit) :
  (c = true → post I P body) → post I P (when c body).
Proof. destruct c; simpl; [auto | intros _; apply post_ret]. Qed.

End Post.

Lemma read_only_bind {A B} (m : M A) (f : A → M B) :
  read_only m → (∀ a, read_only (f a)) → read_only (m ≫= f).
Proof.
  intros Hm Hf w. rewrite bind_run. specialize (Hm w).
  destruct (m w) as [[a|e] w1]; simpl in *; subst; [apply Hf | done].
Qed.

Lemma read_only_pure {A} (m : M A) : pure_call m → read_only m.
Proof. intros [r Hr] w. by rewrite Hr. Qed.

Lemma read_only_path_exists p : read_only (os.path_exists p).
Proof. by intros w. Qed.
Lemma read_only_path_isdir p : read_only (os.path_isdir p).
Proof. by intros w. Qed.
Lemma read_only_getsize env p : read_only (os.path_getsize env p).
Proof.
  intros w. unfold os.path_getsize. destruct (fault env _); [done |].
  by destruct (os.stat w p) as [[|n o]|].
Qed.
Lemma read_only_get_file_size env p : read_only (get_file_size env p).
Proof.
  intros w. destruct (get_file_size env p w) as [r w'] eqn:H.
  by apply get_file_size_world in H.
Qed.
Lemma read_only_open env p : read_only (PIL.open env p).
Proof.
  intros w. destruct (PIL.open env p w) as [r w'] eqn:H.
  by apply open_world in H.
Qed.
Lemma read_only_listdir env p : read_only (os.listdir env p).
Proof.
  intros w. unfold os.listdir. destruct (fault env _); [done |].
  by destruct (os.stat w p) as [[|n o]|].
Qed.

(** The shape of [compress_image_try]: every call but [makedirs] and
    [save] is read-only. *)
Ltac post_seq := apply post_bind; [assumption | |].
Ltac post_skip lem := apply post_read_only; [assumption | lem].

Lemma pure_resize_stage env img1 rp md :
  pure_call (if PIL.truthy rp then
               let '(width, height) := size img1 in
               PIL.resize env img1
                 (int_truediv (width * val rp) 100, int_truediv (height * val rp) 100)
                 LANCZOS
             else if PIL.truthy md then
               PIL.thumbnail env img1 (val md, val md) LANCZOS
             else mret img1).
Proof.
  destruct (PIL.truthy rp).
  - destruct (size img1). apply pure_resize.
  - destruct (PIL.truthy md); [apply pure_thumbnail | apply pure_ret].
Qed.

Lemma post_compress_image_try env (I : World → Prop) (P : World → World → Prop) t :
  (∀ w, P w w) →
  (∀ w1 w2 w3, P w1 w2 → P w2 w3 → P w1 w3) →
  post I P (os.makedirs env (os_path.dirname (t_output_path t))) →
  (∀ img format params, post I P (PIL.save env img (t_output_path t) format params)) →
  post I P (compress_image_try env t).
Proof.
  intros Hrefl Htrans Hmk Hsave.
  destruct t as [inp out q uw wm rp md se di]. simpl in *.
  unfold compress_image_try.
  post_seq; [post_skip ltac:(apply read_only_get_file_size) | intros osz].
  post_seq; [post_skip ltac:(apply read_only_open) | intros img].
  post_seq; [post_skip ltac:(apply read_only_pure, pure_strip) | intros img1].
  post_seq; [post_skip ltac:(apply read_only_pure, pure_resize_stage) | intros img2].
  post_seq; [post_skip ltac:(apply read_only_path_exists) | intros present].
  post_seq; [apply post_when; auto | intros []].
  post_seq.
  - destruct uw; [apply Hsave |].
    post_seq; [| intros img3; apply Hsave].
    post_skip ltac:(apply read_only_pure).
    destruct (_ || _); [apply pure_quantize |].
    apply pure_bind; [apply pure_convert | intros; apply pure_quantize].
  - intros []. post_seq; [post_skip ltac:(apply read_only_get_file_size) |].
    intros. by apply post_ret.
Qed.

Lemma post_print I P s :
  (∀ w, I w → P w (set_stdout (stdout w ++ [s]) w) ∧ I (set_stdout (stdout w ++ [s]) w)) →
  post I P (print s).
Proof. intros H w Hw. apply H, Hw. Qed.

Lemma post_compress_image env (I : World → Prop) (P : World → World → Prop) t :
  (∀ w, P w w) →
  (∀ w1 w2 w3, P w1 w2 → P w2 w3 → P w1 w3) →
  (∀ s, post I P (print s)) →
  post I P (os.makedirs env (os_path.dirname (t_output_path t))) →
  (∀ img format params, post I P (PIL.save env img (t_output_path t) format params)) →
  post I P (compress_image env t).
Proof.
  intros Hrefl Htrans Hpr Hmk Hsave. unfold compress_image.
  post_seq.
  - destruct (negb _); [by apply post_ret |].
    apply post_fmap. post_skip ltac:(apply read_only_path_exists).
  - intros [].
    + post_seq; [apply Hpr | intros; by apply post_ret].
    + apply post_try; [assumption | by apply post_compress_image_try |].
      intros e. by apply post_ret.
Qed.

(** *** What a job prints *)

Lemma makedirs_world env p w :
  snd (os.makedirs env p w) = w ∨
  ∃ f, snd (os.makedirs env p w) = set_fs f w.
Proof.
  unfold os.makedirs. destruct (fault env _); [by left |].
  destruct (negb _); [by left |].
  destruct (bool_decide _); [by left |].
  destruct (existsb _ _); [by left |]. right. by eexists.
Qed.

Lemma save_world env img p format params w :
  snd (PIL.save env img p format params w) = w ∨
  ∃ n o, snd (PIL.save env img p format params w)
         = set_fs (<[os.resolve w p := File n o]> (fs w)) w ∧
         os.resolve w p ≠ [] ∧
         os.is_dir (fs w !! os.resolve w p) = false.
Proof.
  unfold PIL.save.
  destruct (match format with Some f => Some f | None => _ end) as [f|]; [| by left].
  destruct (negb (bool_decide _)); [by left |].
  destruct (negb (Str.truthy p)); [by left |].
  destruct (os.resolve w p) as [|c k] eqn:Hk; [by left |].
  change (PIL.node_at w (c :: k)) with (fs w !! (c :: k)).
  destruct (fs w !! (c :: k)) as [[|n o]|] eqn:Hn; [by left | |];
    destruct (PIL.node_at w (removelast (c :: k))) as [[|n' o']|];
    try (by left);
    (destruct (fault env _);
       [| right; do 2 eexists; split; [reflexivity | split; done]]).
  - right. do 2 eexists. split; [reflexivity | split; done].
  - by left.
Qed.

Lemma compress_image_try_keeps_stdout env t w :
  stdout (snd (compress_image_try env t w)) = stdout w.
Proof.
  apply (post_compress_image_try env (λ _, True) keeps_stdout t); try done.
  - intros w1 w2 w3. unfold keeps_stdout. congruence.
  - intros w1 _. split; [| done]. unfold keeps_stdout.
    destruct (makedirs_world env (os_path.dirname (t_output_path t)) w1) as [-> | [f ->]]; done.
  - intros img format params w1 _. split; [| done]. unfold keeps_stdout.
    destruct (save_world env img (t_output_path t) format params w1)
      as [-> | (n & o & -> & _)]; done.
Qed.

Lemma compress_image_try_message env t w r w' :
  compress_image_try env t w = (Return r, w') →
  ∃ s, r = Some ("  - Input: " +:+ s).
Proof.
  intros Hrun. destruct t as [inp out q uw wm rp md se di].
  unfold compress_image_try in Hrun.
  repeat (apply bind_Return_inv in Hrun as (? & ? & _ & Hrun)).
  injection Hrun as <- <-. eauto.
Qed.

Lemma compress_image_output env t w :
  ∃ r w', compress_image env t w = (Return r, w') ∧
          stdout w' = stdout w ++ worker_lines t r ∧
          (r = None ∨ result_truthy r = true).
Proof.
  destruct (os.stat w (t_input_path t)) as [n|] eqn:Hs.
  - rewrite compress_image_enters_try by (by rewrite Hs).
    rewrite try_except_run.
    pose proof (compress_image_try_keeps_stdout env t w) as Hout.
    destruct (compress_image_try env t w) as [[r|e] w1] eqn:Hrun; simpl in Hout.
    + apply compress_image_try_message in Hrun as [s ->].
      do 2 eexists. split; [reflexivity |]. simpl. rewrite app_nil_r.
      split; [done | by right].
    + do 2 eexists. split; [reflexivity |]. simpl. rewrite app_nil_r.
      split; [done | by right].
  - rewrite compress_image_skips by done.
    do 2 eexists. split; [reflexivity |]. split; [done | by left].
Qed.

Lemma when_truthy_print r w :
  r = None ∨ result_truthy r = true →
  when (result_truthy r) (print (default "" r)) w
  = (Return tt, set_stdout (stdout w ++ orchestrator_lines r) w).
Proof.
  intros [-> | Hr].
  - simpl. rewrite app_nil_r. by destruct w.
  - rewrite Hr. destruct r as [s|]; [done | discriminate].
Qed.

(** ** The two loops of [main] *)

(** *** Lines and futures *)

Lemma filled_app a : ∀ next b,
  filled next (a ++ b) = filled next a ++ filled (next + length a) b.
Proof.
  induction a as [|[r|] a IH]; intros next b; simpl.
  - by rewrite Nat.add_0_r.
  - rewrite IH. do 3 f_equal. lia.
  - rewrite IH. do 2 f_equal. lia.
Qed.

Lemma filled_yielded (yielded : list (nat * option string)) : ∀ next,
  map fst yielded = seq next (length yielded) →
  filled next (map (λ ir, Some ir.2) yielded) = yielded.
Proof.
  induction yielded as [|[i r] yielded IH]; intros next Hidx; simpl in *; [done |].
  injection Hidx as -> Hidx. by rewrite IH.
Qed.

Lemma filled_insert pending : ∀ next j r,
  pending !! j = Some None →
  filled next (<[j := Some r]> pending) ≡ₚ (next + j, r)%nat :: filled next pending.
Proof.
  induction pending as [|s pending IH]; intros next [|j] r Hj; try done; simpl in *.
  - injection Hj as ->. by rewrite Nat.add_0_r.
  - replace (next + S j)%nat with (S next + j)%nat by lia.
    destruct s as [r'|]; rewrite (IH (S next) j r Hj); [apply perm_swap | done].
Qed.

Lemma concat_perm {A} (l l' : list (list A)) : l ≡ₚ l' → concat l ≡ₚ concat l'.
Proof.
  induction 1 as [|x l l' _ IH|x y l|l l' l'' _ IH1 _ IH2]; simpl.
  - done.
  - by rewrite IH.
  - solve_Permutation.
  - by rewrite IH1.
Qed.

Lemma lines_at_split (tasks : list Task) l :
  concat (map (lines_at tasks) l)
  ≡ₚ concat (map (worker_lines_at tasks) l) ++ concat (map (λ ir, orchestrator_lines ir.2) l).
Proof.
  induction l as [|ir l IH]; simpl; [done |]. rewrite IH. unfold lines_at.
  solve_Permutation.
Qed.

Lemma filled_replicate n : ∀ next, filled next (replicate n None) = [].
Proof. induction n; intros next; simpl; auto. Qed.

Lemma lines_at_zip tasks emitted : ∀ k,
  map fst emitted = seq k (length emitted) →
  (k + length emitted ≤ length tasks)%nat →
  map (lines_at tasks) emitted = zip_with job_lines (drop k tasks) (map snd emitted).
Proof.
  induction emitted as [|[i r] emitted IH]; intros k Hidx Hlen; simpl in *.
  - by destruct (drop k tasks).
  - injection Hidx as -> Hidx.
    destruct (lookup_lt_is_Some_2 tasks k) as [t Ht]; [lia |].
    rewrite (drop_S _ _ _ Ht). simpl. rewrite <- IH by (done || lia).
    unfold lines_at at 1, worker_lines_at. simpl. by rewrite Ht.
Qed.

Lemma job_lines_count tasks : ∀ results,
  length results = length tasks →
  Forall printable results →
  length (concat (zip_with job_lines tasks results)) = length tasks.
Proof.
  induction tasks as [|t tasks IH]; intros [|r results] Hlen Hok; try done.
  simpl in *. inversion Hok as [|? ? Hr Hok']; subst.
  rewrite length_app, IH by (done || lia).
  destruct Hr as [-> | Hr]; [done |]. destruct r; [done | discriminate].
Qed.

Section Loops.
Context (env : Env) (tasks : list Task).
Context (I : list nat → World → Prop) (Q : nat → option string → Prop).
Hypothesis job_step : ∀ i order t w r w',
  NoDup (i :: order) → I (i :: order) w → tasks !! i = Some t →
  compress_image env t w = (Return r, w') → I order w' ∧ Q i r.
Hypothesis print_step : ∀ order lines w,
  I order w → I order (set_stdout (stdout w ++ lines) w).

Lemma run_sequential_spec rest : ∀ k w,
  drop k tasks = rest →
  I (seq k (length rest)) w →
  ∃ results w',
    run_sequential env rest w = (Return results, w') ∧
    I [] w' ∧
    stdout w' = stdout w ++ concat (zip_with job_lines rest results) ∧
    length results = length rest ∧
    Forall printable results ∧
    ∀ j r, results !! j = Some r → Q (k + j) r.
Proof.
  induction rest as [|t rest IH]; intros k w Hdrop HI.
  - exists [], w. simpl. rewrite app_nil_r. repeat split; try done.
  - simpl run_sequential. rewrite bind_run.
    destruct (compress_image_output env t w) as (r & w1 & Hrun & Hout & Hr).
    rewrite Hrun.
    assert (tasks !! k = Some t) as Hk.
    { rewrite <- (Nat.add_0_r k), <- lookup_drop, Hdrop. done. }
    simpl in HI.
    destruct (job_step k (seq (S k) (length rest)) t w r w1) as [HI1 HQ]; try done.
    { apply (NoDup_seq k (S (length rest))). }
    rewrite bind_run, when_truthy_print by done.
    rewrite bind_run.
    destruct (IH (S k) (set_stdout (stdout w1 ++ orchestrator_lines r) w1))
      as (results & w' & Hrest & HI' & Hout' & Hlen' & Hok & HQ').
    { replace (S k) with (k + 1)%nat by lia. by rewrite <- drop_drop, Hdrop. }
    { by apply print_step. }
    rewrite Hrest.
    exists (r :: results), w'.
    split; [done |]. split; [done |]. split.
    { rewrite Hout'. simpl. rewrite Hout. unfold job_lines. by rewrite <- !app_assoc. }
    split; [simpl; by rewrite Hlen' |].
    split; [by constructor |].
    intros [|j] r' Hj; simpl in Hj.
    + injection Hj as <-. by rewrite Nat.add_0_r.
    + replace (k + S j)%nat with (S k + j)%nat by lia. by apply HQ'.
Qed.

Lemma drain_spec pending : ∀ next w,
  (∀ j r, pending !! j = Some (Some r) → r = None ∨ result_truthy r = true) →
  ∃ yielded rest,
    drain next pending w =
      (Return (yielded, rest),
       set_stdout (stdout w ++ concat (map (λ ir, orchestrator_lines ir.2) yielded)) w) ∧
    pending = map (λ ir, Some ir.2) yielded ++ rest ∧
    map fst yielded = seq next (length yielded) ∧
    head rest ≠ Some (Some None) ∧ (∀ r, head rest ≠ Some (Some r)).
Proof.
  induction pending as [|s pending IH]; intros next w Hok.
  - exists [], []. simpl. rewrite app_nil_r. destruct w. done.
  - destruct s as [r|].
    + simpl drain. rewrite bind_run, when_truthy_print by (by apply (Hok 0%nat)).
      rewrite bind_run.
      destruct (IH (S next) (set_stdout (stdout w ++ orchestrator_lines r) w))
        as (yielded & rest & Hrun & Hp & Hi & Hh).
      { intros j r' Hj. by apply (Hok (S j)). }
      rewrite Hrun. exists ((next, r) :: yielded), rest.
      split; [| split; [by rewrite Hp | split; [simpl; by rewrite Hi | done]]].
      simpl. by rewrite <- app_assoc.
    + exists [], (None :: pending). simpl. rewrite app_nil_r.
      split; [by destruct w | done].
Qed.

Lemma pool_run_spec order : ∀ next pending w,
  slots_ok tasks Q order next pending →
  I order w →
  ∃ emitted lines w',
    pool_run env tasks order next pending w = (Return emitted, w') ∧
    I [] w' ∧
    stdout w' = stdout w ++ lines ∧
    lines ++ concat (map (worker_lines_at tasks) (filled next pending))
      ≡ₚ concat (map (lines_at tasks) emitted) ∧
    map fst emitted = seq next (length pending) ∧
    Forall (λ ir, printable ir.2 ∧ Q ir.1 ir.2) emitted.
Proof.
  induction order as [|i order IH]; intros next pending w Hok HI.
  - destruct Hok as (_ & _ & Hc & _ & _ & Hf).
    assert (pending = []) as ->.
    { destruct pending as [|[r|] pending]; [done | by destruct (Hf r) |].
      assert (0 + next ∈ @nil nat)%nat as Hin; [| by apply elem_of_nil in Hin].
      rewrite Nat.add_comm. apply (Hc 0%nat); simpl; [lia | done]. }
    exists [], [], w. simpl. rewrite app_nil_r. done.
  - destruct Hok as (Hnd & Hlen & Hc & Hd & He & Hf).
    assert (next ≤ i < next + length pending)%nat as Hi by (apply Hd; left).
    destruct (lookup_lt_is_Some_2 tasks i) as [t Ht]; [lia |].
    simpl pool_run. rewrite Ht, bind_run.
    destruct (compress_image_output env t w) as (r & w1 & Hrun & Hout & Hr).
    rewrite Hrun.
    destruct (job_step i order t w r w1) as [HI1 HQ]; try done.
    assert ((next <=? i)%nat = true) as -> by (apply Nat.leb_le; lia).
    set (pending1 := <[(i - next)%nat := Some r]> pending).
    assert (pending !! (i - next)%nat = Some None) as Hslot.
    { apply Hc; [lia |]. replace (next + (i - next))%nat with i by lia. left. }
    assert (∀ j r', pending1 !! j = Some (Some r') →
              (r' = None ∨ result_truthy r' = true) ∧ Q (next + j) r') as He1.
    { intros j r' Hj. subst pending1.
      destruct (decide (j = (i - next)%nat)) as [-> | Hne].
      - rewrite list_lookup_insert_eq in Hj by lia. injection Hj as <-.
        by replace (next + (i - next))%nat with i by lia.
      - rewrite list_lookup_insert_ne in Hj by done. by apply He. }
    rewrite bind_run.
    destruct (drain_spec pending1 next w1) as (yielded & pending2 & Hdrain & Hp & Hidx & _ & Hf2).
    { intros j r' Hj. by apply He1 in Hj as [? _]. }
    rewrite Hdrain. rewrite bind_run.
    set (m := length yielded) in *.
    assert (length pending = (m + length pending2)%nat) as Hlen1.
    { rewrite <- (length_insert pending (i - next) (Some r)). fold pending1.
      rewrite Hp, length_app, length_map. done. }
    assert (∀ j, pending2 !! j = pending1 !! (m + j)%nat) as Hshift.
    { intros j. rewrite Hp, lookup_app_r by (rewrite length_map; lia).
      rewrite length_map. f_equal. lia. }
    assert (∀ j, (j < m)%nat → ∃ r', pending1 !! j = Some (Some r')) as Hfront.
    { intros j Hj. rewrite Hp, lookup_app_l by (rewrite length_map; lia).
      rewrite list_lookup_fmap.
      destruct (lookup_lt_is_Some_2 yielded j Hj) as [ir ->]. by eexists. }
    inversion Hnd as [|? ? Hnotin Hnd']; subst.
    destruct (IH (next + m)%nat pending2
                (set_stdout (stdout w1 ++ concat (map (λ ir, orchestrator_lines ir.2) yielded)) w1))
      as (later & lines & w' & Hrest & HI' & Hout' & Hlines & Hidx' & HQ').
    { split; [done |]. split; [lia |]. split; [| split; [| split; [| done]]].
      - intros j Hj. rewrite Hshift. unfold pending1.
        destruct (decide ((m + j)%nat = (i - next)%nat)) as [Heq | Hne].
        + rewrite Heq, list_lookup_insert_eq by lia.
          split; [done |]. intros Hin. exfalso. apply Hnotin.
          by replace i with (next + m + j)%nat by lia.
        + rewrite list_lookup_insert_ne by done.
          rewrite Hc by lia. replace (next + (m + j))%nat with (next + m + j)%nat by lia.
          rewrite elem_of_cons. split; [intros [?|?]; [lia | done] | auto].
      - intros i' Hi'. assert (next ≤ i' < next + length pending)%nat as Hb
          by (apply Hd; by right).
        split; [| lia].
        destruct (decide (i' - next < m)%nat) as [Hlt | Hge]; [| lia].
        destruct (Hfront _ Hlt) as [r' Hr']. unfold pending1 in Hr'.
        assert (i' ≠ i) by (intros ->; done).
        rewrite list_lookup_insert_ne in Hr' by lia.
        assert (pending !! (i' - next)%nat = Some None) as Hnone.
        { apply Hc; [lia |]. replace (next + (i' - next))%nat with i' by lia. by right. }
        rewrite Hnone in Hr'. discriminate.
      - intros j r' Hj. rewrite Hshift in Hj. apply He1 in Hj.
        by replace (next + m + j)%nat with (next + (m + j))%nat by lia. }
    { by apply print_step. }
    rewrite Hrest.
    exists (yielded ++ later),
           (worker_lines t r ++ concat (map (λ ir, orchestrator_lines ir.2) yielded) ++ lines), w'.
    split; [done |]. split; [done |]. split.
    { rewrite Hout'. simpl. rewrite Hout. by rewrite <- !app_assoc. }
    split.
    { assert (filled next pending1 ≡ₚ (i, r) :: filled next pending) as Hins.
      { unfold pending1. rewrite (filled_insert pending next (i - next)%nat r Hslot).
        by replace (next + (i - next))%nat with i by lia. }
      assert (filled next pending1 = yielded ++ filled (next + m) pending2) as Hsplit.
      { rewrite Hp, filled_app, length_map. fold m. by rewrite filled_yielded. }
      rewrite Hsplit in Hins.
      apply (Permutation_map (worker_lines_at tasks)), concat_perm in Hins.
      rewrite map_app, concat_app in Hins. simpl in Hins.
      unfold worker_lines_at at 3 in Hins. simpl in Hins. rewrite Ht in Hins.
      rewrite map_app, concat_app, (lines_at_split tasks yielded), <- Hlines.
      etransitivity; [| etransitivity; [apply (Permutation_app_head
        (concat (map (λ ir, orchestrator_lines ir.2) yielded) ++ lines)
        (Permutation_sym Hins)) |]]; solve_Permutation. }
    split.
    { rewrite map_app, Hidx, Hidx'. fold m. rewrite Hlen1. by rewrite seq_app. }
    apply Forall_app. split; [| done].
    apply Forall_forall. intros [i0 r0] Hin.
    apply list_elem_of_lookup in Hin as [j Hj].
    assert (j < m)%nat as Hjm by (by eapply lookup_lt_Some).
    assert (i0 = (next + j)%nat) as ->.
    { apply (f_equal (λ l, l !! j)) in Hidx.
      rewrite list_lookup_fmap, Hj in Hidx. simpl in Hidx.
      rewrite lookup_seq_lt in Hidx by done. by injection Hidx. }
    apply He1. rewrite Hp, lookup_app_l by (rewrite length_map; lia).
    by rewrite list_lookup_fmap, Hj.
Qed.

End Loops.

Lemma slots_ok_initial tasks Q order :
  Permutation order (seq 0 (length tasks)) →
  slots_ok tasks Q order 0 (replicate (length tasks) None).
Proof.
  intros Hperm.
  assert (∀ i, i ∈ order ↔ (i < length tasks)%nat) as Hin.
  { intros i. rewrite Hperm, elem_of_seq. lia. }
  split; [| split; [| split; [| split; [| split]]]].
  - rewrite Hperm. apply NoDup_seq.
  - by rewrite length_replicate.
  - intros j Hj. rewrite length_replicate in Hj.
    rewrite lookup_replicate_2 by done. rewrite Hin. simpl. split; [lia | done].
  - intros i Hi. apply Hin in Hi. rewrite length_replicate. lia.
  - intros j r Hj. apply lookup_replicate in Hj as [? _]. discriminate.
  - intros r. by destruct (length tasks).
Qed.

Lemma run_parallel_spec env tasks (I : list nat → World → Prop)
    (Q : nat → option string → Prop) w :
  (∀ i order t w r w',
     NoDup (i :: order) → I (i :: order) w → tasks !! i = Some t →
     compress_image env t w = (Return r, w') → I order w' ∧ Q i r) →
  (∀ order lines w, I order w → I order (set_stdout (stdout w ++ lines) w)) →
  Permutation (completion_order env (length tasks)) (seq 0 (length tasks)) →
  I (completion_order env (length tasks)) w →
  ∃ emitted lines w',
    run_parallel env tasks w = (Return emitted, w') ∧
    I [] w' ∧
    stdout w' = stdout w
      ++ ["Using " +:+ pretty (cpu_count env) +:+ " CPU cores for parallel processing..."]
      ++ lines ∧
    lines ≡ₚ concat (zip_with job_lines tasks (map snd emitted)) ∧
    map fst emitted = seq 0 (length tasks) ∧
    Forall (λ ir, printable ir.2 ∧ Q ir.1 ir.2) emitted.
Proof.
  intros Hjob Hprint Hperm HI. unfold run_parallel. rewrite bind_run.
  unfold print at 1.
  destruct (pool_run_spec env tasks I Q Hjob Hprint
              (completion_order env (length tasks)) 0
              (replicate (length tasks) None)
              (set_stdout (stdout w ++ ["Using " +:+ pretty (cpu_count env)
                 +:+ " CPU cores for parallel processing..."]) w))
    as (emitted & lines & w' & Hrun & HI' & Hout & Hlines & Hidx & HQ).
  { by apply slots_ok_initial. }
  { by apply Hprint. }
  rewrite length_replicate in Hidx.
  assert (length emitted = length tasks) as Hlen.
  { by rewrite <- (length_map fst), Hidx, length_seq. }
  exists emitted, lines, w'. rewrite Hrun.
  split; [done |]. split; [done |]. split; [rewrite Hout; simpl; by rewrite <- app_assoc |].
  split; [| done].
  rewrite filled_replicate, app_nil_r in Hlines. rewrite Hlines.
  rewrite (lines_at_zip tasks emitted 0); [done | by rewrite Hlen | lia].
Qed.

(** ** Reasoning about runs: what a computation depends on *)

Section Respects.
Context (R : World → World → Prop).

Lemma respects_pure {A} (m : M A) : pure_call m → respects R m.
Proof. intros [r Hr] w1 w2 HR. by rewrite !Hr. Qed.

Lemma respects_ret {A} (a : A) : respects R (mret a).
Proof. by intros w1 w2 HR. Qed.

Lemma respects_bind {A B} (m : M A) (f : A → M B) :
  respects R m → (∀ a, respects R (f a)) → respects R (m ≫= f).
Proof.
  intros Hm Hf w1 w2 HR. rewrite !bind_run.
  destruct (Hm w1 w2 HR) as [Heq HR'].
  destruct (m w1) as [[a|e] w1'], (m w2) as [[a'|e'] w2']; simpl in *; simplify_eq;
    [by apply Hf | done].
Qed.

Lemma respects_fmap {A B} (g : A → B) (m : M A) : respects R m → respects R (g <$> m).
Proof.
  intros Hm w1 w2 HR. destruct (Hm w1 w2 HR) as [Heq HR'].
  unfold fmap, M_fmap.
  destruct (m w1) as [[a|e] w1'], (m w2) as [[a'|e'] w2']; simpl in *; by simplify_eq.
Qed.

Lemma respects_try {A} (body : M A) (handler : Exn → M A) :
  respects R body → (∀ e, respects R (handler e)) → respects R (try_except body handler).
Proof.
  intros Hm Hh w1 w2 HR. rewrite !try_except_run.
  destruct (Hm w1 w2 HR) as [Heq HR'].
  destruct (body w1) as [[a|e] w1'], (body w2) as [[a'|e'] w2']; simpl in *; simplify_eq;
    [done | by apply Hh].
Qed.

Lemma respects_when (c : bool) (body : M unit) :
  respects R body → respects R (when c body).
Proof. destruct c; simpl; [done | intros _; apply respects_ret]. Qed.

End Respects.

Ltac resp_seq := apply respects_bind; [|].

Lemma respects_compress_image env (R : World → World → Prop) t :
  (∀ s, respects R (print s)) →
  respects R (os.path_exists (t_input_path t)) →
  respects R (get_file_size env (t_input_path t)) →
  respects R (PIL.open env (t_input_path t)) →
  respects R (os.path_exists (os_path.dirname (t_output_path t))) →
  respects R (os.makedirs env (os_path.dirname (t_output_path t))) →
  (∀ img format params, respects R (PIL.save env img (t_output_path t) format params)) →
  respects R (get_file_size env (t_output_path t)) →
  respects R (compress_image env t).
Proof.
  intros Hpr Hex Hsz Hopen Hexd Hmk Hsave Hszo. unfold compress_image.
  resp_seq.
  { destruct (negb _); [apply respects_ret | by apply respects_fmap]. }
  intros [].
  { resp_seq; [apply Hpr | intros; apply respects_ret]. }
  apply respects_try; [| intros; apply respects_ret].
  destruct t as [inp out q uw wm rp md se di]. simpl in *.
  unfold compress_image_try.
  resp_seq; [done | intros osz].
  resp_seq; [done | intros img].
  resp_seq; [apply respects_pure, pure_strip | intros img1].
  resp_seq; [apply respects_pure, pure_resize_stage | intros img2].
  resp_seq; [done | intros present].
  resp_seq; [by apply respects_when | intros []].
  resp_seq.
  - destruct uw; [apply Hsave |].
    resp_seq; [| intros; apply Hsave].
    apply respects_pure.
    destruct (_ || _); [apply pure_quantize |].
    apply pure_bind; [apply pure_convert | intros; apply pure_quantize].
  - intros []. resp_seq; [done | intros; apply respects_ret].
Qed.

(** *** The footprint of a job *)

Lemma stat_node_at w p :
  os.stat w p = if Str.truthy p then PIL.node_at w (os.resolve w p) else None.
Proof.
  unfold os.stat, PIL.node_at. destruct (Str.truthy p); [| done].
  by destruct (os.resolve w p).
Qed.

Lemma same_for_stat w0 t w1 w2 p :
  same_for w0 t w1 w2 →
  os.resolve w0 p ∈ job_keys w0 t →
  os.stat w1 p = os.stat w2 p.
Proof.
  intros (Hc1 & Hc2 & Hk & _) Hin. rewrite !stat_node_at.
  destruct (Str.truthy p); [| done].
  rewrite (resolve_cwd w1 w0), (resolve_cwd w2 w0) by done. by apply Hk.
Qed.

Lemma node_at_insert w k n k' :
  k ≠ [] →
  PIL.node_at (set_fs (<[k := n]> (fs w)) w) k' =
    if decide (k = k') then Some n else PIL.node_at w k'.
Proof.
  intros Hk. destruct k' as [|c k']; simpl.
  - by rewrite decide_False.
  - apply lookup_insert.
Qed.

Lemma same_for_print w0 t s : respects (same_for w0 t) (print s).
Proof. intros w1 w2 (? & ? & ? & ?). done. Qed.

Lemma same_for_read {A} w0 t (m : M A) :
  read_only m →
  (∀ w1 w2, same_for w0 t w1 w2 → fst (m w1) = fst (m w2)) →
  respects (same_for w0 t) m.
Proof. intros Hro Hm w1 w2 HR. rewrite !Hro. auto. Qed.

Lemma same_for_path_exists w0 t p :
  os.resolve w0 p ∈ job_keys w0 t →
  respects (same_for w0 t) (os.path_exists p).
Proof.
  intros Hin. apply same_for_read; [apply read_only_path_exists |].
  intros w1 w2 HR. unfold os.path_exists. simpl.
  by rewrite (same_for_stat w0 t w1 w2 p).
Qed.

Lemma same_for_get_file_size env w0 t p :
  os.resolve w0 p ∈ job_keys w0 t →
  respects (same_for w0 t) (get_file_size env p).
Proof.
  intros Hin. apply same_for_read; [apply read_only_get_file_size |].
  intros w1 w2 HR. unfold get_file_size. rewrite !bind_run. unfold os.path_getsize.
  rewrite (same_for_stat w0 t w1 w2 p) by done.
  destruct (fault env _); [done |].
  destruct (os.stat w2 p) as [[|n o]|]; simpl; try done. by destruct (_ <? _).
Qed.

Lemma same_for_open env w0 t p :
  os.resolve w0 p ∈ job_keys w0 t →
  respects (same_for w0 t) (PIL.open env p).
Proof.
  intros Hin. apply same_for_read; [apply read_only_open |].
  intros w1 w2 HR. unfold PIL.open.
  rewrite (same_for_stat w0 t w1 w2 p) by done.
  destruct (fault env _); [done |].
  by destruct (os.stat w2 p) as [[|n [i|]]|].
Qed.

Lemma same_for_makedirs env w0 t :
  respects (same_for w0 t) (os.makedirs env (os_path.dirname (t_output_path t))).
Proof.
  intros w1 w2 HR.
  assert (os.stat w1 (os_path.dirname (t_output_path t))
          = os.stat w2 (os_path.dirname (t_output_path t))) as Hst.
  { apply (same_for_stat w0 t); [done |]. set_solver. }
  destruct HR as (Hc1 & Hc2 & Hk & Hd).
  unfold os.makedirs. destruct (fault env _); [done |].
  destruct (negb _); [done |].
  rewrite <- Hst. rewrite bool_decide_true by done. done.
Qed.

Lemma same_for_save env w0 t img format params :
  respects (same_for w0 t) (PIL.save env img (t_output_path t) format params).
Proof.
  intros w1 w2 HR. destruct HR as (Hc1 & Hc2 & Hk & Hd).
  assert (Hrefl : same_for w0 t w1 w2) by done.
  unfold PIL.save.
  destruct (match format with Some f => Some f | None => _ end) as [f|]; [| done].
  destruct (negb (bool_decide _)); [done |].
  destruct (negb (Str.truthy _)); [done |].
  rewrite (resolve_cwd w1 w0), (resolve_cwd w2 w0) by done.
  set (k := os.resolve w0 (t_output_path t)).
  rewrite <- (Hk k), <- (Hk (removelast k)) by (unfold job_keys; set_solver).
  assert (∀ n, k ≠ [] →
            same_for w0 t (set_fs (<[k := n]> (fs w1)) w1) (set_fs (<[k := n]> (fs w2)) w2))
    as Hwrite.
  { intros n Hne. split; [done |]. split; [done |]. split.
    - intros k' Hk'. rewrite !node_at_insert by done.
      destruct (decide (k = k')); [done | by apply Hk].
    - rewrite stat_node_at in Hd |- *.
      destruct (Str.truthy _); [| done]. simpl.
      rewrite node_at_insert by done. by destruct (decide _). }
  destruct k as [|c k0] eqn:Hkeq; [done |].
  change (PIL.node_at w1 (c :: k0)) with (fs w1 !! (c :: k0)).
  destruct (fs w1 !! (c :: k0)) as [[|n o]|] eqn:Hn; [done | |];
    destruct (PIL.node_at w1 (removelast (c :: k0))) as [[|n' o']|]; try done;
    destruct (fault env _); simpl; split; try done; by apply Hwrite.
Qed.

Lemma compress_image_local env w0 t w1 w2 :
  same_for w0 t w1 w2 →
  fst (compress_image env t w1) = fst (compress_image env t w2).
Proof.
  intros HR.
  assert (respects (same_for w0 t) (compress_image env t)) as H; [| by apply H].
  apply respects_compress_image.
  - apply same_for_print.
  - apply same_for_path_exists. set_solver.
  - apply same_for_get_file_size. set_solver.
  - apply same_for_open. set_solver.
  - apply same_for_path_exists. set_solver.
  - apply same_for_makedirs.
  - apply same_for_save.
  - apply same_for_get_file_size. set_solver.
Qed.

(** *** What a job may change *)

Lemma writes_only_refl k w : writes_only k w w.
Proof. split; [done |]. intros k'. by left. Qed.

Lemma writes_only_trans k w1 w2 w3 :
  writes_only k w1 w2 → writes_only k w2 w3 → writes_only k w1 w3.
Proof.
  intros [Hc1 H1] [Hc2 H2]. split; [congruence |]. intros k'.
  destruct (H1 k') as [E1 | (E1 & Hd1 & Hf1)], (H2 k') as [E2 | (E2 & Hd2 & Hf2)].
  - left. congruence.
  - right. by rewrite <- E1.
  - right. by rewrite E2.
  - right. done.
Qed.

Lemma writes_only_is_dir k w w' k' :
  writes_only k w w' → os.is_dir (PIL.node_at w' k') = os.is_dir (PIL.node_at w k').
Proof.
  intros [_ H]. destruct (H k') as [-> | (-> & Hd & Hf)]; [done |].
  rewrite Hd. by destruct (PIL.node_at w' k) as [[|]|].
Qed.

Lemma writes_only_is_Some k w w' k' :
  writes_only k w w' → is_Some (PIL.node_at w k') → is_Some (PIL.node_at w' k').
Proof.
  intros [_ H] Hs. destruct (H k') as [-> | (-> & Hd & Hf)]; [done |].
  by destruct (PIL.node_at w' k) as [[|]|].
Qed.

Lemma writes_only_other k w w' k' :
  writes_only k w w' → k' ≠ k → PIL.node_at w' k' = PIL.node_at w k'.
Proof. intros [_ H] Hne. by destruct (H k') as [-> | (-> & _)]. Qed.

Lemma writes_only_stat k w w' p :
  writes_only k w w' → is_Some (os.stat w p) → is_Some (os.stat w' p).
Proof.
  intros Hw. rewrite !stat_node_at. destruct (Str.truthy p); [| done].
  rewrite (resolve_cwd w' w) by apply Hw. by apply (writes_only_is_Some k).
Qed.

Lemma compress_image_frame env t w :
  is_Some (os.stat w (os_path.dirname (t_output_path t))) →
  writes_only (os.resolve w (t_output_path t)) w (snd (compress_image env t w)).
Proof.
  intros Hdir.
  set (k := os.resolve w (t_output_path t)).
  set (I := λ w', cwd w' = cwd w ∧
                  is_Some (os.stat w' (os_path.dirname (t_output_path t)))).
  assert (post I (writes_only k) (compress_image env t)) as H; [| by apply H].
  apply post_compress_image.
  - apply writes_only_refl.
  - apply writes_only_trans.
  - intros s w1 [Hc Hd]. split; [| done]. split; [done |]. intros k'. by left.
  - intros w1 [Hc Hd].
    assert (snd (os.makedirs env (os_path.dirname (t_output_path t)) w1) = w1) as ->.
    { unfold os.makedirs. destruct (fault env _); [done |].
      destruct (negb _); [done |]. by rewrite bool_decide_true. }
    split; [apply writes_only_refl | done].
  - intros img format params w1 [Hc Hd].
    assert (writes_only k w1 (snd (PIL.save env img (t_output_path t) format params w1)))
      as Hw.
    { destruct (save_world env img (t_output_path t) format params w1)
        as [-> | (n & o & -> & Hne & Hnd)]; [apply writes_only_refl |].
      rewrite (resolve_cwd w1 w) in * by done. fold k in Hne, Hnd |- *.
      split; [done |]. intros k'. rewrite node_at_insert by done.
      destruct (decide (k = k')) as [<- | Hne']; [| by left].
      right. split; [done |]. split; [| done].
      destruct k; [done | exact Hnd]. }
    split; [done |]. split; [by rewrite (proj1 Hw) |].
    by apply (writes_only_stat k w1).
Qed.

(** ** Batches of independent jobs *)

Lemma independent_dirs w tasks i t :
  independent w tasks = true → tasks !! i = Some t →
  is_Some (os.stat w (os_path.dirname (t_output_path t))).
Proof.
  intros [H _]%andb_prop Ht.
  rewrite forallb_forall in H. eapply bool_decide_eq_true, H.
  apply list_elem_of_In, list_elem_of_lookup. eauto.
Qed.

Lemma independent_keys w tasks i j ti tj :
  independent w tasks = true → tasks !! i = Some ti → tasks !! j = Some tj → i ≠ j →
  os.resolve w (t_output_path ti) ∉ job_keys w tj.
Proof.
  intros [_ H]%andb_prop Hi Hj Hne.
  rewrite forallb_forall in H. specialize (H (i, ti)).
  rewrite forallb_forall in H.
  assert (∀ k (t : Task), tasks !! k = Some t → In (k, t) (imap pair tasks)) as Hin.
  { intros k t Hk. apply list_elem_of_In, list_elem_of_lookup. exists k.
    by rewrite list_lookup_imap, Hk. }
  specialize (H (Hin i ti Hi) (j, tj) (Hin j tj Hj)). simpl in H.
  rewrite bool_decide_false in H by done. simpl in H.
  by apply negb_true_iff, bool_decide_eq_false in H.
Qed.

Section Batch.
Context (env : Env) (tasks : list Task) (w0 : World).
Hypothesis Hind : independent w0 tasks = true.

Lemma untouched_same_for order w i t :
  untouched tasks w0 order w → i ∈ order → tasks !! i = Some t → same_for w0 t w w0.
Proof.
  intros [Hc Hk] Hi Ht. split; [done |]. split; [done |]. split; [by eauto |].
  destruct (independent_dirs w0 tasks i t Hind Ht) as [n Hn].
  rewrite stat_node_at in Hn |- *. destruct (Str.truthy _); [| discriminate].
  rewrite (resolve_cwd w w0) by done.
  rewrite (Hk i t) by (done || unfold job_keys; set_solver). by rewrite Hn.
Qed.

Lemma untouched_job i order t w r w' :
  NoDup (i :: order) → untouched tasks w0 (i :: order) w → tasks !! i = Some t →
  compress_image env t w = (Return r, w') →
  untouched tasks w0 order w' ∧ as_alone env tasks w0 i r.
Proof.
  intros Hnd Hun Ht Hrun.
  assert (same_for w0 t w w0) as Hsame
    by (apply (untouched_same_for (i :: order) w i t); [done | left | done]).
  split.
  - pose proof (compress_image_frame env t w (proj2 (proj2 (proj2 Hsame)))) as Hfr.
    rewrite Hrun in Hfr. simpl in Hfr.
    destruct Hun as [Hc Hk]. split; [by rewrite (proj1 Hfr) |].
    intros j tj k Hj Htj Hin.
    rewrite (writes_only_other _ _ _ k Hfr); [apply (Hk j tj); [by right | done | done] |].
    intros ->. rewrite (resolve_cwd w w0) in Hin by done.
    apply (independent_keys w0 tasks i j t tj Hind Ht Htj); [| done].
    intros ->. by inversion Hnd.
  - intros t' Ht'. rewrite Ht in Ht'. injection Ht' as <-.
    rewrite <- (compress_image_local env w0 t w w0 Hsame), Hrun. done.
Qed.

Lemma untouched_print order lines w :
  untouched tasks w0 order w → untouched tasks w0 order (set_stdout (stdout w ++ lines) w).
Proof. by intros [? ?]. Qed.

Lemma untouched_start order : untouched tasks w0 order w0.
Proof. by split. Qed.

Lemma independent_runs_agree :
  Permutation (completion_order env (length tasks)) (seq 0 (length tasks)) →
  ∃ emitted w1 results w2,
    run_parallel env tasks w0 = (Return emitted, w1) ∧
    run_sequential env tasks w0 = (Return results, w2) ∧
    map snd emitted = results.
Proof.
  intros Hperm.
  destruct (run_parallel_spec env tasks (untouched tasks w0) (as_alone env tasks w0) w0
              untouched_job untouched_print Hperm (untouched_start _))
    as (emitted & lines & w1 & Hpar & _ & _ & _ & Hidx & HQ).
  destruct (run_sequential_spec env tasks (untouched tasks w0) (as_alone env tasks w0)
              untouched_job untouched_print tasks 0 w0 eq_refl (untouched_start _))
    as (results & w2 & Hseq & _ & _ & Hlen & _ & HQ').
  exists emitted, w1, results, w2. split; [done |]. split; [done |].
  assert (length emitted = length tasks) as Hlen1.
  { rewrite <- (length_map fst emitted), Hidx. apply length_seq. }
  apply list_eq. intros j. rewrite list_lookup_fmap.
  destruct (decide (j < length tasks)%nat) as [Hj | Hj].
  - destruct (lookup_lt_is_Some_2 emitted j) as [[i r] Hjr]; [lia |].
    destruct (lookup_lt_is_Some_2 results j) as [r' Hjr']; [lia |].
    destruct (lookup_lt_is_Some_2 tasks j) as [t Ht]; [lia |].
    rewrite Hjr, Hjr'. simpl. f_equal.
    assert (i = j) as ->.
    { apply (f_equal (λ l, l !! j)) in Hidx.
      rewrite list_lookup_fmap, Hjr, lookup_seq_lt in Hidx by done.
      by injection Hidx. }
    rewrite Forall_forall in HQ.
    assert (as_alone env tasks w0 j r) as Hr.
    { apply (HQ (j, r)). apply list_elem_of_lookup. eauto. }
    assert (as_alone env tasks w0 j r') as Hr' by (apply (HQ' j r' Hjr')).
    specialize (Hr t Ht). specialize (Hr' t Ht). congruence.
  - rewrite !lookup_ge_None_2 by lia. done.
Qed.

End Batch.

(** ** Strings and paths *)

Lemma append_cons x a b : String x a +:+ b = String x (a +:+ b).
Proof. reflexivity. Qed.

Lemma append_nil_l b : "" +:+ b = b.
Proof. reflexivity. Qed.

Ltac str_simpl := rewrite ?append_cons, ?append_nil_l; simpl.

Lemma append_nil_r s : s +:+ "" = s.
Proof. induction s; str_simpl; congruence. Qed.

Lemma append_assoc (a b c : string) : (a +:+ b) +:+ c = a +:+ b +:+ c.
Proof. induction a; str_simpl; congruence. Qed.

Lemma contains_app c a b :
  Str.contains c (a +:+ b) = Str.contains c a || Str.contains c b.
Proof. induction a as [|x a IH]; str_simpl; [done |]. rewrite IH. by destruct (bool_decide _). Qed.

Lemma endswith_inv s suf : Str.endswith s suf = true → ∃ pre, s = pre +:+ suf.
Proof.
  induction s as [|x s IH]; simpl.
  - rewrite orb_false_r. intros ->%bool_decide_eq_true. by exists "".
  - intros [->%bool_decide_eq_true | H]%orb_prop; [by exists "" |].
    destruct (IH H) as [pre ->]. by exists (String x pre).
Qed.

Lemma startswith_sep_no_sep f :
  Str.contains os_path.sep f = false → Str.startswith f "/" = false.
Proof.
  destruct f as [|x f]; simpl; [done |].
  intros [H _]%orb_false_elim. apply bool_decide_eq_false in H.
  rewrite bool_decide_false; [done |]. intros <-. by apply H.
Qed.

Lemma rcut_no_sep c s : Str.contains c s = false → Str.rcut c s = None.
Proof.
  induction s as [|x s IH]; simpl; [done |].
  intros [H1 H2]%orb_false_elim. by rewrite (IH H2), H1.
Qed.

Lemma rcut_app c a f :
  Str.contains c f = false →
  Str.rcut c (a +:+ String c f) = Some (a +:+ String c "", f).
Proof.
  intros Hf. induction a as [|x a IH]; str_simpl.
  - by rewrite (rcut_no_sep c f Hf), bool_decide_true.
  - by rewrite IH.
Qed.

Lemma rcut_split c s h t : Str.rcut c s = Some (h, t) → s = h +:+ t.
Proof.
  revert h t. induction s as [|x s IH]; intros h t; simpl; [done |].
  destruct (Str.rcut c s) as [[h' t']|].
  - intros [= <- <-]. str_simpl. by rewrite (IH h' t').
  - case_bool_decide; [| done]. by intros [= <- <-].
Qed.

Lemma rstrip_app_sep c s : Str.rstrip c (s +:+ String c "") = Str.rstrip c s.
Proof.
  induction s as [|x s IH]; str_simpl; [by rewrite bool_decide_true |]. by rewrite IH.
Qed.

Lemma rstrip_all_char c s : Str.all_char c s = true → Str.rstrip c s = "".
Proof.
  induction s as [|x s IH]; simpl; [done |].
  intros [H1 H2]%andb_prop. by rewrite (IH H2), H1.
Qed.

Lemma all_char_app c a b :
  Str.all_char c (a +:+ b) = Str.all_char c a && Str.all_char c b.
Proof. induction a as [|x a IH]; str_simpl; [done |]. rewrite IH. by destruct (bool_decide _). Qed.

Lemma split_nonempty c s : Str.split c s ≠ [].
Proof.
  destruct s as [|x s]; simpl; [done |].
  case_bool_decide; [done |]. by destruct (Str.split c s).
Qed.

Lemma split_app c a b :
  Str.split c (a +:+ String c b) = Str.split c a ++ Str.split c b.
Proof.
  induction a as [|x a IH]; str_simpl.
  - by rewrite bool_decide_true.
  - case_bool_decide; [by rewrite IH |].
    rewrite IH. destruct (Str.split c a) as [|h t] eqn:Hs; [| done].
    by destruct (split_nonempty c a).
Qed.

Lemma resolve_app_sep w p :
  p ≠ "" → os.resolve w (p +:+ "/") = os.resolve w p.
Proof.
  intros Hp. unfold os.resolve.
  assert (Str.startswith (p +:+ "/") "/" = Str.startswith p "/") as ->.
  { destruct p; [done |]. by rewrite append_cons. }
  change (p +:+ "/") with (p +:+ String os_path.sep "").
  rewrite split_app, fold_left_app. simpl. unfold os.walk at 1.
  by rewrite bool_decide_true.
Qed.

(** A string with a character other than [c] is its stripped form
    followed by a run of [c]. *)
Lemma rstrip_decompose c s :
  Str.all_char c s = false →
  ∃ tail, s = Str.rstrip c s +:+ tail ∧ Str.all_char c tail = true ∧ Str.rstrip c s ≠ "".
Proof.
  induction s as [|x s IH]; simpl; [done |].
  destruct (Str.all_char c s) eqn:Hall.
  - rewrite andb_true_r. intros Hx. rewrite (rstrip_all_char c s Hall), Hx.
    exists s. done.
  - intros _. destruct (IH eq_refl) as (tail & Hs & Htail & Hne).
    destruct (Str.rstrip c s) as [|y r] eqn:Hr; [done |].
    exists tail. simpl. split; [by rewrite Hs at 1 | done].
Qed.

Lemma resolve_app_seps w p tail :
  p ≠ "" → Str.all_char os_path.sep tail = true →
  os.resolve w (p +:+ tail) = os.resolve w p.
Proof.
  revert p. induction tail as [|x tail IH]; intros p Hp; simpl.
  - by rewrite append_nil_r.
  - intros [->%bool_decide_eq_true Htail]%andb_prop.
    replace (p +:+ String os_path.sep tail) with ((p +:+ "/") +:+ tail)
      by (by rewrite append_assoc).
    rewrite IH; [by apply resolve_app_sep | by destruct p | done].
Qed.

Lemma resolve_rstrip w p :
  Str.all_char os_path.sep p = false →
  os.resolve w (Str.rstrip os_path.sep p) = os.resolve w p.
Proof.
  intros Hp. destruct (rstrip_decompose _ _ Hp) as (tail & Hs & Htail & Hne).
  rewrite Hs at 2. by rewrite resolve_app_seps.
Qed.

Lemma truthy_true s : Str.truthy s = true ↔ s ≠ "".
Proof.
  unfold Str.truthy. rewrite negb_true_iff, bool_decide_eq_false. done.
Qed.

(** The directory part of [join d f] names the same entry as [d]. *)
Lemma dirname_join w d f :
  Str.truthy d = true →
  Str.contains os_path.sep f = false →
  Str.truthy (os_path.dirname (os_path.join d f)) = true ∧
  os.resolve w (os_path.dirname (os_path.join d f)) = os.resolve w d.
Proof.
  intros Hd Hf. unfold os_path.join.
  rewrite (startswith_sep_no_sep f Hf), Hd. simpl.
  assert (d ≠ "") as Hne by (by apply truthy_true).
  destruct (Str.endswith d "/") eqn:Hend.
  - destruct (endswith_inv _ _ Hend) as [pre ->].
    unfold os_path.dirname, os_path.cut_sep.
    rewrite append_assoc, append_cons, append_nil_l.
    change (String "/" f) with (String os_path.sep f).
    rewrite (rcut_app os_path.sep pre f Hf). simpl.
    change (pre +:+ String os_path.sep "") with (pre +:+ "/").
    rewrite Hd. simpl.
    destruct (Str.all_char os_path.sep (pre +:+ "/")) eqn:Hall; simpl.
    + done.
    + split; [| by apply resolve_rstrip].
      destruct (rstrip_decompose _ _ Hall) as (_ & _ & _ & ?). by apply truthy_true.
  - unfold os_path.dirname, os_path.cut_sep.
    rewrite append_cons, append_nil_l.
    change (String "/" f) with (String os_path.sep f).
    rewrite (rcut_app os_path.sep d f Hf). simpl.
    change (d +:+ String os_path.sep "") with (d +:+ "/").
    assert (Str.all_char os_path.sep (d +:+ "/") = false) as Hall.
    { rewrite all_char_app. simpl. rewrite andb_true_r.
      destruct (Str.all_char os_path.sep d) eqn:Hall; [| done].
      exfalso. clear -Hall Hend Hne. induction d as [|x d IH]; [done |].
      simpl in *. apply andb_prop in Hall as [->%bool_decide_eq_true Hall].
      destruct d as [|y d]; [done |].
      apply orb_false_elim in Hend as [_ Hend]. by apply IH. }
    assert (Str.truthy (d +:+ "/") = true) as -> by (apply truthy_true; by destruct d).
    rewrite Hall. simpl.
    change (d +:+ "/") with (d +:+ String os_path.sep "").
    rewrite rstrip_app_sep.
    split.
    + apply truthy_true.
      assert (Str.all_char os_path.sep d = false) as Hd'.
      { rewrite all_char_app in Hall. simpl in Hall. by rewrite andb_true_r in Hall. }
      by destruct (rstrip_decompose _ _ Hd') as (_ & _ & _ & ?).
    + apply resolve_rstrip.
      rewrite all_char_app in Hall. simpl in Hall. by rewrite andb_true_r in Hall.
Qed.

(** ** Well-formed worlds and directories *)

Lemma wf_world_keys_ok w : wf_world w = true → keys_ok w.
Proof.
  intros [H1 H2]%andb_prop. split.
  - apply Forall_forall. intros c Hc. rewrite forallb_forall in H1.
    by apply H1, list_elem_of_In.
  - intros k n Hk. apply Forall_forall. intros c Hc.
    rewrite forallb_forall in H2.
    specialize (H2 (k, n)). rewrite forallb_forall in H2.
    apply H2; [| by apply list_elem_of_In].
    by apply list_elem_of_In, elem_of_map_to_list.
Qed.

Lemma init_no_sep s : no_sep s = true → no_sep (Str.init s) = true.
Proof.
  unfold no_sep. rewrite !negb_true_iff.
  induction s as [|x s IH]; [done |]. simpl.
  intros [H1 H2]%orb_false_elim. destruct s as [|y s]; [done |].
  simpl in *. rewrite H1. simpl. by apply IH.
Qed.

Lemma splitext_no_sep name :
  no_sep name = true → no_sep (fst (os_path.splitext name)) = true.
Proof.
  intros Hn. unfold os_path.splitext, os_path.cut_sep.
  assert (Str.contains os_path.sep name = false) as Hc
    by (by apply negb_true_iff).
  rewrite (rcut_no_sep _ _ Hc).
  destruct (Str.rcut os_path.extsep name) as [[root_dot ext]|] eqn:Hcut; [| done].
  destruct (Str.all_char _ _); [done |]. simpl. rewrite append_nil_l.
  apply init_no_sep. apply rcut_split in Hcut. subst name.
  unfold no_sep in *. rewrite contains_app in Hn.
  apply negb_true_iff, orb_false_elim in Hn as [-> _]. done.
Qed.

Lemma split_no_sep s : Forall (λ c, no_sep c = true) (Str.split os_path.sep s).
Proof.
  induction s as [|x s IH]; simpl; [by repeat constructor |].
  case_bool_decide as Hx; [by constructor |].
  destruct (Str.split os_path.sep s) as [|h t]; [| inversion IH as [|? ? Hh Ht]; subst].
  - repeat constructor. unfold no_sep. simpl. rewrite bool_decide_false by done. done.
  - constructor; [| done]. unfold no_sep in *. simpl.
    rewrite bool_decide_false by done. done.
Qed.

Lemma removelast_Forall {A} (P : A → Prop) l : Forall P l → Forall P (removelast l).
Proof.
  induction 1 as [|x l Hx Hl IH]; simpl; [constructor |].
  destruct l; [constructor | by constructor].
Qed.

Lemma resolve_no_sep w p :
  Forall (λ c, no_sep c = true) (cwd w) →
  Forall (λ c, no_sep c = true) (os.resolve w p).
Proof.
  intros Hc. unfold os.resolve.
  assert (Forall (λ c, no_sep c = true)
            (if Str.startswith p "/" then [] else cwd w)) as Hbase
    by (destruct (Str.startswith p "/"); [constructor | done]).
  revert Hbase. generalize (if Str.startswith p "/" then [] else cwd w).
  induction (split_no_sep p) as [|c l Hcs Hl IH]; intros acc Hacc; simpl; [done |].
  apply IH. unfold os.walk.
  destruct (_ || _); [done |].
  case_bool_decide; [by apply removelast_Forall |].
  apply Forall_app. by repeat constructor.
Qed.

Lemma prefixes_Forall (P : string → Prop) k a :
  Forall P k → a ∈ os.prefixes k → Forall P a.
Proof.
  intros Hk. revert a. induction Hk as [|c k Hc Hk IH]; intros a; simpl.
  - by intros ?%elem_of_nil.
  - intros [-> | Hin]%elem_of_cons; [by repeat constructor |].
    apply list_elem_of_fmap in Hin as (a' & -> & Ha'). constructor; auto.
Qed.

Lemma prefixes_self k : k ≠ [] → k ∈ os.prefixes k.
Proof.
  induction k as [|c k IH]; [done |]. intros _. simpl.
  destruct k as [|c' k]; [left |]. right.
  apply list_elem_of_fmap. exists (c' :: k). split; [done | by apply IH].
Qed.

Lemma mkdirs_lookup l : ∀ f k,
  foldl os.mkdir_missing f l !! k =
    match f !! k with
    | Some n => Some n
    | None => if bool_decide (k ∈ l) then Some Dir else None
    end.
Proof.
  induction l as [|a l IH]; intros f k; simpl.
  - by destruct (f !! k).
  - rewrite IH. unfold os.mkdir_missing.
    destruct (f !! a) as [n|] eqn:Ha.
    + destruct (f !! k) as [n'|] eqn:Hk; [done |].
      assert (k ≠ a) by congruence.
      destruct (decide (k ∈ l)).
      * by rewrite !bool_decide_true by (rewrite ?elem_of_cons; auto).
      * by rewrite !bool_decide_false by (rewrite ?elem_of_cons; intuition congruence).
    + destruct (decide (a = k)) as [-> | Hne].
      * rewrite lookup_insert_eq, Ha. by rewrite bool_decide_true by (rewrite elem_of_cons; auto).
      * rewrite lookup_insert_ne by done. destruct (f !! k); [done |].
        destruct (decide (k ∈ l)).
        -- by rewrite !bool_decide_true by (rewrite ?elem_of_cons; auto).
        -- by rewrite !bool_decide_false by (rewrite ?elem_of_cons; intuition congruence).
Qed.

Lemma makedirs_inv env p w w' :
  os.makedirs env p w = (Return tt, w') →
  Str.truthy p = true ∧ cwd w' = cwd w ∧
  os.stat w' p = Some Dir ∧
  (∀ k, fs w' !! k = match fs w !! k with
                     | Some n => Some n
                     | None => if bool_decide (k ∈ os.prefixes (os.resolve w p))
                               then Some Dir else None
                     end).
Proof.
  unfold os.makedirs. destruct (fault env _); [discriminate |].
  destruct (Str.truthy p) eqn:Hp; [| discriminate]. simpl.
  case_bool_decide as Hex; [discriminate |].
  destruct (existsb _ _); [discriminate |]. intros [= <-].
  split; [done |]. split; [done |]. split; [| intros k; apply mkdirs_lookup].
  rewrite stat_node_at, Hp in Hex. rewrite stat_node_at, Hp.
  rewrite (resolve_cwd (set_fs _ w) w) by done.
  destruct (os.resolve w p) as [|c k] eqn:Hk; [done |].
  unfold PIL.node_at in *. cbn [fs set_fs]. rewrite <- Hk in Hex |- *.
  rewrite mkdirs_lookup.
  destruct (fs w !! os.resolve w p) as [n|]; [destruct Hex; by eexists |].
  rewrite bool_decide_true; [done |]. apply prefixes_self. by rewrite Hk.
Qed.

Lemma makedirs_keys_ok env p w w' :
  keys_ok w → os.makedirs env p w = (Return tt, w') → keys_ok w'.
Proof.
  intros [Hc Hk] (_ & Hcwd & _ & Hfs)%makedirs_inv. split; [by rewrite Hcwd |].
  intros k n. rewrite Hfs. destruct (fs w !! k) as [n'|] eqn:Hn.
  - intros _. by eapply Hk.
  - case_bool_decide as Hin; [| done]. intros _.
    eapply prefixes_Forall; [| done]. by apply resolve_no_sep.
Qed.

Lemma child_name_inv d k name : os.child_name d k = Some name → k = d ++ [name].
Proof.
  revert k. induction d as [|a d IH]; intros [|b k]; simpl; try done.
  - destruct k; [by intros [= ->] | done].
  - case_bool_decide; [| done]. intros ?%IH. by subst.
Qed.

Lemma listdir_names env p w names w' :
  keys_ok w → os.listdir env p w = (Return names, w') →
  w' = w ∧ Forall (λ c, no_sep c = true) names.
Proof.
  intros [_ Hk]. unfold os.listdir. destruct (fault env _); [discriminate |].
  destruct (os.stat w p) as [[|n o]|]; try discriminate. intros [= <- <-].
  split; [done |]. apply Forall_forall. intros name Hin.
  apply list_elem_of_omap in Hin as ([k n] & Hkn & Hname).
  apply elem_of_map_to_list in Hkn. apply child_name_inv in Hname. simpl in *.
  specialize (Hk k n Hkn). rewrite Forall_forall in Hk. apply Hk.
  rewrite Hname. set_solver.
Qed.

(** *** The batch [main] prepares for a directory *)

Lemma prepare_tasks_directory env args inp out w tasks w1 :
  os.is_dir (os.stat w inp) = true →
  prepare_tasks env args inp out w = (Return tasks, w1) →
  ((is_Some (os.stat w out) ∧ w1 = w) ∨
   (os.stat w out = None ∧ os.makedirs env out w = (Return tt, w1))) ∧
  ∃ names,
    os.listdir env inp w1 = (Return names, w1) ∧
    tasks = (λ filename,
               task_for args (os_path.join inp filename)
                 (os_path.join out
                    (fst (os_path.splitext filename)
                     +:+ (if negb (args_no_webp args) then ".webp" else ".png"))))
            <$> filter (λ filename,
                          Is_true (Str.endswith_any (Str.lower filename) IMAGE_SUFFIXES))
                       names.
Proof.
  intros Hd Hrun. unfold prepare_tasks in Hrun. rewrite bind_run in Hrun.
  unfold os.path_isdir in Hrun. rewrite Hd in Hrun.
  apply bind_Return_inv in Hrun as (present & w2 & Hex & Hrun).
  assert (w2 = w ∧ present = bool_decide (is_Some (os.stat w out))) as [-> ->]
    by (by injection Hex as <- <-).
  apply bind_Return_inv in Hrun as ([] & w2 & Hmk & Hrun).
  apply bind_Return_inv in Hrun as (names & w3 & Hls & Hrun).
  injection Hrun as <- <-.
  assert (w3 = w2) as ->.
  { pose proof (read_only_listdir env inp w2) as H. by rewrite Hls in H. }
  split; [| by eauto].
  case_bool_decide as Hp; simpl in Hmk.
  - left. by injection Hmk as <-.
  - right. split; [| done]. destruct (os.stat w out) eqn:E; [| done].
    destruct Hp. by eexists.
Qed.

Lemma prepared_output_exists env args inp out w tasks w1 :
  os.is_dir (os.stat w inp) = true →
  prepare_tasks env args inp out w = (Return tasks, w1) →
  Str.truthy out = true ∧ cwd w1 = cwd w ∧ is_Some (os.stat w1 out) ∧
  (os.stat w out = None → os.stat w1 out = Some Dir) ∧
  (is_Some (os.stat w out) → w1 = w).
Proof.
  intros Hd Hrun.
  destruct (prepare_tasks_directory env args inp out w tasks w1 Hd Hrun)
    as [[[Hs ->] | [Hn Hmk]] _].
  - split; [| split; [done | split; [done | split; [| done]]]].
    + destruct Hs as [n Hn]. unfold os.stat in Hn. by destruct (Str.truthy out).
    + intros Hn. rewrite Hn in Hs. by destruct Hs.
  - apply makedirs_inv in Hmk as (Ht & Hc & Hdir & _).
    split; [done | split; [done | split; [by rewrite Hdir | split; [done |]]]].
    intros [n Hn']. congruence.
Qed.

Lemma prepared_dirs_exist env args inp out w tasks w1 :
  keys_ok w →
  os.is_dir (os.stat w inp) = true →
  prepare_tasks env args inp out w = (Return tasks, w1) →
  ∀ t, t ∈ tasks → is_Some (os.stat w1 (os_path.dirname (t_output_path t))).
Proof.
  intros Hok Hd Hrun.
  destruct (prepared_output_exists env args inp out w tasks w1 Hd Hrun)
    as (Ht & Hc & Hs & _).
  destruct (prepare_tasks_directory env args inp out w tasks w1 Hd Hrun)
    as [Hcase (names & Hls & ->)].
  assert (keys_ok w1) as Hok1.
  { destruct Hcase as [[_ ->] | [_ Hmk]]; [done | by eapply makedirs_keys_ok]. }
  apply (listdir_names env inp w1 names w1 Hok1) in Hls as [_ Hnames].
  intros t (name & -> & Hin)%list_elem_of_fmap. simpl.
  apply list_elem_of_filter in Hin as [_ Hin].
  rewrite Forall_forall in Hnames. specialize (Hnames name Hin).
  set (f := _ +:+ _).
  assert (Str.contains os_path.sep f = false) as Hf.
  { subst f. rewrite contains_app.
    apply splitext_no_sep in Hnames. apply negb_true_iff in Hnames. rewrite Hnames.
    by destruct (negb _). }
  destruct (dirname_join w1 out f Ht Hf) as [Htr Hres].
  rewrite stat_node_at, Htr, Hres. rewrite stat_node_at, Ht in Hs. done.
Qed.

(** *** No job of the batch makes a directory *)

Lemma dirs_kept_job env tasks w1 i order t w r w' :
  NoDup (i :: order) → dirs_kept tasks w1 (i :: order) w → tasks !! i = Some t →
  compress_image env t w = (Return r, w') →
  dirs_kept tasks w1 order w' ∧ True.
Proof.
  intros _ (Hc & Hex & Hdirs) Ht Hrun. split; [| done].
  assert (t ∈ tasks) as Hin by (apply list_elem_of_lookup; eauto).
  pose proof (compress_image_frame env t w (Hex t Hin)) as Hfr.
  rewrite Hrun in Hfr. simpl in Hfr.
  split; [by rewrite (proj1 Hfr) |]. split.
  - intros t' Hin'. eapply writes_only_stat; eauto.
  - intros k. rewrite <- Hdirs. by eapply writes_only_is_dir.
Qed.

Lemma dirs_kept_print tasks w1 order lines w :
  dirs_kept tasks w1 order w →
  dirs_kept tasks w1 order (set_stdout (stdout w ++ lines) w).
Proof. by intros (? & ? & ?). Qed.

Lemma execute_keeps_dirs env args tasks w1 :
  (∀ t, t ∈ tasks → is_Some (os.stat w1 (os_path.dirname (t_output_path t)))) →
  Permutation (completion_order env (length tasks)) (seq 0 (length tasks)) →
  ∀ k, os.is_dir (PIL.node_at (world_after (execute env args tasks) w1) k)
       = os.is_dir (PIL.node_at w1 k).
Proof.
  intros Hex Hperm k. unfold world_after, execute.
  rewrite bind_run. unfold print at 1. rewrite bind_run.
  set (w2 := set_stdout _ w1).
  assert (∀ order, dirs_kept tasks w1 order w2) as Hstart by (by intros; split).
  destruct ((1 <? length tasks)%nat && negb (args_no_parallel args)).
  - destruct (run_parallel_spec env tasks (dirs_kept tasks w1) (λ _ _, True) w2
                (dirs_kept_job env tasks w1) (dirs_kept_print tasks w1) Hperm (Hstart _))
      as (emitted & lines & w' & Hrun & (_ & _ & Hd) & _).
    rewrite bind_run, Hrun. simpl. apply Hd.
  - destruct (run_sequential_spec env tasks (dirs_kept tasks w1) (λ _ _, True)
                (dirs_kept_job env tasks w1) (dirs_kept_print tasks w1)
                tasks 0 w2 eq_refl (Hstart _))
      as (results & w' & Hrun & (_ & _ & Hd) & _).
    rewrite bind_run, Hrun. simpl. apply Hd.
Qed.

(** ** The lines of a batch *)

Lemma interleaved_nil_l {A} (l : list A) : interleaved [] l l.
Proof. induction l; by constructor. Qed.

Lemma interleaved_nil_r {A} (l : list A) : interleaved l [] l.
Proof. induction l; by constructor. Qed.

Lemma interleaved_app_l {A} (a l1 l2 l : list A) :
  interleaved l1 l2 l → interleaved (a ++ l1) l2 (a ++ l).
Proof. intros H. induction a; [done | by constructor]. Qed.

Lemma interleaved_app_r {A} (a l1 l2 l : list A) :
  interleaved l1 l2 l → interleaved l1 (a ++ l2) (a ++ l).
Proof. intros H. induction a; [done | by constructor]. Qed.

Lemma interleaved_perm {A} (l1 l2 l : list A) : interleaved l1 l2 l → l ≡ₚ l1 ++ l2.
Proof.
  induction 1 as [|a l1 l2 l _ IH|a l1 l2 l _ IH]; [done | by constructor |].
  rewrite IH. apply Permutation_middle.
Qed.

Lemma same_files_refl w : same_files w w.
Proof. done. Qed.

Lemma same_files_stdout o w v : same_files w v → same_files (set_stdout o w) v.
Proof. by intros [? ?]. Qed.

Lemma same_files_stat w v p : same_files w v → os.stat w p = os.stat v p.
Proof. intros [Hf Hc]. unfold os.stat, os.resolve. by rewrite Hf, Hc. Qed.

Lemma same_files_read {A} (m : M A) :
  read_only m →
  (∀ w v, same_files w v → fst (m w) = fst (m v)) →
  respects same_files m.
Proof. intros Hro Hm w v HR. rewrite !Hro. auto. Qed.

Lemma same_files_path_exists p : respects same_files (os.path_exists p).
Proof.
  apply same_files_read; [apply read_only_path_exists |].
  intros w v HR. unfold os.path_exists. simpl. by rewrite (same_files_stat w v).
Qed.

Lemma same_files_get_file_size env p : respects same_files (get_file_size env p).
Proof.
  apply same_files_read; [apply read_only_get_file_size |].
  intros w v HR. unfold get_file_size. rewrite !bind_run. unfold os.path_getsize.
  rewrite (same_files_stat w v) by done.
  destruct (fault env _); [done |].
  destruct (os.stat v p) as [[|n o]|]; simpl; try done. by destruct (n <? _).
Qed.

Lemma same_files_open env p : respects same_files (PIL.open env p).
Proof.
  apply same_files_read; [apply read_only_open |].
  intros w v HR. unfold PIL.open. rewrite (same_files_stat w v) by done.
  destruct (fault env _); [done |].
  by destruct (os.stat v p) as [[|n [i|]]|].
Qed.

Lemma same_files_makedirs env p : respects same_files (os.makedirs env p).
Proof.
  intros w v HR. pose proof (same_files_stat w v p HR) as Hst.
  destruct HR as [Hf Hc]. unfold os.makedirs, os.resolve. rewrite Hst, Hf, Hc.
  destruct (fault env _); [done |].
  destruct (negb _); [done |].
  destruct (bool_decide _); [done |].
  destruct (existsb _ _); [done |]. done.
Qed.

Lemma same_files_save env img p format params :
  respects same_files (PIL.save env img p format params).
Proof.
  intros w v [Hf Hc].
  assert (∀ k, PIL.node_at w k = PIL.node_at v k) as Hn.
  { intros k. unfold PIL.node_at. by rewrite Hf. }
  unfold PIL.save, os.resolve. rewrite Hc, !Hn, Hf.
  destruct (match format with Some f => Some f | None => _ end) as [f|]; [| done].
  destruct (negb (bool_decide _)); [done |].
  destruct (negb (Str.truthy p)); [done |].
  set (k := fold_left _ _ _).
  destruct (PIL.node_at v k) as [[|n o]|], (PIL.node_at v (removelast k)) as [[|n' o']|];
    try done; destruct (fault env _); done.
Qed.

Lemma same_files_compress_image env t : respects same_files (compress_image env t).
Proof.
  apply respects_compress_image.
  - by intros s w v [? ?].
  - apply same_files_path_exists.
  - apply same_files_get_file_size.
  - apply same_files_open.
  - apply same_files_path_exists.
  - apply same_files_makedirs.
  - intros. apply same_files_save.
  - apply same_files_get_file_size.
Qed.

(** A job run from two worlds with the same files: the same result, the
    same files afterwards, and on each console the job's own line. *)
Lemma compress_image_both env t w v :
  same_files w v →
  ∃ r w' v',
    compress_image env t w = (Return r, w') ∧
    compress_image env t v = (Return r, v') ∧
    same_files w' v' ∧
    stdout w' = stdout w ++ worker_lines t r ∧
    stdout v' = stdout v ++ worker_lines t r ∧
    printable r.
Proof.
  intros HR.
  destruct (compress_image_output env t w) as (r & w' & Hw & Hout & Hr).
  destruct (compress_image_output env t v) as (r' & v' & Hv & Hout' & _).
  destruct (same_files_compress_image env t w v HR) as [Heq HR'].
  rewrite Hw, Hv in Heq, HR'. simpl in *. injection Heq as <-.
  by exists r, w', v'.
Qed.

Lemma job_line_lines tasks i t r :
  tasks !! i = Some t → printable r →
  worker_lines_at tasks (i, r) ++ orchestrator_lines r = [job_line tasks (i, r)].
Proof.
  intros Ht _. unfold worker_lines_at, job_line. simpl. rewrite Ht. by destruct r.
Qed.

Lemma run_sequential_trace env tasks rest : ∀ k w v,
  drop k tasks = rest →
  same_files w v →
  ∃ completed v' results w',
    run_jobs env tasks (seq k (length rest)) v = (Return completed, v') ∧
    run_sequential env rest w = (Return results, w') ∧
    same_files w' v' ∧
    map fst completed = seq k (length rest) ∧
    map snd completed = results ∧
    stdout w' = stdout w ++ map (job_line tasks) completed.
Proof.
  induction rest as [|t rest IH]; intros k w v Hdrop HR.
  - exists [], v, [], w. simpl. by rewrite app_nil_r.
  - assert (tasks !! k = Some t) as Hk.
    { rewrite <- (Nat.add_0_r k), <- lookup_drop, Hdrop. done. }
    destruct (compress_image_both env t w v HR)
      as (r & w1 & v1 & Hw & Hv & HR1 & Hout & _ & Hr).
    destruct (IH (S k) (set_stdout (stdout w1 ++ orchestrator_lines r) w1) v1)
      as (completed & v' & results & w' & Hjobs & Hseq & HR' & Hidx & Hres & Hout').
    { replace (S k) with (k + 1)%nat by lia. by rewrite <- drop_drop, Hdrop. }
    { by apply same_files_stdout. }
    exists ((k, r) :: completed), v', (r :: results), w'.
    split.
    { simpl run_jobs. rewrite Hk, bind_run, Hv, bind_run, Hjobs. done. }
    split.
    { simpl run_sequential. rewrite bind_run, Hw.
      rewrite bind_run, when_truthy_print by done. rewrite bind_run, Hseq. done. }
    split; [done |].
    split; [simpl; by rewrite Hidx |]. split; [simpl; by rewrite Hres |].
    rewrite Hout'. simpl. rewrite Hout, <- !app_assoc. f_equal.
    pose proof (job_line_lines tasks k t r Hk Hr) as Hl.
    unfold worker_lines_at in Hl. simpl in Hl. rewrite Hk in Hl.
    by rewrite app_assoc, Hl.
Qed.

Lemma pool_run_trace env tasks order : ∀ next pending w v,
  slots_ok tasks (λ _ _, True) order next pending →
  same_files w v →
  ∃ completed v' emitted lines w',
    run_jobs env tasks order v = (Return completed, v') ∧
    pool_run env tasks order next pending w = (Return emitted, w') ∧
    same_files w' v' ∧
    map fst completed = order ∧
    Forall (λ ir, printable ir.2) completed ∧
    emitted ≡ₚ filled next pending ++ completed ∧
    map fst emitted = seq next (length pending) ∧
    stdout w' = stdout w ++ lines ∧
    interleaved (concat (map (worker_lines_at tasks) completed))
                (concat (map (λ ir, orchestrator_lines ir.2) emitted)) lines.
Proof.
  induction order as [|i order IH]; intros next pending w v Hok HR.
  - destruct Hok as (_ & _ & Hc & _ & _ & Hf).
    assert (pending = []) as ->.
    { destruct pending as [|[r|] pending]; [done | by destruct (Hf r) |].
      assert (0 + next ∈ @nil nat)%nat as Hin; [| by apply elem_of_nil in Hin].
      rewrite Nat.add_comm. apply (Hc 0%nat); simpl; [lia | done]. }
    exists [], v, [], [], w. simpl. rewrite app_nil_r.
    split; [done |]. split; [done |]. split; [done |]. split; [done |].
    split; [done |]. split; [done |]. split; [done |]. split; [done |]. constructor.
  - destruct Hok as (Hnd & Hlen & Hc & Hd & He & Hf).
    assert (next ≤ i < next + length pending)%nat as Hi by (apply Hd; left).
    destruct (lookup_lt_is_Some_2 tasks i) as [t Ht]; [lia |].
    destruct (compress_image_both env t w v HR)
      as (r & w1 & v1 & Hw & Hv & HR1 & Hout & Houtv & Hr).
    assert ((next <=? i)%nat = true) as Hle by (apply Nat.leb_le; lia).
    set (pending1 := <[(i - next)%nat := Some r]> pending).
    assert (pending !! (i - next)%nat = Some None) as Hslot.
    { apply Hc; [lia |]. replace (next + (i - next))%nat with i by lia. left. }
    assert (∀ j r', pending1 !! j = Some (Some r') →
              (r' = None ∨ result_truthy r' = true) ∧ True) as He1.
    { intros j r' Hj. subst pending1.
      destruct (decide (j = (i - next)%nat)) as [-> | Hne].
      - rewrite list_lookup_insert_eq in Hj by lia. by injection Hj as <-.
      - rewrite list_lookup_insert_ne in Hj by done. by apply He in Hj. }
    destruct (drain_spec pending1 next w1)
      as (yielded & pending2 & Hdrain & Hp & Hidx & _ & Hf2).
    { intros j r' Hj. by apply He1 in Hj as [? _]. }
    set (m := length yielded) in *.
    assert (length pending = (m + length pending2)%nat) as Hlen1.
    { rewrite <- (length_insert pending (i - next) (Some r)). fold pending1.
      rewrite Hp, length_app, length_map. done. }
    assert (∀ j, pending2 !! j = pending1 !! (m + j)%nat) as Hshift.
    { intros j. rewrite Hp, lookup_app_r by (rewrite length_map; lia).
      rewrite length_map. f_equal. lia. }
    assert (∀ j, (j < m)%nat → ∃ r', pending1 !! j = Some (Some r')) as Hfront.
    { intros j Hj. rewrite Hp, lookup_app_l by (rewrite length_map; lia).
      rewrite list_lookup_fmap.
      destruct (lookup_lt_is_Some_2 yielded j Hj) as [ir ->]. by eexists. }
    inversion Hnd as [|? ? Hnotin Hnd']; subst.
    destruct (IH (next + m)%nat pending2
                (set_stdout (stdout w1 ++ concat (map (λ ir, orchestrator_lines ir.2) yielded)) w1)
                v1)
      as (completed & v' & later & lines & w' & Hjobs & Hrest & HR' & Hcidx & Hcok
          & Hperm & Hidx' & Hout' & Hint).
    { split; [done |]. split; [lia |]. split; [| split; [| split; [| done]]].
      - intros j Hj. rewrite Hshift. unfold pending1.
        destruct (decide ((m + j)%nat = (i - next)%nat)) as [Heq | Hne].
        + rewrite Heq, list_lookup_insert_eq by lia.
          split; [done |]. intros Hin. exfalso. apply Hnotin.
          by replace i with (next + m + j)%nat by lia.
        + rewrite list_lookup_insert_ne by done.
          rewrite Hc by lia. replace (next + (m + j))%nat with (next + m + j)%nat by lia.
          rewrite elem_of_cons. split; [intros [?|?]; [lia | done] | auto].
      - intros i' Hi'. assert (next ≤ i' < next + length pending)%nat as Hb
          by (apply Hd; by right).
        split; [| lia].
        destruct (decide (i' - next < m)%nat) as [Hlt | Hge]; [| lia].
        destruct (Hfront _ Hlt) as [r' Hr']. unfold pending1 in Hr'.
        assert (i' ≠ i) by (intros ->; done).
        rewrite list_lookup_insert_ne in Hr' by lia.
        assert (pending !! (i' - next)%nat = Some None) as Hnone.
        { apply Hc; [lia |]. replace (next + (i' - next))%nat with i' by lia. by right. }
        rewrite Hnone in Hr'. discriminate.
      - intros j r' Hj. rewrite Hshift in Hj. by apply He1 in Hj. }
    { by apply same_files_stdout. }
    exists ((i, r) :: completed), v', (yielded ++ later),
           (worker_lines t r ++ concat (map (λ ir, orchestrator_lines ir.2) yielded) ++ lines),
           w'.
    split.
    { simpl run_jobs. rewrite Ht, bind_run, Hv, bind_run, Hjobs. done. }
    split.
    { simpl pool_run. rewrite Ht, bind_run, Hw, Hle. fold pending1.
      rewrite bind_run, Hdrain. rewrite bind_run. fold m. rewrite Hrest. done. }
    split; [done |].
    split; [simpl; by rewrite Hcidx |].
    split; [by constructor |].
    split.
    { assert (filled next pending1 ≡ₚ (i, r) :: filled next pending) as Hins.
      { unfold pending1. rewrite (filled_insert pending next (i - next)%nat r Hslot).
        by replace (next + (i - next))%nat with i by lia. }
      assert (filled next pending1 = yielded ++ filled (next + m) pending2) as Hsplit.
      { rewrite Hp, filled_app, length_map. fold m. by rewrite filled_yielded. }
      rewrite Hsplit in Hins. rewrite Hperm, app_assoc, Hins.
      simpl. by rewrite <- Permutation_middle. }
    split.
    { rewrite map_app, Hidx, Hidx'. fold m. rewrite Hlen1. by rewrite seq_app. }
    split.
    { rewrite Hout'. simpl. rewrite Hout. by rewrite <- !app_assoc. }
    simpl map. simpl concat. unfold worker_lines_at at 1. simpl. rewrite Ht.
    apply interleaved_app_l. rewrite map_app, concat_app.
    by apply interleaved_app_r.
Qed.

Lemma job_lines_perm (tasks : list Task) (completed : list (nat * option string)) :
  Forall (λ ir, is_Some (tasks !! ir.1) ∧ printable ir.2) completed →
  concat (map (worker_lines_at tasks) completed)
    ++ concat (map (λ ir, orchestrator_lines ir.2) completed)
  ≡ₚ map (job_line tasks) completed.
Proof.
  induction 1 as [|[i r] completed [[t Ht] Hr] _ IH]; [done |].
  simpl. rewrite <- IH.
  change (job_line tasks (i, r) :: ?l) with ([job_line tasks (i, r)] ++ l).
  rewrite <- (job_line_lines tasks i t r Ht Hr). solve_Permutation.
Qed.

Lemma completed_jobs_known (tasks : list Task) (completed : list (nat * option string)) n :
  map fst completed ≡ₚ seq 0 n → n = length tasks →
  Forall (λ ir, printable ir.2) completed →
  Forall (λ ir, is_Some (tasks !! ir.1) ∧ printable ir.2) completed.
Proof.
  intros Hidx -> Hok. apply Forall_forall. intros [i r] Hin. split.
  - apply lookup_lt_is_Some_2.
    assert (i ∈ map fst completed) as Hi.
    { apply list_elem_of_fmap. by exists (i, r). }
    rewrite Hidx in Hi. apply elem_of_seq in Hi. simpl. lia.
  - by eapply (proj1 (Forall_forall _ _) Hok (i, r)).
Qed.

(** ** C3: the order in which results are emitted *)

(** C3 (as amended).  In parallel mode the main process receives and
    prints the results in the order the jobs were submitted, whatever the
    order in which the workers finish them.  The workers run the jobs in
    the order [completion_order]; [completed] lists what each job returned.
    The main process receives the results job 0 first, then job 1, and so
    on, the one received for job [i] being the one job [i] returned.  After
    the line about the CPU cores the console holds the results, printed by
    the main process in the order the jobs were submitted, and among them
    the skip messages the workers printed themselves. *)
Theorem results_emitted_in_submission_order env tasks w :
  Permutation (completion_order env (length tasks)) (seq 0 (length tasks)) →
  ∃ completed emitted skips lines w',
    result_of (run_jobs env tasks (completion_order env (length tasks))) w
      = Return completed ∧
    map fst completed = completion_order env (length tasks) ∧
    run_parallel env tasks w = (Return emitted, w') ∧
    map fst emitted = seq 0 (length tasks) ∧
    (∀ i r, (i, r) ∈ completed ↔ emitted !! i = Some (i, r)) ∧
    stdout w' = stdout w
      ++ ["Using " +:+ pretty (cpu_count env) +:+ " CPU cores for parallel processing..."]
      ++ lines ∧
    skips ≡ₚ concat (map (worker_lines_at tasks) completed) ∧
    interleaved skips (concat (map (λ ir, orchestrator_lines ir.2) emitted)) lines.
Proof.
  intros Hperm. unfold run_parallel, result_of. rewrite bind_run. unfold print at 1.
  set (w0 := set_stdout _ w).
  destruct (pool_run_trace env tasks (completion_order env (length tasks)) 0
              (replicate (length tasks) None) w0 w)
    as (completed & v' & emitted & lines & w' & Hjobs & Hrun & _ & Hcidx & _
        & Hmem & Hidx & Hout & Hint).
  { by apply slots_ok_initial. }
  { done. }
  rewrite filled_replicate in Hmem. simpl in Hmem.
  rewrite length_replicate in Hidx.
  exists completed, emitted, (concat (map (worker_lines_at tasks) completed)), lines, w'.
  rewrite Hjobs, Hrun.
  split; [done |]. split; [done |]. split; [done |]. split; [done |].
  split; [| split; [rewrite Hout; subst w0; simpl; by rewrite <- app_assoc | done]].
  intros i r. rewrite <- Hmem. split.
  - intros Hin. apply list_elem_of_lookup in Hin as [j Hj].
    assert (j = i) as ->; [| done].
    apply (f_equal (λ l, l !! j)) in Hidx.
    rewrite list_lookup_fmap, Hj in Hidx. simpl in Hidx.
    symmetry in Hidx. apply lookup_seq in Hidx as [? _]. lia.
  - apply list_elem_of_lookup_2.
Qed.

Lemma results_emitted_in_submission_order_witness :
  ∃ completed emitted skips lines w',
    result_of (run_jobs env_ref mixed_tasks (completion_order env_ref (length mixed_tasks)))
      world_photos_out = Return completed ∧
    map fst completed = completion_order env_ref (length mixed_tasks) ∧
    run_parallel env_ref mixed_tasks world_photos_out = (Return emitted, w') ∧
    map fst emitted = seq 0 (length mixed_tasks) ∧
    (∀ i r, (i, r) ∈ completed ↔ emitted !! i = Some (i, r)) ∧
    stdout w' = stdout world_photos_out
      ++ ["Using " +:+ pretty (cpu_count env_ref) +:+ " CPU cores for parallel processing..."]
      ++ lines ∧
    skips ≡ₚ concat (map (worker_lines_at mixed_tasks) completed) ∧
    interleaved skips (concat (map (λ ir, orchestrator_lines ir.2) emitted)) lines.
Proof.
  apply (results_emitted_in_submission_order env_ref mixed_tasks world_photos_out).
  apply (bool_decide_unpack _). vm_compute. exact I.
Defined.

(** The claim as stated fails: the workers finish job 1 before job 0, and
    the results are still received and printed job 0 first. *)
Lemma emission_is_not_completion_order :
  completion_order env_ref (length photos_tasks) = [1; 0]%nat ∧
  result_of (run_jobs env_ref photos_tasks [1; 0]%nat) world_photos_out =
    Return [(1%nat, Some "  - Input: cat.png (10.00 KB) -> Output: cat.webp (2.02 KB)");
            (0%nat, Some "  - Input: dog.jpg (1.91 MB) -> Output: dog.webp (2.10 KB)")] ∧
  result_of (run_parallel env_ref photos_tasks) world_photos_out =
    Return [(0%nat, Some "  - Input: dog.jpg (1.91 MB) -> Output: dog.webp (2.10 KB)");
            (1%nat, Some "  - Input: cat.png (10.00 KB) -> Output: cat.webp (2.02 KB)")] ∧
  stdout (world_after (run_parallel env_ref photos_tasks) world_photos_out) =
    ["Using 4 CPU cores for parallel processing...";
     "  - Input: dog.jpg (1.91 MB) -> Output: dog.webp (2.10 KB)";
     "  - Input: cat.png (10.00 KB) -> Output: cat.webp (2.02 KB)"] ∧
  ([0; 1]%nat ≠ completion_order env_ref (length photos_tasks)).
Proof. vm_compute. repeat split; (reflexivity || discriminate). Qed.

(** ** C7: one line for each job *)

(** C7.  For a batch of any number of jobs, [main] prints its one or two
    banner lines, then one line for each job, then the completion line,
    whatever the jobs' outcomes.  The jobs run once each, in the order of
    the tasks or, in parallel mode, in the order the workers finish;
    [completed] lists what each returned.  The lines between the banner and
    the completion line are the lines of these jobs, one for each: the
    result the job returned, printed by [main], or the skip message the job
    printed itself when it returned [None].  In sequential mode they appear
    in the order of the tasks. *)
Theorem one_line_per_job env args tasks w :
  Permutation (completion_order env (length tasks)) (seq 0 (length tasks)) →
  ∃ order completed banner printed w',
    execute env args tasks w = (Return tt, w') ∧
    stdout w' = stdout w ++ banner ++ printed
                  ++ [String "010" "Compression complete."] ∧
    ((order = seq 0 (length tasks) ∧
      banner = ["Starting compression for " +:+ pretty (length tasks) +:+ " image(s)..."] ∧
      printed = map (job_line tasks) completed) ∨
     (order = completion_order env (length tasks) ∧
      banner = ["Starting compression for " +:+ pretty (length tasks) +:+ " image(s)...";
                "Using " +:+ pretty (cpu_count env)
                +:+ " CPU cores for parallel processing..."])) ∧
    result_of (run_jobs env tasks order) w = Return completed ∧
    map fst completed = order ∧
    order ≡ₚ seq 0 (length tasks) ∧
    printed ≡ₚ map (job_line tasks) completed ∧
    length printed = length tasks.
Proof.
  intros Hperm.
  unfold execute. rewrite bind_run. unfold print at 1. rewrite bind_run.
  set (w0 := set_stdout _ w).
  destruct ((1 <? length tasks)%nat && negb (args_no_parallel args)).
  - rewrite bind_run. unfold run_parallel. rewrite bind_run. unfold print at 1.
    set (w1 := set_stdout _ w0).
    destruct (pool_run_trace env tasks (completion_order env (length tasks)) 0
                (replicate (length tasks) None) w1 w)
      as (completed & v' & emitted & lines & w' & Hjobs & Hrun & _ & Hcidx & Hok
          & Hmem & Hidx & Hout & Hint).
    { by apply slots_ok_initial. }
    { done. }
    rewrite filled_replicate in Hmem. simpl in Hmem.
    assert (lines ≡ₚ map (job_line tasks) completed) as Hlines.
    { rewrite (interleaved_perm _ _ _ Hint).
      rewrite (concat_perm _ _ (Permutation_map (λ ir, orchestrator_lines ir.2) Hmem)).
      apply job_lines_perm.
      apply (completed_jobs_known tasks completed (length tasks)); [| done | done].
      by rewrite Hcidx. }
    rewrite Hrun. simpl.
    exists (completion_order env (length tasks)), completed. eexists _, lines, _.
    split; [reflexivity |]. unfold result_of. rewrite Hjobs.
    split; [| split; [right; split; reflexivity |]].
    { simpl. rewrite Hout. subst w1 w0. simpl. by rewrite <- !app_assoc. }
    split; [done |]. split; [done |]. split; [done |]. split; [done |].
    rewrite Hlines, length_map, <- (length_map fst), Hcidx, Hperm. apply length_seq.
  - destruct (run_sequential_trace env tasks tasks 0 w0 w eq_refl)
      as (completed & v' & results & w' & Hjobs & Hrun & _ & Hcidx & _ & Hout); [done |].
    rewrite bind_run, Hrun. simpl.
    exists (seq 0 (length tasks)), completed. eexists _, (map (job_line tasks) completed), _.
    split; [reflexivity |]. unfold result_of. rewrite Hjobs.
    split; [| split; [left; repeat split |]].
    { simpl. rewrite Hout. subst w0. simpl. by rewrite <- !app_assoc. }
    split; [done |]. split; [done |]. split; [done |]. split; [done |].
    rewrite length_map, <- (length_map fst), Hcidx. apply length_seq.
Qed.

Lemma one_line_per_job_witness :
  ∃ order completed banner printed w',
    execute env_ref (default_args "photos" "out") mixed_tasks world_photos_out
      = (Return tt, w') ∧
    stdout w' = stdout world_photos_out ++ banner ++ printed
                  ++ [String "010" "Compression complete."] ∧
    ((order = seq 0 (length mixed_tasks) ∧
      banner = ["Starting compression for " +:+ pretty (length mixed_tasks)
                +:+ " image(s)..."] ∧
      printed = map (job_line mixed_tasks) completed) ∨
     (order = completion_order env_ref (length mixed_tasks) ∧
      banner = ["Starting compression for " +:+ pretty (length mixed_tasks)
                +:+ " image(s)...";
                "Using " +:+ pretty (cpu_count env_ref)
                +:+ " CPU cores for parallel processing..."])) ∧
    result_of (run_jobs env_ref mixed_tasks order) world_photos_out = Return completed ∧
    map fst completed = order ∧
    order ≡ₚ seq 0 (length mixed_tasks) ∧
    printed ≡ₚ map (job_line mixed_tasks) completed ∧
    length printed = length mixed_tasks.
Proof.
  apply (one_line_per_job env_ref (default_args "photos" "out") mixed_tasks world_photos_out).
  apply (bool_decide_unpack _). vm_compute. exact I.
Defined.

(** A batch with a skipped job, a success and a failure, finished in the
    reverse order: three lines, the skip message printed by the worker of
    job 0, the two results by [main] once job 0 is done. *)
Example one_line_per_job_mixed :
  result_of (run_jobs env_ref mixed_tasks (completion_order env_ref 3)) world_photos_out =
    Return [(2%nat, Some "Error compressing notes.txt: cannot identify image file 'photos/notes.txt'");
            (1%nat, Some "  - Input: cat.png (10.00 KB) -> Output: cat.webp (2.02 KB)");
            (0%nat, None)] ∧
  stdout (world_after (execute env_ref (default_args "photos" "out") mixed_tasks)
            world_photos_out) =
    ["Starting compression for 3 image(s)...";
     "Using 4 CPU cores for parallel processing...";
     "Skipping missing file: photos/gone.png";
     "  - Input: cat.png (10.00 KB) -> Output: cat.webp (2.02 KB)";
     "Error compressing notes.txt: cannot identify image file 'photos/notes.txt'";
     String "010" "Compression complete."].
Proof. vm_compute. split; reflexivity. Qed.

(** ** C8: parallel against sequential *)

(** C8 (as amended).  For a batch of independent jobs (every output
    directory exists, and no job writes an entry that another job reads or
    writes) the parallel run and the sequential run give every job the
    same result, hence the same multiset of outcomes, whatever the order
    in which the workers finish. *)
Theorem parallel_matches_sequential env tasks w :
  independent w tasks = true →
  Permutation (completion_order env (length tasks)) (seq 0 (length tasks)) →
  ∃ emitted w1 results w2,
    run_parallel env tasks w = (Return emitted, w1) ∧
    run_sequential env tasks w = (Return results, w2) ∧
    map snd emitted = results ∧
    Permutation (map snd emitted) results.
Proof.
  intros Hind Hperm.
  destruct (independent_runs_agree env tasks w Hind Hperm)
    as (emitted & w1 & results & w2 & Hpar & Hseq & Heq).
  exists emitted, w1, results, w2. by rewrite Heq.
Qed.

Lemma parallel_matches_sequential_witness :
  ∃ emitted w1 results w2,
    run_parallel env_ref photos_tasks world_photos_out = (Return emitted, w1) ∧
    run_sequential env_ref photos_tasks world_photos_out = (Return results, w2) ∧
    map snd emitted = results ∧
    Permutation (map snd emitted) results.
Proof.
  apply (parallel_matches_sequential env_ref photos_tasks world_photos_out).
  - vm_compute. reflexivity.
  - apply (bool_decide_unpack _). vm_compute. exact I.
Defined.

(** The claim as stated fails for the batch [main] builds from a directory
    that holds [a.jpg] and [a.png] and is written onto itself as PNG: both
    jobs write [a.png], which one of them reads.  Run in sequence the
    second job reads what the first wrote; in the pool, finishing first, it
    reads the original. *)
Lemma colliding_jobs_differ :
  prepare_tasks env_ref mix_args "mix" "mix" world_mix = (Return mix_tasks, world_mix) ∧
  independent world_mix mix_tasks = false ∧
  result_of (run_parallel env_ref mix_tasks) world_mix =
    Return [(0%nat, Some "  - Input: a.jpg (4.88 KB) -> Output: a.png (2.10 KB)");
            (1%nat, Some "  - Input: a.png (10.00 KB) -> Output: a.png (2.02 KB)")] ∧
  result_of (run_sequential env_ref mix_tasks) world_mix =
    Return [Some "  - Input: a.jpg (4.88 KB) -> Output: a.png (2.10 KB)";
            Some "  - Input: a.png (2.10 KB) -> Output: a.png (2.10 KB)"] ∧
  ¬ Permutation
      [Some "  - Input: a.jpg (4.88 KB) -> Output: a.png (2.10 KB)";
       Some "  - Input: a.png (10.00 KB) -> Output: a.png (2.02 KB)"]
      [Some "  - Input: a.jpg (4.88 KB) -> Output: a.png (2.10 KB)";
       Some "  - Input: a.png (2.10 KB) -> Output: a.png (2.10 KB)"].
Proof.
  split; [vm_compute; reflexivity |].
  split; [vm_compute; reflexivity |].
  split; [vm_compute; reflexivity |].
  split; [vm_compute; reflexivity |].
  intros H. apply (bool_decide_pack _) in H. vm_compute in H. exact H.
Qed.
(** ** C4: who creates the output directory *)

(** C4 (as amended).  For an input directory, [main] leaves the output
    directory in place before any job is submitted, creating it when it
    was absent and touching nothing when it was there; the directory of
    every task's output then exists, and the run of the batch, sequential
    or parallel, neither creates nor removes a directory.  For a single
    input file [main] creates nothing: the batch is the one task and the
    world is as it was. *)
Theorem directory_made_by_orchestrator env args input_path output_path w :
  (os.is_dir (os.stat w input_path) = true →
   ∀ tasks w1,
     wf_world w = true →
     prepare_tasks env args input_path output_path w = (Return tasks, w1) →
     Permutation (completion_order env (length tasks)) (seq 0 (length tasks)) →
     is_Some (os.stat w1 output_path) ∧
     (os.stat w output_path = None → os.stat w1 output_path = Some Dir) ∧
     (is_Some (os.stat w output_path) → w1 = w) ∧
     (∀ t, t ∈ tasks → is_Some (os.stat w1 (os_path.dirname (t_output_path t)))) ∧
     (∀ k, os.is_dir (PIL.node_at (world_after (execute env args tasks) w1) k)
           = os.is_dir (PIL.node_at w1 k))) ∧
  (os.is_dir (os.stat w input_path) = false →
   prepare_tasks env args input_path output_path w =
     (Return [task_for args input_path output_path], w)).
Proof.
  split.
  - intros Hd tasks w1 Hwf Hrun Hperm.
    destruct (prepared_output_exists env args _ _ w tasks w1 Hd Hrun)
      as (_ & _ & Hs & Hnew & Hold).
    pose proof (prepared_dirs_exist env args _ _ w tasks w1
                  (wf_world_keys_ok w Hwf) Hd Hrun) as Hdirs.
    repeat split; try done. by apply execute_keeps_dirs.
  - apply prepare_tasks_single.
Qed.

Lemma directory_made_by_orchestrator_witness :
  (is_Some (os.stat world_photos_out "out") ∧
   (∀ t, t ∈ photos_tasks →
         is_Some (os.stat world_photos_out (os_path.dirname (t_output_path t)))) ∧
   (∀ k, os.is_dir (PIL.node_at
                      (world_after (execute env_ref (default_args "photos" "out") photos_tasks)
                         world_photos_out) k)
         = os.is_dir (PIL.node_at world_photos_out k))) ∧
  prepare_tasks env_ref (default_args "photos/cat.png" "out/cat.webp")
    "photos/cat.png" "out/cat.webp" world_photos =
    (Return [task_for (default_args "photos/cat.png" "out/cat.webp")
               "photos/cat.png" "out/cat.webp"], world_photos).
Proof.
  split.
  - destruct (proj1 (directory_made_by_orchestrator env_ref (default_args "photos" "out")
                       "photos" "out" world_photos))
      with (tasks := photos_tasks) (w1 := world_photos_out)
      as (H1 & _ & _ & H2 & H3).
    + vm_compute. reflexivity.
    + vm_compute. reflexivity.
    + vm_compute. reflexivity.
    + apply (bool_decide_unpack _). vm_compute. exact I.
    + split; [exact H1 | split; [exact H2 | exact H3]].
  - apply (proj2 (directory_made_by_orchestrator env_ref
                    (default_args "photos/cat.png" "out/cat.webp")
                    "photos/cat.png" "out/cat.webp" world_photos)).
    vm_compute. reflexivity.
Defined.

(** The claim as stated fails for a single file: [main] creates nothing,
    and the directory [out] is made by the worker. *)
Lemma worker_creates_output_directory :
  os.stat world_photos "out" = None ∧
  prepare_tasks env_ref (default_args "photos/cat.png" "out/cat.webp")
    "photos/cat.png" "out/cat.webp" world_photos =
    (Return [task_for (default_args "photos/cat.png" "out/cat.webp")
               "photos/cat.png" "out/cat.webp"], world_photos) ∧
  os.stat (world_after
             (compress_image env_ref
                (task_for (default_args "photos/cat.png" "out/cat.webp")
                   "photos/cat.png" "out/cat.webp")) world_photos) "out" = Some Dir.
Proof.
  split; [vm_compute; reflexivity |].
  split; [vm_compute; reflexivity |].
  vm_compute. reflexivity.
Qed.

(** * Further properties *)

(** ** Paths of joined names *)

Lemma split_single c s : Str.contains c s = false → Str.split c s = [s].
Proof.
  induction s as [|x s IH]; simpl; [done |].
  intros [Hx Hs]%orb_false_elim. rewrite Hx, IH by done. done.
Qed.

Lemma walk_name acc f :
  f ≠ "" → f ≠ "." → f ≠ ".." → os.walk acc f = acc ++ [f].
Proof.
  intros H1 H2 H3. unfold os.walk.
  by rewrite !bool_decide_false by done.
Qed.

Lemma startswith_app_l d f : d ≠ "" → Str.startswith (d +:+ f) "/" = Str.startswith d "/".
Proof. destruct d; [done |]. intros _. by rewrite append_cons. Qed.

(** The entry [join d f] names is the child [f] of the entry [d] names. *)
Lemma resolve_join w d f :
  Str.contains os_path.sep f = false →
  f ≠ "" → f ≠ "." → f ≠ ".." →
  os.resolve w (os_path.join d f) = os.resolve w d ++ [f].
Proof.
  intros Hf H1 H2 H3. unfold os_path.join.
  rewrite (startswith_sep_no_sep f Hf).
  destruct (Str.truthy d) eqn:Hd; simpl.
  - assert (d ≠ "") as Hne by (by apply truthy_true).
    destruct (Str.endswith d "/") eqn:Hend.
    + destruct (endswith_inv _ _ Hend) as [pre ->].
      unfold os.resolve. rewrite (startswith_app_l (pre +:+ "/") f Hne).
      rewrite append_assoc, append_cons, append_nil_l.
      change (String "/" f) with (String os_path.sep f).
      change (pre +:+ "/") with (pre +:+ String os_path.sep "").
      rewrite !split_app, !fold_left_app, (split_single _ f Hf). simpl.
      rewrite (walk_name _ f) by done. unfold os.walk at 2.
      by rewrite bool_decide_true.
    + unfold os.resolve. rewrite startswith_app_l by done.
      rewrite append_cons, append_nil_l.
      change (String "/" f) with (String os_path.sep f).
      rewrite split_app, fold_left_app, (split_single _ f Hf). simpl.
      by rewrite walk_name.
  - assert (d = "") as ->.
    { unfold Str.truthy in Hd. apply negb_false_iff, bool_decide_eq_true in Hd. done. }
    rewrite append_nil_l. unfold os.resolve.
    rewrite (startswith_sep_no_sep f Hf), (split_single _ f Hf). simpl.
    by rewrite walk_name.
Qed.

Lemma endswith_length s suf : Str.endswith s suf = true → (String.length suf ≤ String.length s)%nat.
Proof.
  intros [pre ->]%endswith_inv. induction pre; str_simpl; simpl; lia.
Qed.

Lemma lower_length s : String.length (Str.lower s) = String.length s.
Proof. induction s; simpl; congruence. Qed.

(** A name with the suffix of an image is a proper name of an entry. *)
Lemma image_name_proper name :
  Str.endswith_any (Str.lower name) IMAGE_SUFFIXES = true →
  name ≠ "" ∧ name ≠ "." ∧ name ≠ "..".
Proof.
  intros H. assert (4 ≤ String.length name)%nat as Hlen.
  { rewrite <- lower_length. unfold Str.endswith_any, IMAGE_SUFFIXES in H. simpl in H.
    repeat (apply orb_prop in H as [H | H]); try discriminate;
      apply endswith_length in H; simpl in H; lia. }
  repeat split; intros ->; simpl in Hlen; lia.
Qed.

(** ** [get_file_size] *)

Lemma round_half_even_exact q d : 0 < d → round_half_even (q * d) d = q.
Proof.
  intros Hd. unfold round_half_even.
  rewrite Z.div_mul, Z.mod_mul by lia.
  assert ((2 * 0 <? d) = true) as -> by (apply Z.ltb_lt; lia). done.
Qed.

Lemma round_half_even_error n d :
  0 < d → 2 * Z.abs (n - round_half_even n d * d) ≤ d.
Proof.
  intros Hd. unfold round_half_even.
  pose proof (Z.div_mod n d ltac:(lia)) as Hdm.
  pose proof (Z.mod_pos_bound n d Hd) as Hb.
  destruct (2 * (n mod d) <? d) eqn:H1; [apply Z.ltb_lt in H1; nia |].
  apply Z.ltb_ge in H1.
  destruct (d <? 2 * (n mod d)) eqn:H2; [apply Z.ltb_lt in H2; nia |].
  apply Z.ltb_ge in H2.
  destruct (Z.even (n / d)); nia.
Qed.

Lemma round_half_even_nonneg n d : 0 ≤ n → 0 < d → 0 ≤ round_half_even n d.
Proof.
  intros Hn Hd. pose proof (round_half_even_near n d Hd).
  pose proof (Z.div_pos n d Hn Hd). lia.
Qed.

Lemma format_2f_whole k d : 0 ≤ k → 0 < d → format_2f (k * d) d = pretty k +:+ ".00".
Proof.
  intros Hk Hd. unfold format_2f.
  replace (100 * (k * d)) with (100 * k * d) by lia.
  rewrite round_half_even_exact by done.
  replace (100 * k) with (k * 100) by lia.
  rewrite Z.mod_mul, Z.div_mul by lia. reflexivity.
Qed.

Lemma get_file_size_file env p w n o :
  fault env (c_getsize p) = None →
  os.stat w p = Some (File n o) →
  get_file_size env p w = (Return (size_text n), w).
Proof.
  intros Hf Hs. unfold get_file_size, size_text. rewrite bind_run.
  unfold os.path_getsize. rewrite Hf, Hs. by destruct (n <? _).
Qed.

Lemma get_file_size_inv env p w s w' :
  get_file_size env p w = (Return s, w') →
  w' = w ∧ (os.stat w p = Some Dir ∨ ∃ n o, os.stat w p = Some (File n o) ∧ s = size_text n).
Proof.
  unfold get_file_size, size_text. rewrite bind_run. unfold os.path_getsize.
  destruct (fault env _); [discriminate |].
  destruct (os.stat w p) as [[|n o]|]; [| | discriminate].
  - simpl. intros [= <- <-]. split; [done | by left].
  - destruct (n <? _) eqn:Hn; intros [= <- <-];
      (split; [done | right; exists n, o; by rewrite Hn]).
Qed.

(** X1.  [get_file_size] raises the error of [os.path.getsize] for a path
    that names nothing, and changes nothing.  For a file of [n] bytes it
    gives, without changing anything, a figure with two decimals followed
    by [KB] when [n] is below 1024 * 1024 and by [MB] otherwise; the figure
    is the size in that unit rounded to the nearest hundredth, so a whole
    number of units shows as [k.00]. *)
Theorem get_file_size_rounds env file_path w :
  fault env (c_getsize file_path) = None →
  (os.stat w file_path = None →
   ∃ e, get_file_size env file_path w = (Raise e, w) ∧
        (exc_type e = "FileNotFoundError" ∨ exc_type e = "NotADirectoryError")) ∧
  (∀ n o, 0 ≤ n → os.stat w file_path = Some (File n o) →
   ∃ h, 0 ≤ h ∧
     2 * Z.abs (100 * n - h * (if n <? 1024 * 1024 then 1024 else 1024 * 1024))
       ≤ (if n <? 1024 * 1024 then 1024 else 1024 * 1024) ∧
     get_file_size env file_path w =
       (Return (pretty (h / 100) +:+ "."
                +:+ (if h mod 100 <? 10 then "0" else "") +:+ pretty (h mod 100)
                +:+ (if n <? 1024 * 1024 then " KB" else " MB")), w)) ∧
  (∀ k o, 0 ≤ k < 1024 → os.stat w file_path = Some (File (k * 1024) o) →
   get_file_size env file_path w = (Return (pretty k +:+ ".00 KB"), w)) ∧
  (∀ k o, 1 ≤ k → os.stat w file_path = Some (File (k * (1024 * 1024)) o) →
   get_file_size env file_path w = (Return (pretty k +:+ ".00 MB"), w)).
Proof.
  intros Hf. split; [| split; [| split]].
  - intros Hs. unfold get_file_size. rewrite bind_run. unfold os.path_getsize.
    rewrite Hf, Hs. eexists. split; [reflexivity | by left].
  - intros n o Hn Hs. rewrite (get_file_size_file env file_path w n o Hf Hs).
    unfold size_text. destruct (n <? 1024 * 1024).
    + exists (round_half_even (100 * n) 1024).
      split; [apply round_half_even_nonneg; lia |].
      split; [apply round_half_even_error; lia |].
      unfold format_2f. by rewrite !append_assoc.
    + exists (round_half_even (100 * n) (1024 * 1024)).
      split; [apply round_half_even_nonneg; lia |].
      split; [apply round_half_even_error; lia |].
      unfold format_2f. by rewrite !append_assoc.
  - intros k o Hk Hs. rewrite (get_file_size_file env file_path w _ o Hf Hs).
    unfold size_text.
    assert ((k * 1024 <? 1024 * 1024) = true) as -> by (apply Z.ltb_lt; lia).
    rewrite format_2f_whole by lia. by rewrite append_assoc.
  - intros k o Hk Hs. rewrite (get_file_size_file env file_path w _ o Hf Hs).
    unfold size_text.
    assert ((k * (1024 * 1024) <? 1024 * 1024) = false) as -> by (apply Z.ltb_ge; lia).
    rewrite format_2f_whole by lia. by rewrite append_assoc.
Qed.

Lemma get_file_size_rounds_witness :
  (∃ e, get_file_size env_ref "photos/gone.png" world_photos = (Raise e, world_photos) ∧
        (exc_type e = "FileNotFoundError" ∨ exc_type e = "NotADirectoryError")) ∧
  get_file_size env_ref "photos/cat.png" world_photos =
    (Return (pretty 10 +:+ ".00 KB"), world_photos).
Proof.
  split.
  - apply (get_file_size_rounds env_ref "photos/gone.png" world_photos); reflexivity.
  - apply (proj1 (proj2 (proj2
             (get_file_size_rounds env_ref "photos/cat.png" world_photos eq_refl)))
             10 (Some cat_png)); [lia | reflexivity].
Defined.

(** ** What a job leaves of the file system *)

Lemma extends_except_refl k w : extends_except k w w.
Proof. split; [done |]. intros k'. by left. Qed.

Lemma extends_except_trans k w1 w2 w3 :
  extends_except k w1 w2 → extends_except k w2 w3 → extends_except k w1 w3.
Proof.
  intros [Hc1 H1] [Hc2 H2]. split; [congruence |]. intros k'.
  destruct (H1 k') as [E1 | [[E1 E1'] | (E1 & Hd1 & Hf1)]],
           (H2 k') as [E2 | [[E2 E2'] | (E2 & Hd2 & Hf2)]].
  - left. congruence.
  - right. left. by rewrite <- E1.
  - right. right. by rewrite <- E1.
  - right. left. by rewrite E2.
  - congruence.
  - rewrite E1' in Hd2. done.
  - right. right. by rewrite E2.
  - rewrite E2 in Hf1. done.
  - right. right. done.
Qed.

Lemma extends_except_is_Some k w w' k' :
  extends_except k w w' → is_Some (PIL.node_at w k') → is_Some (PIL.node_at w' k').
Proof.
  intros [_ H] Hs. destruct (H k') as [-> | [[_ ->] | (_ & _ & Hf)]]; [done | done |].
  by destruct (PIL.node_at w' k') as [[|]|].
Qed.

Lemma extends_except_spares k w w' k' :
  extends_except k w w' →
  is_Some (PIL.node_at w k') →
  k' ≠ k ∨ os.is_dir (PIL.node_at w k') = true →
  PIL.node_at w' k' = PIL.node_at w k'.
Proof.
  intros [_ H] Hs Hk. destruct (H k') as [E | [[E _] | (E & Hd & _)]]; [done | |].
  - rewrite E in Hs. by destruct Hs.
  - destruct Hk as [Hk | Hk]; [done | congruence].
Qed.

Lemma extends_except_stat k w w' p :
  extends_except k w w' → is_Some (os.stat w p) → is_Some (os.stat w' p).
Proof.
  intros Hw. rewrite !stat_node_at. destruct (Str.truthy p); [| done].
  rewrite (resolve_cwd w' w) by apply Hw. by apply (extends_except_is_Some k).
Qed.

Lemma makedirs_raises env p w e w' : os.makedirs env p w = (Raise e, w') → w' = w.
Proof.
  unfold os.makedirs. destruct (fault env _); [by intros [= _ <-] |].
  destruct (negb _); [by intros [= _ <-] |].
  destruct (bool_decide _); [by intros [= _ <-] |].
  destruct (existsb _ _); [by intros [= _ <-] | done].
Qed.

Lemma makedirs_extends env p k w : extends_except k w (snd (os.makedirs env p w)).
Proof.
  destruct (os.makedirs env p w) as [[[]|e] w'] eqn:Hrun; simpl.
  - apply makedirs_inv in Hrun as (_ & Hc & _ & Hfs). split; [done |].
    intros [|c k']; [by left |]. simpl. rewrite Hfs.
    destruct (fs w !! (c :: k')); [by left |].
    destruct (bool_decide _); [right; by left | by left].
  - apply makedirs_raises in Hrun as ->. apply extends_except_refl.
Qed.

Lemma save_extends env img p format params w :
  extends_except (os.resolve w p) w (snd (PIL.save env img p format params w)).
Proof.
  destruct (save_world env img p format params w)
    as [-> | (n & o & -> & Hne & Hnd)]; [apply extends_except_refl |].
  split; [done |]. intros k'. rewrite node_at_insert by done.
  destruct (decide (os.resolve w p = k')) as [<- | Hne']; [| by left].
  right. right. split; [done |]. split; [| done].
  destruct (os.resolve w p); [done | exact Hnd].
Qed.

Lemma compress_image_extends env t w :
  extends_except (os.resolve w (t_output_path t)) w (snd (compress_image env t w)).
Proof.
  set (k := os.resolve w (t_output_path t)).
  set (I := λ w', cwd w' = cwd w).
  assert (post I (extends_except k) (compress_image env t)) as H; [| by apply H].
  apply post_compress_image.
  - apply extends_except_refl.
  - apply extends_except_trans.
  - intros s w1 Hc. split; [| done]. split; [done |]. intros k'. by left.
  - intros w1 Hc.
    pose proof (makedirs_extends env (os_path.dirname (t_output_path t)) k w1) as H.
    split; [done |]. unfold I. by rewrite (proj1 H).
  - intros img format params w1 Hc.
    pose proof (save_extends env img (t_output_path t) format params w1) as H.
    rewrite (resolve_cwd w1 w) in H by done. fold k in H.
    split; [done |]. unfold I. by rewrite (proj1 H).
Qed.

(** X2.  Whatever its outcome, a job of [compress_image] removes nothing
    and replaces nothing but its output: the working directory stays, every
    entry that exists before the job exists after it, every entry other
    than the output path (and the output path itself when it names a
    directory) is exactly as it was, and an entry that is new is a
    directory, or is the output file. *)
Theorem compress_image_spares_other_entries env t w k :
  let w' := world_after (compress_image env t) w in
  cwd w' = cwd w ∧
  (is_Some (PIL.node_at w k) → is_Some (PIL.node_at w' k)) ∧
  (is_Some (PIL.node_at w k) →
   k ≠ os.resolve w (t_output_path t) ∨ os.is_dir (PIL.node_at w k) = true →
   PIL.node_at w' k = PIL.node_at w k) ∧
  (PIL.node_at w k = None → is_Some (PIL.node_at w' k) →
   PIL.node_at w' k = Some Dir ∨
   (k = os.resolve w (t_output_path t) ∧ os.is_file (PIL.node_at w' k) = true)).
Proof.
  pose proof (compress_image_extends env t w) as H. unfold world_after. simpl.
  split; [apply H |].
  split; [by apply (extends_except_is_Some _ _ _ _ H) |].
  split; [by apply (extends_except_spares _ _ _ _ H) |].
  intros Hn Hs. destruct H as [_ H].
  destruct (H k) as [E | [[_ E] | (E & _ & Hf)]]; [| by left | by right].
  rewrite E, Hn in Hs. by destruct Hs.
Qed.

Lemma compress_image_spares_other_entries_witness :
  PIL.node_at (world_after (compress_image env_ref cat_task) world_photos)
              ["photos"; "cat.png"]
  = Some (File 10240 (Some cat_png)).
Proof.
  destruct (compress_image_spares_other_entries env_ref cat_task world_photos
              ["photos"; "cat.png"]) as (_ & _ & H & _).
  rewrite H; [reflexivity | by eexists | by left].
Defined.

(** ** Jobs that go through *)

Lemma startswith_app p s : Str.startswith (p +:+ s) p = true.
Proof. induction p as [|a p IH]; [by destruct s |]. simpl. by rewrite bool_decide_true. Qed.

Lemma save_inv_format env img p format params w w' :
  PIL.save env img p format params w = (Return tt, w') →
  ∃ f,
    match format with
    | Some f' => f' = f
    | None => PIL.EXTENSION (Str.lower (snd (os_path.splitext p))) = Some f
    end ∧
    Str.truthy p = true ∧ os.resolve w p ≠ [] ∧
    PIL.node_at w (removelast (os.resolve w p)) = Some Dir ∧
    w' = set_fs (<[os.resolve w p :=
                     File (encoded_size env (PIL.upper f) params img)
                          (Some (PIL.decoded_from (PIL.upper f) params img))]> (fs w)) w.
Proof.
  unfold PIL.save.
  destruct (match format with Some f => Some f | None => _ end) as [f|] eqn:Hf;
    [| discriminate].
  destruct (negb (bool_decide _)); [discriminate |].
  destruct (Str.truthy p); [| discriminate]. simpl.
  intros H. exists f. split; [by destruct format; [injection Hf |] |]. split; [done |].
  destruct (os.resolve w p) as [|c k]; [discriminate |]. split; [done |].
  destruct (PIL.node_at w (c :: k)) as [[|n o]|],
           (PIL.node_at w (removelast (c :: k))) as [[|n' o']|];
    try discriminate;
    (destruct (fault env _); [discriminate |]); by injection H as <-.
Qed.

Lemma quantize_inv_image env img c m d w img' w' :
  PIL.quantize env img c m d w = (Return img', w') →
  w' = w ∧ mode img' = "P" ∧ size img' = size img ∧ info img' = info img.
Proof.
  unfold PIL.quantize. destruct (fault env _); [discriminate |]. by intros [= <- <-].
Qed.

Lemma convert_inv_image env img m w img' w' :
  PIL.convert env img m w = (Return img', w') →
  w' = w ∧ size img' = size img ∧ info img' = info img.
Proof.
  unfold PIL.convert. case_bool_decide; [by intros [= <- <-] |].
  destruct (fault env _); [discriminate |]. by intros [= <- <-].
Qed.

Lemma thumbnail_fits env img m r w img' w' :
  PIL.thumbnail env img (m, m) r w = (Return img', w') →
  fst (size img) ≤ m → snd (size img) ≤ m → img' = img.
Proof.
  unfold PIL.thumbnail. destruct (fault env _); [discriminate |]. simpl.
  intros H Hw Hh. apply Z.leb_le in Hw, Hh. rewrite Hw, Hh in H. by injection H as <- _.
Qed.

(** What is known of a job whose [try] block ran to its end. *)
Lemma compress_image_try_inv env t w r w' :
  compress_image_try env t w = (Return r, w') →
  ∃ n src img2 w1 img3 f params,
    os.stat w (t_input_path t) = Some (File n (Some src)) ∧
    mode img2 = mode src ∧
    info img2 = (if t_strip_exif t then [] else info src) ∧
    (PIL.truthy (t_resize_percentage t) = true →
     size img2 = percent_size (size src) (val (t_resize_percentage t))) ∧
    (PIL.truthy (t_resize_percentage t) = false →
     (PIL.truthy (t_max_dimension t) = true →
      fst (size src) ≤ val (t_max_dimension t) ∧
      snd (size src) ≤ val (t_max_dimension t)) →
     size img2 = size src) ∧
    cwd w1 = cwd w ∧
    (if t_use_webp t
     then img3 = img2 ∧ f = "webp"
          ∧ params = mkSaveParams true (Some (t_quality t)) (Some (t_webp_method t))
     else mode img3 = "P" ∧ size img3 = size img2 ∧ info img3 = info img2
          ∧ PIL.EXTENSION (Str.lower (snd (os_path.splitext (t_output_path t)))) = Some f
          ∧ params = mkSaveParams true None None) ∧
    Str.truthy (t_output_path t) = true ∧
    os.resolve w (t_output_path t) ≠ [] ∧
    w' = set_fs (<[os.resolve w (t_output_path t) :=
                     File (encoded_size env (PIL.upper f) params img3)
                          (Some (PIL.decoded_from (PIL.upper f) params img3))]> (fs w1)) w1 ∧
    r = Some ("  - Input: " +:+ os_path.basename (t_input_path t)
              +:+ " (" +:+ size_text n +:+ ") -> Output: "
              +:+ os_path.basename (t_output_path t)
              +:+ " (" +:+ size_text (encoded_size env (PIL.upper f) params img3) +:+ ")").
Proof.
  intros Hrun.
  destruct t as [inp out q uw wm rp md se di]. simpl in *.
  unfold compress_image_try in Hrun.
  apply bind_Return_inv in Hrun as (osz & w1 & Hosz & Hrun).
  apply get_file_size_inv in Hosz as [-> Hosz].
  apply bind_Return_inv in Hrun as (img & w1 & Hopen & Hrun).
  apply open_inv in Hopen as [-> [n Hst]].
  assert (osz = size_text n) as ->.
  { destruct Hosz as [E | (n' & o' & E & ->)]; rewrite Hst in E; [done |]. by injection E as <-. }
  apply bind_Return_inv in Hrun as (img1 & w1 & Hstrip & Hrun).
  assert (w1 = w ∧ img1 = if se then stripped img else img) as [-> ->].
  { unfold PIL.hasattr_info in Hstrip. rewrite andb_true_r in Hstrip. destruct se.
    - by apply strip_inv in Hstrip as [-> ->].
    - by injection Hstrip as <- <-. }
  apply bind_Return_inv in Hrun as (img2 & w1 & Hres & Hrun).
  set (img1 := if se then stripped img else img) in *.
  assert (mode img1 = mode img ∧ info img1 = (if se then [] else info img)
          ∧ size img1 = size img) as (Hm1 & Hi1 & Hs1) by (subst img1; by destruct se).
  assert (w1 = w ∧ mode img2 = mode img1 ∧ info img2 = info img1 ∧
          (PIL.truthy rp = true → size img2 = percent_size (size img1) (val rp)) ∧
          (PIL.truthy rp = false →
           (PIL.truthy md = true →
            fst (size img1) ≤ val md ∧ snd (size img1) ≤ val md) →
           size img2 = size img1))
    as (-> & Hm2 & Hi2 & Hs2 & Hs2').
  { destruct (PIL.truthy rp).
    - destruct (size img1) as [width height] eqn:Hwh.
      apply resize_inv in Hres as (-> & Hsz & Hm & Hi). done.
    - destruct (PIL.truthy md).
      + pose proof (thumbnail_inv _ _ _ _ _ _ _ Hres) as (-> & Hm & Hi).
        split; [done |]. split; [done |]. split; [done |]. split; [done |].
        intros _ Hfit. destruct (Hfit eq_refl) as [Hfw Hfh].
        by rewrite (thumbnail_fits _ _ _ _ _ _ _ Hres Hfw Hfh).
      + injection Hres as <- <-. done. }
  apply bind_Return_inv in Hrun as (present & w1 & Hex & Hrun).
  assert (w1 = w) as -> by (by injection Hex).
  apply bind_Return_inv in Hrun as ([] & w1 & Hmk & Hrun).
  assert (cwd w1 = cwd w) as Hcwd.
  { destruct present; simpl in Hmk.
    - by injection Hmk as <-.
    - by apply makedirs_cwd in Hmk. }
  apply bind_Return_inv in Hrun as ([] & w2 & Hsave & Hrun).
  apply bind_Return_inv in Hrun as (csz & w3 & Hcsz & Hrun).
  apply get_file_size_inv in Hcsz as [-> Hcsz].
  injection Hrun as <- <-.
  assert (∃ img3 f params,
    (if uw then img3 = img2 ∧ f = "webp" ∧ params = mkSaveParams true (Some q) (Some wm)
     else mode img3 = "P" ∧ size img3 = size img2 ∧ info img3 = info img2
          ∧ PIL.EXTENSION (Str.lower (snd (os_path.splitext out))) = Some f
          ∧ params = mkSaveParams true None None) ∧
    Str.truthy out = true ∧ os.resolve w1 out ≠ [] ∧
    w2 = set_fs (<[os.resolve w1 out :=
                     File (encoded_size env (PIL.upper f) params img3)
                          (Some (PIL.decoded_from (PIL.upper f) params img3))]> (fs w1)) w1)
    as (img3 & f & params & Hfmt & Htr & Hne & ->).
  { destruct uw.
    - apply save_inv_format in Hsave as (f & <- & Htr & Hne & _ & ->).
      exists img2, "webp", (mkSaveParams true (Some q) (Some wm)). done.
    - apply bind_Return_inv in Hsave as (img3 & w4 & Hq & Hsave).
      assert (w4 = w1 ∧ mode img3 = "P" ∧ size img3 = size img2 ∧ info img3 = info img2)
        as (-> & Hm3 & Hs3 & Hi3).
      { destruct (_ || _).
        - by apply quantize_inv_image in Hq.
        - apply bind_Return_inv in Hq as (rgb & w5 & Hc & Hq).
          apply convert_inv_image in Hc as (-> & Hc & Hc').
          apply quantize_inv_image in Hq as (-> & ? & ? & ?).
          split; [done |]. split; [done |]. split; congruence. }
      apply save_inv_format in Hsave as (f & Hf & Htr & Hne & _ & ->).
      exists img3, f, (mkSaveParams true None None). done. }
  rewrite (resolve_cwd w1 w) in * by done.
  exists n, img, img2, w1, img3, f, params.
  split; [done |]. split; [congruence |]. split; [congruence |].
  split; [intros Hp; rewrite Hs2 by done; by rewrite Hs1 |].
  split; [intros Hp Hd; rewrite Hs2' by (by rewrite ?Hs1); done |].
  split; [done |]. split; [done |]. split; [done |]. split; [done |]. split; [done |].
  assert (csz = size_text (encoded_size env (PIL.upper f) params img3)) as ->; [| done].
  set (w2 := set_fs _ w1) in *.
  assert (os.stat w2 out = Some (File (encoded_size env (PIL.upper f) params img3)
                                      (Some (PIL.decoded_from (PIL.upper f) params img3))))
    as Hst2.
  { rewrite stat_node_at, Htr. rewrite (resolve_cwd w2 w) by done.
    subst w2. rewrite node_at_insert by done. by rewrite decide_True. }
  destruct Hcsz as [E | (n' & o' & E & ->)]; rewrite Hst2 in E; [done |].
  by injection E as <-.
Qed.

Lemma compress_image_line env t w line w' :
  compress_image env t w = (Return (Some line), w') →
  is_Some (os.stat w (t_input_path t)) ∧
  ((is_success_line line = true ∧ compress_image_try env t w = (Return (Some line), w')) ∨
   (is_error_line line = true ∧ ∃ e, compress_image_try env t w = (Raise e, w'))).
Proof.
  intros Hrun.
  assert (is_Some (os.stat w (t_input_path t))) as Hs.
  { destruct (os.stat w (t_input_path t)) eqn:E; [by eexists |].
    rewrite (compress_image_skips env t w E) in Hrun. discriminate. }
  split; [done |].
  rewrite (compress_image_enters_try env t w Hs), try_except_run in Hrun.
  destruct (compress_image_try env t w) as [[r|e] w1] eqn:Htry.
  - injection Hrun as -> ->. left. split; [| done].
    apply compress_image_try_message in Htry as [s [= ->]].
    apply (startswith_app "  - Input: ").
  - injection Hrun as <- <-. right. split; [| by eexists].
    apply (startswith_app "Error compressing ").
Qed.

Lemma success_not_error line : is_success_line line = true → is_error_line line = false.
Proof.
  unfold is_success_line, is_error_line. destruct line as [|a line]; [done |].
  simpl. case_bool_decide; [subst; intros _; done | done].
Qed.

Lemma compress_image_success_inv env t w line w' :
  compress_image env t w = (Return (Some line), w') →
  is_success_line line = true →
  compress_image_try env t w = (Return (Some line), w').
Proof.
  intros Hrun Hl. apply compress_image_line in Hrun as [_ [[_ H] | [He _]]]; [done |].
  rewrite (success_not_error _ Hl) in He. done.
Qed.

(** X3.  A percentage so small that a side of the image truncates to zero
    makes the job fail before anything is written: the result is an error
    line and the world is as it was.  When no library call fails for another
    reason the message is that of [resize]. *)
Theorem resize_to_nothing_fails env t w n src :
  os.stat w (t_input_path t) = Some (File n (Some src)) →
  PIL.truthy (t_resize_percentage t) = true →
  0 < fst (size src) → 0 < snd (size src) →
  fst (percent_size (size src) (val (t_resize_percentage t))) < 1
  ∨ snd (percent_size (size src) (val (t_resize_percentage t))) < 1 →
  ∃ msg,
    compress_image env t w =
      (Return (Some ("Error compressing " +:+ os_path.basename (t_input_path t)
                     +:+ ": " +:+ msg)), w) ∧
    (fault_free env → msg = "height and width must be > 0").
Proof.
  intros Hst Hp Hw Hh Hsmall.
  assert (∃ e, compress_image_try env t w = (Raise e, w) ∧
               (fault_free env → e = PIL.ValueError "height and width must be > 0"))
    as (e & Htry & He).
  { destruct t as [inp out q uw wm rp md se di]. simpl in *.
    unfold compress_image_try. rewrite bind_run.
    destruct (get_file_size env inp w) as [[osz|e] w1] eqn:H1;
      pose proof (get_file_size_world _ _ _ _ _ H1) as ->.
    2:{ exists e. split; [done |]. intros Hff.
        rewrite (get_file_size_file env inp w n (Some src) (Hff _) Hst) in H1. done. }
    rewrite bind_run. unfold PIL.open at 1. rewrite Hst.
    destruct (fault env (c_open inp)) as [e|] eqn:Hf1.
    { exists e. split; [done |]. intros Hff. by rewrite Hff in Hf1. }
    rewrite bind_run.
    destruct (pure_strip env se src) as [r1 Hr1]. rewrite Hr1.
    destruct r1 as [img1|e].
    2:{ exists e. split; [done |]. intros Hff. specialize (Hr1 w).
        unfold PIL.hasattr_info in Hr1. rewrite andb_true_r in Hr1.
        destruct se; [| done]. unfold fault_free in Hff.
        rewrite bind_run in Hr1. unfold PIL.getdata at 1 in Hr1. rewrite Hff in Hr1.
        rewrite bind_run in Hr1. unfold PIL.new at 1 in Hr1. rewrite Hff in Hr1.
        unfold PIL.putdata in Hr1. rewrite Hff in Hr1. done. }
    assert (size img1 = size src) as Hs1.
    { specialize (Hr1 w). destruct (se && PIL.hasattr_info src).
      - by apply strip_inv in Hr1 as [_ ->].
      - by injection Hr1 as <-. }
    rewrite bind_run, Hp. destruct (size img1) as [width height] eqn:Hwh.
    unfold PIL.resize. rewrite Hwh. rewrite <- Hs1 in Hsmall, Hw, Hh. simpl in *.
    unfold percent_size in Hsmall. simpl in Hsmall.
    destruct (fault env (c_resize _ _)) as [e|] eqn:Hf2.
    { exists e. split; [done |]. intros Hff. by rewrite Hff in Hf2. }
    rewrite bool_decide_false by (intros [= E1 E2]; lia).
    simpl.
    assert (((int_truediv (width * val rp) 100 <? 1)
             || (int_truediv (height * val rp) 100 <? 1)) = true) as ->.
    { apply orb_true_iff. rewrite !Z.ltb_lt. done. }
    eexists. split; [reflexivity | done]. }
  exists (exc_str e). split.
  - rewrite (compress_image_enters_try env t w) by (by rewrite Hst).
    by rewrite try_except_run, Htry.
  - intros Hff. by rewrite (He Hff).
Qed.

Lemma resize_to_nothing_fails_witness :
  ∃ msg,
    compress_image env_ref tiny_task world_photos =
      (Return (Some ("Error compressing " +:+ os_path.basename (t_input_path tiny_task)
                     +:+ ": " +:+ msg)), world_photos) ∧
    (fault_free env_ref → msg = "height and width must be > 0").
Proof.
  apply (resize_to_nothing_fails env_ref tiny_task world_photos 10240 cat_png).
  - reflexivity.
  - reflexivity.
  - simpl. lia.
  - simpl. lia.
  - left. vm_compute. reflexivity.
Defined.

(** X4.  The line of a job that went through names the two files by their
    base names and gives, in the format of [get_file_size], the size the
    input had when the job started and the size of the file the job wrote
    at the output path. *)
Theorem success_line_reports_sizes env t w line w' :
  compress_image env t w = (Return (Some line), w') →
  is_success_line line = true →
  ∃ n src n' out,
    os.stat w (t_input_path t) = Some (File n (Some src)) ∧
    os.stat w' (t_output_path t) = Some (File n' (Some out)) ∧
    line = "  - Input: " +:+ os_path.basename (t_input_path t)
           +:+ " (" +:+ size_text n +:+ ") -> Output: "
           +:+ os_path.basename (t_output_path t)
           +:+ " (" +:+ size_text n' +:+ ")".
Proof.
  intros Hrun Hl. apply compress_image_success_inv in Hrun; [| done].
  apply compress_image_try_inv in Hrun
    as (n & src & img2 & w1 & img3 & f & params
        & Hst & _ & _ & _ & _ & Hc & _ & Htr & Hne & -> & Hr).
  injection Hr as ->.
  exists n, src. do 2 eexists. split; [done |]. split; [| reflexivity].
  rewrite stat_node_at.
  rewrite Htr.
  rewrite (resolve_cwd (set_fs _ w1) w) by done. rewrite node_at_insert by done.
  by rewrite decide_True.
Qed.

Lemma success_line_reports_sizes_witness :
  ∃ n src n' out,
    os.stat world_photos (t_input_path cat_task) = Some (File n (Some src)) ∧
    os.stat (world_after (compress_image env_ref cat_task) world_photos)
            (t_output_path cat_task) = Some (File n' (Some out)) ∧
    "  - Input: cat.png (10.00 KB) -> Output: cat.webp (2.00 KB)"
    = "  - Input: " +:+ os_path.basename (t_input_path cat_task)
      +:+ " (" +:+ size_text n +:+ ") -> Output: "
      +:+ os_path.basename (t_output_path cat_task)
      +:+ " (" +:+ size_text n' +:+ ")".
Proof.
  apply (success_line_reports_sizes env_ref cat_task world_photos).
  - vm_compute. reflexivity.
  - reflexivity.
Defined.

(** X5.  With [use_webp] the file written is WebP whatever the extension
    of the output path: its contents are the WebP encoding, with [optimize]
    set and the quality and method of the task, of an image in the mode of
    the source. *)
Theorem webp_whatever_the_extension env t w line w' :
  t_use_webp t = true →
  compress_image env t w = (Return (Some line), w') →
  is_success_line line = true →
  ∃ n src img o,
    os.stat w (t_input_path t) = Some (File n (Some src)) ∧
    mode img = mode src ∧
    os.stat w' (t_output_path t) =
      Some (File (encoded_size env "WEBP"
                    (mkSaveParams true (Some (t_quality t)) (Some (t_webp_method t))) img)
                 o).
Proof.
  intros Hw Hrun Hl. apply compress_image_success_inv in Hrun; [| done].
  apply compress_image_try_inv in Hrun
    as (n & src & img2 & w1 & img3 & f & params
        & Hst & Hm & _ & _ & _ & Hc & Hfmt & Htr & Hne & -> & _).
  rewrite Hw in Hfmt. destruct Hfmt as (-> & -> & ->).
  exists n, src, img2. eexists. split; [done |]. split; [done |].
  rewrite stat_node_at, Htr.
  rewrite (resolve_cwd (set_fs _ w1) w) by done. rewrite node_at_insert by done.
  by rewrite decide_True.
Qed.

Lemma webp_whatever_the_extension_witness :
  ∃ n src img o,
    os.stat world_photos (t_input_path misnamed_task) = Some (File n (Some src)) ∧
    mode img = mode src ∧
    os.stat (world_after (compress_image env_ref misnamed_task) world_photos)
            "photos/small.png" =
      Some (File (encoded_size env_ref "WEBP" (mkSaveParams true (Some 60) (Some 6)) img) o).
Proof.
  apply (webp_whatever_the_extension env_ref misnamed_task world_photos
           "  - Input: cat.png (10.00 KB) -> Output: small.png (2.02 KB)").
  - reflexivity.
  - vm_compute. reflexivity.
  - reflexivity.
Defined.

Lemma post_compress_image_format env (I : World → Prop) (P : World → World → Prop) t :
  (∀ w, P w w) →
  (∀ w1 w2 w3, P w1 w2 → P w2 w3 → P w1 w3) →
  (∀ s, post I P (print s)) →
  post I P (os.makedirs env (os_path.dirname (t_output_path t))) →
  (∀ img params,
     post I P (PIL.save env img (t_output_path t)
                 (if t_use_webp t then Some "webp" else None) params)) →
  post I P (compress_image env t).
Proof.
  intros Hrefl Htrans Hpr Hmk Hsave. unfold compress_image.
  post_seq.
  - destruct (negb _); [by apply post_ret |].
    apply post_fmap. post_skip ltac:(apply read_only_path_exists).
  - intros []; [post_seq; [apply Hpr | intros; by apply post_ret] |].
    apply post_try; [assumption | | intros e; by apply post_ret].
    destruct t as [inp out q uw wm rp md se di]. simpl in *.
    unfold compress_image_try.
    post_seq; [post_skip ltac:(apply read_only_get_file_size) | intros osz].
    post_seq; [post_skip ltac:(apply read_only_open) | intros img].
    post_seq; [post_skip ltac:(apply read_only_pure, pure_strip) | intros img1].
    post_seq; [post_skip ltac:(apply read_only_pure, pure_resize_stage) | intros img2].
    post_seq; [post_skip ltac:(apply read_only_path_exists) | intros present].
    post_seq; [apply post_when; auto | intros []].
    post_seq.
    + destruct uw; [apply Hsave |].
      post_seq; [| intros img3; apply Hsave].
      post_skip ltac:(apply read_only_pure).
      destruct (_ || _); [apply pure_quantize |].
      apply pure_bind; [apply pure_convert | intros; apply pure_quantize].
    + intros []. post_seq; [post_skip ltac:(apply read_only_get_file_size) |].
      intros. by apply post_ret.
Qed.

Lemma only_new_dirs_refl w : only_new_dirs w w.
Proof. split; [done |]. intros k. by left. Qed.

Lemma only_new_dirs_trans w1 w2 w3 :
  only_new_dirs w1 w2 → only_new_dirs w2 w3 → only_new_dirs w1 w3.
Proof.
  intros [Hc1 H1] [Hc2 H2]. split; [congruence |]. intros k.
  destruct (H1 k) as [E1 | [E1 E1']], (H2 k) as [E2 | [E2 E2']].
  - left. congruence.
  - right. by rewrite <- E1.
  - right. by rewrite E2.
  - congruence.
Qed.

Lemma makedirs_only_new_dirs env p w : only_new_dirs w (snd (os.makedirs env p w)).
Proof.
  destruct (makedirs_extends env p [] w) as [Hc H]. split; [done |]. intros k.
  destruct (H k) as [E | [E | (-> & Hd & _)]]; [by left | by right | done].
Qed.

(** X6.  Without [use_webp] the image written is always a palette image,
    encoded with [optimize] alone in the format of the extension of the
    output path, PNG for [.png] in any case of the letters.  An output
    path without extension makes the job fail: it returns an error line
    and, apart from the output directory it may have created, it leaves the
    file system as it was. *)
Theorem palette_when_not_webp env t w :
  t_use_webp t = false →
  (∀ line w',
     compress_image env t w = (Return (Some line), w') →
     is_success_line line = true →
     ∃ f img o,
       mode img = "P" ∧
       os.stat w' (t_output_path t) =
         Some (File (encoded_size env f (mkSaveParams true None None) img) o) ∧
       (Str.lower (snd (os_path.splitext (t_output_path t))) = ".png" → f = "PNG")) ∧
  (snd (os_path.splitext (t_output_path t)) = "" →
   only_new_dirs w (world_after (compress_image env t) w) ∧
   ∀ line w', compress_image env t w = (Return (Some line), w') →
              is_error_line line = true).
Proof.
  intros Hw. split.
  - intros line w' Hrun Hl. apply compress_image_success_inv in Hrun; [| done].
    apply compress_image_try_inv in Hrun
      as (n & src & img2 & w1 & img3 & f & params
          & Hst & _ & _ & _ & _ & Hc & Hfmt & Htr & Hne & -> & _).
    rewrite Hw in Hfmt. destruct Hfmt as (Hm & _ & _ & Hf & ->).
    exists (PIL.upper f), img3. eexists. split; [done |]. split.
    + rewrite stat_node_at, Htr.
      rewrite (resolve_cwd (set_fs _ w1) w) by done. rewrite node_at_insert by done.
      by rewrite decide_True.
    + intros Hext. rewrite Hext in Hf. by injection Hf as <-.
  - intros Hext.
    assert (PIL.EXTENSION (Str.lower (snd (os_path.splitext (t_output_path t)))) = None)
      as Hnone by (by rewrite Hext).
    split.
    + assert (post (λ _, True) only_new_dirs (compress_image env t)) as H; [| by apply H].
      apply post_compress_image_format.
      * apply only_new_dirs_refl.
      * apply only_new_dirs_trans.
      * intros s w1 _. split; [| done]. split; [done |]. intros k. by left.
      * intros w1 _. split; [apply makedirs_only_new_dirs | done].
      * intros img params w1 _. rewrite Hw. unfold PIL.save. rewrite Hnone. simpl.
        split; [apply only_new_dirs_refl | done].
    + intros line w' Hrun.
      apply compress_image_line in Hrun as [_ [[_ Htry] | [He _]]]; [| done].
      apply compress_image_try_inv in Htry
        as (n & src & img2 & w1 & img3 & f & params
            & _ & _ & _ & _ & _ & _ & Hfmt & _).
      rewrite Hw in Hfmt. destruct Hfmt as (_ & _ & _ & Hf & _). congruence.
Qed.

Lemma palette_when_not_webp_witness :
  (∃ f img o,
     mode img = "P" ∧
     os.stat (world_after (compress_image env_ref png_task) world_photos)
             (t_output_path png_task) =
       Some (File (encoded_size env_ref f (mkSaveParams true None None) img) o) ∧
     (Str.lower (snd (os_path.splitext (t_output_path png_task))) = ".png" → f = "PNG")) ∧
  only_new_dirs world_photos (world_after (compress_image env_ref bare_task) world_photos) ∧
  is_error_line "Error compressing cat.png: unknown file extension: " = true.
Proof.
  split; [| split].
  - apply (proj1 (palette_when_not_webp env_ref png_task world_photos eq_refl)
             "  - Input: dog.jpg (1.91 MB) -> Output: dog.png (2.10 KB)").
    + vm_compute. reflexivity.
    + reflexivity.
  - apply (palette_when_not_webp env_ref bare_task world_photos eq_refl). reflexivity.
  - apply (proj2 (proj2 (palette_when_not_webp env_ref bare_task world_photos eq_refl)
                    eq_refl) _
             (world_after (compress_image env_ref bare_task) world_photos)).
    vm_compute. reflexivity.
Defined.

(** ** The worker of the GUI *)

Lemma rcut_None c s : Str.rcut c s = None → Str.contains c s = false.
Proof.
  induction s as [|b s IH]; simpl; [done |].
  destruct (Str.rcut c s) as [[h' t']|]; [done |].
  case_bool_decide; [done |]. intros _. by apply IH.
Qed.

Lemma rcut_tail_no_sep c s h t : Str.rcut c s = Some (h, t) → Str.contains c t = false.
Proof.
  revert h t. induction s as [|a s IH]; intros h t; simpl; [done |].
  destruct (Str.rcut c s) as [[h' t']|] eqn:Hs.
  - intros [= <- <-]. by apply (IH h').
  - case_bool_decide; [| done]. intros [= <- <-]. by apply rcut_None.
Qed.

Lemma basename_no_sep p : no_sep (os_path.basename p) = true.
Proof.
  unfold no_sep, os_path.basename, os_path.cut_sep.
  destruct (Str.rcut os_path.sep p) as [[h t]|] eqn:Hp; simpl.
  - by rewrite (rcut_tail_no_sep _ _ _ _ Hp).
  - by rewrite (rcut_None _ _ Hp).
Qed.

Lemma basename_join d f :
  Str.contains os_path.sep f = false → os_path.basename (os_path.join d f) = f.
Proof.
  intros Hf. unfold os_path.join. rewrite (startswith_sep_no_sep f Hf).
  unfold os_path.basename, os_path.cut_sep.
  destruct (negb (Str.truthy d) || Str.endswith d "/") eqn:Hd.
  - apply orb_prop in Hd as [Hd | Hd].
    + assert (d = "") as ->.
      { apply negb_true_iff in Hd. unfold Str.truthy in Hd.
        apply negb_false_iff, bool_decide_eq_true in Hd. done. }
      rewrite append_nil_l. by rewrite (rcut_no_sep _ _ Hf).
    + destruct (endswith_inv _ _ Hd) as [pre ->].
      rewrite append_assoc, append_cons, append_nil_l.
      change (String "/" f) with (String os_path.sep f).
      by rewrite (rcut_app os_path.sep pre f Hf).
  - rewrite append_cons, append_nil_l.
    change (String "/" f) with (String os_path.sep f).
    by rewrite (rcut_app os_path.sep d f Hf).
Qed.

Lemma worker_output_name_no_sep g :
  Str.contains os_path.sep (worker_output_name g) = false.
Proof.
  unfold worker_output_name. rewrite contains_app.
  pose proof (splitext_no_sep _ (basename_no_sep (g_input_path g))) as H.
  apply negb_true_iff in H. rewrite H. by destruct (g_use_webp g).
Qed.

Lemma app_length (a b : string) :
  String.length (a +:+ b) = (String.length a + String.length b)%nat.
Proof. induction a; str_simpl; simpl; [done | by rewrite IHa]. Qed.

Lemma worker_output_name_proper g :
  worker_output_name g ≠ "" ∧ worker_output_name g ≠ "." ∧ worker_output_name g ≠ "..".
Proof.
  assert (4 ≤ String.length (worker_output_name g))%nat as Hlen.
  { unfold worker_output_name. rewrite app_length. destruct (g_use_webp g); simpl; lia. }
  repeat split; intros E; rewrite E in Hlen; simpl in Hlen; lia.
Qed.

(** The file the worker writes is the child [worker_output_name] of the
    output folder. *)
Lemma resolve_worker_output w g :
  os.resolve w (worker_output_path g) = os.resolve w (g_output_dir g) ++ [worker_output_name g].
Proof.
  destruct (worker_output_name_proper g) as (H1 & H2 & H3).
  by apply resolve_join; [apply worker_output_name_no_sep | | |].
Qed.

Lemma post_compress_image_worker env (I : World → Prop) (P : World → World → Prop) g :
  (∀ w, P w w) →
  (∀ w1 w2 w3, P w1 w2 → P w2 w3 → P w1 w3) →
  (∀ img params,
     post I P (PIL.save env img (worker_output_path g)
                 (Some (if g_use_webp g then "webp" else "png")) params)) →
  post I P (compress_image_worker env g).
Proof.
  intros Hrefl Htrans Hsave.
  destruct g as [inp dir q uw wm rp md se]. unfold worker_output_path, worker_output_name in Hsave.
  simpl in *. unfold compress_image_worker.
  apply post_try; [assumption | | intros e; by apply post_ret].
  post_seq; [post_skip ltac:(apply read_only_open) | intros img].
  post_seq; [post_skip ltac:(apply read_only_pure, pure_strip) | intros img1].
  post_seq.
  { post_skip ltac:(apply read_only_pure).
    destruct (_ && _).
    - destruct (size img1). apply pure_resize.
    - destruct (PIL.truthy md); [apply pure_thumbnail | apply pure_ret]. }
  intros img2. post_seq; [| intros; by apply post_ret].
  destruct uw; [apply Hsave |].
  post_seq.
  { post_skip ltac:(apply read_only_pure).
    destruct (negb _); [apply pure_convert | apply pure_ret]. }
  intros img3. post_seq; [post_skip ltac:(apply read_only_pure, pure_quantize) |].
  intros img4. apply Hsave.
Qed.

Lemma compress_image_worker_returns env g w :
  ∃ line w', compress_image_worker env g w = (Return line, w').
Proof.
  destruct g as [inp dir q uw wm rp md se]. unfold compress_image_worker.
  rewrite try_except_run.
  match goal with
  | |- ∃ _ _, match ?body w with _ => _ end = _ => destruct (body w) as [[s|e] w1]
  end; by do 2 eexists.
Qed.

(** What is known of a job of the GUI by the line it returns. *)
Lemma compress_image_worker_inv env g w line w' :
  compress_image_worker env g w = (Return line, w') →
  (∃ e, line = "ERROR: Compressing " +:+ os_path.basename (g_input_path g)
               +:+ ": " +:+ exc_str e) ∨
  (line = "SUCCESS: " +:+ os_path.basename (g_input_path g) +:+ " -> "
          +:+ worker_output_name g ∧
   ∃ n src img2 img3 params,
     os.stat w (g_input_path g) = Some (File n (Some src)) ∧
     mode img2 = mode src ∧
     info img2 = (if g_strip_exif g then [] else info src) ∧
     (PIL.truthy (g_resize_percentage g) = true → val (g_resize_percentage g) < 100 →
      size img2 = percent_size (size src) (val (g_resize_percentage g))) ∧
     (if g_use_webp g
      then img3 = img2
           ∧ params = mkSaveParams true (Some (g_quality g)) (Some (g_webp_method g))
      else mode img3 = "P" ∧ size img3 = size img2 ∧ info img3 = info img2
           ∧ params = mkSaveParams true None None) ∧
     Str.truthy (worker_output_path g) = true ∧
     os.resolve w (worker_output_path g) ≠ [] ∧
     PIL.node_at w (removelast (os.resolve w (worker_output_path g))) = Some Dir ∧
     w' = set_fs (<[os.resolve w (worker_output_path g) :=
                      File (encoded_size env (if g_use_webp g then "WEBP" else "PNG")
                              params img3)
                           (Some (PIL.decoded_from (if g_use_webp g then "WEBP" else "PNG")
                                    params img3))]> (fs w)) w).
Proof.
  intros Hrun.
  destruct g as [inp dir q uw wm rp md se].
  unfold worker_output_path, worker_output_name. simpl in *.
  unfold compress_image_worker in Hrun. rewrite try_except_run in Hrun.
  match type of Hrun with
  | match ?body w with _ => _ end = _ => destruct (body w) as [[s|e] w1] eqn:Htry
  end.
  2:{ injection Hrun as <- <-. left. by exists e. }
  injection Hrun as -> ->. right.
  apply bind_Return_inv in Htry as (img & w1 & Hopen & Hrun).
  apply open_inv in Hopen as [-> [n Hst]].
  apply bind_Return_inv in Hrun as (img1 & w1 & Hstrip & Hrun).
  assert (w1 = w ∧ img1 = if se then stripped img else img) as [-> ->].
  { unfold PIL.hasattr_info in Hstrip. rewrite andb_true_r in Hstrip. destruct se.
    - by apply strip_inv in Hstrip as [-> ->].
    - by injection Hstrip as <- <-. }
  apply bind_Return_inv in Hrun as (img2 & w1 & Hres & Hrun).
  set (img1 := if se then stripped img else img) in *.
  assert (mode img1 = mode img ∧ info img1 = (if se then [] else info img)
          ∧ size img1 = size img) as (Hm1 & Hi1 & Hs1) by (subst img1; by destruct se).
  assert (w1 = w ∧ mode img2 = mode img1 ∧ info img2 = info img1 ∧
          (PIL.truthy rp = true → val rp < 100 →
           size img2 = percent_size (size img1) (val rp)))
    as (-> & Hm2 & Hi2 & Hs2).
  { destruct (PIL.truthy rp); simpl in Hres.
    - destruct (val rp <? 100) eqn:Hlt.
      + destruct (size img1) as [width height] eqn:Hwh.
        apply resize_inv in Hres as (-> & Hsz & Hm & Hi). done.
      + apply Z.ltb_ge in Hlt.
        assert (w1 = w ∧ mode img2 = mode img1 ∧ info img2 = info img1) as (-> & ? & ?).
        { destruct (PIL.truthy md).
          - by apply thumbnail_inv in Hres as (-> & Hm & Hi).
          - by injection Hres as <- <-. }
        repeat split; try done. intros _ ?. lia.
    - assert (w1 = w ∧ mode img2 = mode img1 ∧ info img2 = info img1) as (-> & ? & ?).
      { destruct (PIL.truthy md).
        - by apply thumbnail_inv in Hres as (-> & Hm & Hi).
        - by injection Hres as <- <-. }
      done. }
  apply bind_Return_inv in Hrun as ([] & w2 & Hsave & Hrun).
  injection Hrun as <- <-.
  set (out := os_path.join dir _) in *.
  assert (os_path.basename out = fst (os_path.splitext (os_path.basename inp))
                                 +:+ (if uw then ".webp" else ".png")) as Hbase.
  { apply basename_join.
    apply (worker_output_name_no_sep (mkWorkerTask inp dir q uw wm rp md se)). }
  split; [by rewrite Hbase |].
  assert (∀ img3 f params w0,
    PIL.save env img3 out (Some f) params w = (Return tt, w0) →
    Str.truthy out = true ∧ os.resolve w out ≠ [] ∧
    PIL.node_at w (removelast (os.resolve w out)) = Some Dir ∧
    w0 = set_fs (<[os.resolve w out :=
                     File (encoded_size env (PIL.upper f) params img3)
                          (Some (PIL.decoded_from (PIL.upper f) params img3))]> (fs w)) w)
    as Hsv.
  { intros img3 f params w0 H.
    by apply save_inv_format in H as (f' & <- & Htr & Hne & Hpar & ->). }
  destruct uw.
  - apply Hsv in Hsave as (Htr & Hne & Hpar & ->).
    exists n, img, img2, img2, (mkSaveParams true (Some q) (Some wm)).
    split; [done |]. split; [congruence |]. split; [congruence |].
    split; [intros ? ?; rewrite Hs2 by done; by rewrite Hs1 |]. done.
  - apply bind_Return_inv in Hsave as (img3 & w3 & Hc & Hsave).
    apply bind_Return_inv in Hsave as (img4 & w4 & Hq & Hsave).
    assert (w3 = w ∧ size img3 = size img2 ∧ info img3 = info img2) as (-> & Hs3 & Hi3).
    { destruct (negb _).
      - by apply convert_inv_image in Hc.
      - by injection Hc as <- <-. }
    apply quantize_inv_image in Hq as (-> & Hm4 & Hs4 & Hi4).
    apply Hsv in Hsave as (Htr & Hne & Hpar & ->).
    exists n, img, img2, img4, (mkSaveParams true None None).
    split; [done |]. split; [congruence |]. split; [congruence |].
    split; [intros ? ?; rewrite Hs2 by done; by rewrite Hs1 |].
    split; [| done]. split; [done |]. split; [congruence |]. split; [congruence | done].
Qed.

Lemma save_writes_only env img p format params w :
  writes_only (os.resolve w p) w (snd (PIL.save env img p format params w)).
Proof.
  destruct (save_world env img p format params w)
    as [-> | (n & o & -> & Hne & Hnd)]; [apply writes_only_refl |].
  split; [done |]. intros k'. rewrite node_at_insert by done.
  destruct (decide (os.resolve w p = k')) as [<- | Hne']; [| by left].
  right. split; [done |]. split; [| done].
  destruct (os.resolve w p); [done | exact Hnd].
Qed.

Lemma worker_writes_only env g w :
  writes_only (os.resolve w (g_output_dir g) ++ [worker_output_name g]) w
    (snd (compress_image_worker env g w)).
Proof.
  rewrite <- resolve_worker_output.
  set (k := os.resolve w (worker_output_path g)).
  set (I := λ w', cwd w' = cwd w).
  assert (post I (writes_only k) (compress_image_worker env g)) as H; [| by apply H].
  apply post_compress_image_worker.
  - apply writes_only_refl.
  - apply writes_only_trans.
  - intros img params w1 Hc.
    pose proof (save_writes_only env img (worker_output_path g)
                  (Some (if g_use_webp g then "webp" else "png")) params w1) as H.
    rewrite (resolve_cwd w1 w) in H by done. fold k in H.
    split; [done |]. unfold I. by rewrite (proj1 H).
Qed.

Lemma worker_keeps_console env g w :
  stdout (snd (compress_image_worker env g w)) = stdout w ∧
  stdin (snd (compress_image_worker env g w)) = stdin w.
Proof.
  set (P := λ w w' : World, stdout w' = stdout w ∧ stdin w' = stdin w).
  assert (post (λ _, True) P (compress_image_worker env g)) as H; [| by apply H].
  apply post_compress_image_worker.
  - by intros w1.
  - intros w1 w2 w3 [? ?] [? ?]. split; congruence.
  - intros img params w1 _. split; [| done].
    destruct (save_world env img (worker_output_path g)
                (Some (if g_use_webp g then "webp" else "png")) params w1)
      as [-> | (n & o & -> & _)]; done.
Qed.

(** X7.  [compress_image_worker] never raises and never prints: for every
    job it returns a line, either [SUCCESS] with the base names of the input
    and of the file written, or [ERROR] with the base name of the input and
    the text of the exception; the console and the standard input are as
    they were. *)
Theorem worker_always_reports env g w :
  ∃ line w',
    compress_image_worker env g w = (Return line, w') ∧
    stdout w' = stdout w ∧ stdin w' = stdin w ∧
    (line = "SUCCESS: " +:+ os_path.basename (g_input_path g) +:+ " -> "
            +:+ worker_output_name g
     ∨ ∃ msg, line = "ERROR: Compressing " +:+ os_path.basename (g_input_path g)
                     +:+ ": " +:+ msg).
Proof.
  destruct (compress_image_worker_returns env g w) as (line & w' & Hrun).
  exists line, w'. split; [done |].
  pose proof (worker_keeps_console env g w) as [Ho Hi]. rewrite Hrun in Ho, Hi.
  split; [done |]. split; [done |].
  apply compress_image_worker_inv in Hrun as [[e ->] | [-> _]]; [right; by eexists | by left].
Qed.

(** X8.  [compress_image_worker] writes inside the output folder only, and
    creates no directory: whatever the outcome, the one entry that can
    differ afterwards is the child of the output folder named after the
    input, with the extension of the format; it differs only by being a file
    where there was a file or nothing.  A job that reports [SUCCESS] has
    written that file in a folder that exists. *)
Theorem worker_writes_one_file env g w :
  let w' := world_after (compress_image_worker env g) w in
  let k := os.resolve w (g_output_dir g) ++ [worker_output_name g] in
  cwd w' = cwd w ∧
  (∀ k', k' ≠ k → PIL.node_at w' k' = PIL.node_at w k') ∧
  (PIL.node_at w' k = PIL.node_at w k
   ∨ (os.is_dir (PIL.node_at w k) = false ∧ os.is_file (PIL.node_at w' k) = true)) ∧
  (∀ line, result_of (compress_image_worker env g) w = Return line →
           Str.startswith line "SUCCESS: " = true →
           os.is_file (PIL.node_at w' k) = true ∧
           PIL.node_at w (os.resolve w (g_output_dir g)) = Some Dir).
Proof.
  pose proof (worker_writes_only env g w) as [Hc H]. unfold world_after, result_of. simpl.
  split; [done |].
  split; [intros k' Hk; by destruct (H k') as [-> | (-> & _)] |].
  split.
  { destruct (H (os.resolve w (g_output_dir g) ++ [worker_output_name g]))
      as [-> | (_ & ? & ?)]; [by left | by right]. }
  destruct (compress_image_worker env g w) as [[line0|e] w'] eqn:Hrun; simpl; [| done].
  intros line [= <-] Hl.
  apply compress_image_worker_inv in Hrun as [[e ->] | [_ Hrun]]; [done |].
  destruct Hrun as (n & src & img2 & img3 & params & _ & _ & _ & _ & _ & _ & Hne & Hpar & ->).
  rewrite resolve_worker_output in Hne, Hpar |- *.
  rewrite removelast_last in Hpar. split; [| done].
  rewrite node_at_insert by done. by rewrite decide_True.
Qed.

Lemma save_needs_parent env img p format params w :
  os.is_dir (PIL.node_at w (removelast (os.resolve w p))) = false →
  snd (PIL.save env img p format params w) = w.
Proof.
  intros Hpar. unfold PIL.save.
  destruct (match format with Some f => Some f | None => _ end) as [f|]; [| done].
  destruct (negb (bool_decide _)); [done |].
  destruct (negb (Str.truthy p)); [done |].
  destruct (PIL.node_at w (os.resolve w p)) as [[|n o]|],
           (PIL.node_at w (removelast (os.resolve w p))) as [[|n' o']|]; done.
Qed.

(** X9.  [compress_image_worker] does not create the output folder: when
    the folder it is given is not an existing directory the job reports
    [ERROR] and changes nothing. *)
Theorem worker_needs_output_folder env g w :
  Str.truthy (g_output_dir g) = true →
  os.is_dir (os.stat w (g_output_dir g)) = false →
  ∃ msg,
    compress_image_worker env g w =
      (Return ("ERROR: Compressing " +:+ os_path.basename (g_input_path g)
               +:+ ": " +:+ msg), w).
Proof.
  intros Htr Hd. rewrite stat_node_at, Htr in Hd.
  assert (snd (compress_image_worker env g w) = w) as Hw.
  { set (P := λ w1 w' : World, w' = w1).
    assert (post (λ w1, w1 = w) P (compress_image_worker env g)) as H; [| by apply H].
    apply post_compress_image_worker.
    - by intros w1.
    - intros w1 w2 w3 ? ?. unfold P in *. congruence.
    - intros img params w1 ->. unfold P.
      rewrite save_needs_parent; [done |].
      by rewrite resolve_worker_output, removelast_last. }
  destruct (compress_image_worker env g w) as [[line|e] w'] eqn:Hrun; simpl in Hw; subst w'.
  - apply compress_image_worker_inv in Hrun as Hinv.
    destruct Hinv as [[e ->] | [_ Hinv]]; [by exists (exc_str e) |].
    destruct Hinv as (n & src & img2 & img3 & params & _ & _ & _ & _ & _ & _ & _ & Hpar & _).
    rewrite resolve_worker_output, removelast_last in Hpar. by rewrite Hpar in Hd.
  - destruct (compress_image_worker_returns env g w) as (line & w' & Hrun'). congruence.
Qed.

Lemma worker_needs_output_folder_witness :
  ∃ msg,
    compress_image_worker env_ref lost_worker world_photos =
      (Return ("ERROR: Compressing " +:+ os_path.basename (g_input_path lost_worker)
               +:+ ": " +:+ msg), world_photos).
Proof.
  apply (worker_needs_output_folder env_ref lost_worker world_photos); reflexivity.
Defined.

(** ** The dialogs of [main] *)

Lemma ask_choice_answer junk : ∀ fuel c rest w,
  stdin w = junk ++ c :: rest →
  forallb (λ l, negb (is_choice l)) junk = true →
  is_choice c = true →
  (length junk < fuel)%nat →
  ask_choice fuel w =
    (Return (Str.lower c),
     mkWorld (fs w) (cwd w)
             (stdout w ++ replicate (S (length junk)) CHOICE_PROMPT) rest).
Proof.
  induction junk as [|j junk IH]; intros fuel c rest w Hin Hj Hc Hfuel;
    (destruct fuel as [|fuel]; [simpl in Hfuel; lia |]).
  - simpl ask_choice. rewrite bind_run. unfold fmap, M_fmap, input_. rewrite Hin.
    simpl. unfold is_choice in Hc. rewrite Hc. done.
  - simpl in Hj. apply andb_prop in Hj as [Hj1 Hj].
    simpl ask_choice. rewrite bind_run. unfold fmap, M_fmap, input_ at 1. rewrite Hin.
    simpl. unfold is_choice in Hj1. apply negb_true_iff in Hj1. rewrite Hj1.
    rewrite (IH fuel c rest); [| done | done | done | simpl in Hfuel; lia].
    simpl. by rewrite <- app_assoc.
Qed.

Lemma ask_choice_eof junk : ∀ fuel w,
  stdin w = junk →
  forallb (λ l, negb (is_choice l)) junk = true →
  (length junk < fuel)%nat →
  ask_choice fuel w =
    (Raise (mkExn "EOFError" "EOF when reading a line"),
     mkWorld (fs w) (cwd w)
             (stdout w ++ replicate (S (length junk)) CHOICE_PROMPT) []).
Proof.
  induction junk as [|j junk IH]; intros fuel w Hin Hj Hfuel;
    (destruct fuel as [|fuel]; [simpl in Hfuel; lia |]).
  - simpl ask_choice. rewrite bind_run. unfold fmap, M_fmap, input_. rewrite Hin.
    unfold set_stdout. by rewrite Hin.
  - simpl in Hj. apply andb_prop in Hj as [Hj1 Hj].
    simpl ask_choice. rewrite bind_run. unfold fmap, M_fmap, input_ at 1. rewrite Hin.
    simpl. unfold is_choice in Hj1. apply negb_true_iff in Hj1. rewrite Hj1.
    rewrite (IH fuel); [| done | done | simpl in Hfuel; lia].
    simpl. by rewrite <- app_assoc.
Qed.

(** X11.  Without an input path [main] repeats its question until a line
    of the standard input is [f] or [d], in either case of the letter.  When
    the dialog that follows is cancelled it says so and returns, leaving the
    file system as it was.  When the input ends before such a line comes,
    [main] ends with the [EOFError] of [input]. *)
Theorem main_asks_until_answered env args w :
  Str.truthy (default "" (args_input args)) = false →
  (∀ junk c rest,
     stdin w = junk ++ c :: rest →
     forallb (λ l, negb (is_choice l)) junk = true →
     is_choice c = true →
     (if bool_decide (Str.lower c = "f") then askopenfilename env
      else askdirectory env "Select a Directory of Images") = "" →
     main env args w =
       (Return tt,
        mkWorld (fs w) (cwd w)
          (stdout w ++ replicate (S (length junk)) CHOICE_PROMPT
           ++ [if bool_decide (Str.lower c = "f")
               then "Please select an image file to compress..."
               else "Please select a directory of images to compress...";
               "No input selected. Exiting."])
          rest)) ∧
  (forallb (λ l, negb (is_choice l)) (stdin w) = true →
   main env args w =
     (Raise (mkExn "EOFError" "EOF when reading a line"),
      mkWorld (fs w) (cwd w)
        (stdout w ++ replicate (S (length (stdin w))) CHOICE_PROMPT) [])).
Proof.
  intros Hin. split.
  - intros junk c rest Hstd Hj Hc Hdlg. unfold main. rewrite Hin. simpl negb.
    cbv iota. rewrite !bind_run.
    rewrite (ask_choice_answer junk _ c rest w Hstd Hj Hc)
      by (rewrite Hstd, length_app; simpl; lia).
    destruct (bool_decide (Str.lower c = "f")).
    + rewrite bind_run. unfold print at 1. cbn [negb]. rewrite Hdlg. simpl.
      unfold print. simpl. by rewrite <- !app_assoc.
    + rewrite bind_run. unfold print at 1. cbn [negb]. rewrite Hdlg. simpl.
      unfold print. simpl. by rewrite <- !app_assoc.
  - intros Hj. unfold main. rewrite Hin. simpl negb. cbv iota. rewrite !bind_run.
    by rewrite (ask_choice_eof (stdin w) _ w eq_refl Hj) by lia.
Qed.

Lemma main_asks_until_answered_witness :
  main env_ref no_args (with_stdin ["x"; ""; "D"; "later"] world_photos) =
    (Return tt,
     mkWorld (fs world_photos) (cwd world_photos)
       (replicate 3 CHOICE_PROMPT
        ++ ["Please select a directory of images to compress...";
            "No input selected. Exiting."])
       ["later"]) ∧
  main env_ref no_args (with_stdin ["x"; "file"] world_photos) =
    (Raise (mkExn "EOFError" "EOF when reading a line"),
     mkWorld (fs world_photos) (cwd world_photos) (replicate 3 CHOICE_PROMPT) []).
Proof.
  split.
  - apply (proj1 (main_asks_until_answered env_ref no_args
                    (with_stdin ["x"; ""; "D"; "later"] world_photos) eq_refl)
             ["x"; ""] "D" ["later"]); reflexivity.
  - apply (proj2 (main_asks_until_answered env_ref no_args
                    (with_stdin ["x"; "file"] world_photos) eq_refl)).
    reflexivity.
Defined.

(** ** Batches prepared from a directory *)

Lemma join_nonempty d f : f ≠ "" → os_path.join d f ≠ "".
Proof.
  intros Hf. unfold os_path.join. destruct (Str.startswith f "/"); [done |].
  destruct (_ || _); destruct d; str_simpl; try done; by destruct f.
Qed.

Lemma prepare_tasks_keeps_stdout env args inp out w :
  stdout (snd (prepare_tasks env args inp out w)) = stdout w.
Proof.
  unfold prepare_tasks. rewrite bind_run. unfold os.path_isdir at 1.
  destruct (os.is_dir (os.stat w inp)); [| done].
  rewrite bind_run. unfold os.path_exists at 1. rewrite bind_run.
  destruct (bool_decide (is_Some (os.stat w out))); simpl.
  - rewrite bind_run. pose proof (read_only_listdir env inp w) as H.
    destruct (os.listdir env inp w) as [[names|e] w1]; simpl in *; by subst.
  - pose proof (makedirs_world env out w) as Hmk.
    destruct (os.makedirs env out w) as [[[]|e] w1]; simpl in *.
    + rewrite bind_run. pose proof (read_only_listdir env inp w1) as H.
      destruct (os.listdir env inp w1) as [[names|e] w2]; simpl in *; subst;
        destruct Hmk as [-> | [f ->]]; done.
    + destruct Hmk as [-> | [f ->]]; done.
Qed.

Lemma inputs_kept_job env (tasks : list Task) w1 i (order : list nat) t w r w' :
  NoDup (i :: order) →
  (cwd w = cwd w1 ∧ ∀ t, t ∈ tasks → is_Some (os.stat w (t_input_path t))) →
  tasks !! i = Some t →
  compress_image env t w = (Return r, w') →
  (cwd w' = cwd w1 ∧ ∀ t, t ∈ tasks → is_Some (os.stat w' (t_input_path t))) ∧
  ∃ line, r = Some line ∧ reported line.
Proof.
  intros _ [Hc Hin] Ht Hrun.
  pose proof (compress_image_extends env t w) as Hext. rewrite Hrun in Hext. simpl in Hext.
  split.
  - split; [by rewrite (proj1 Hext) |]. intros t' Ht'.
    by apply (extends_except_stat _ _ _ _ Hext), Hin.
  - assert (is_Some (os.stat w (t_input_path t))) as Hs.
    { apply Hin. by eapply list_elem_of_lookup_2. }
    destruct (compress_image_not_skipped env t w Hs) as (line & w'' & Hrun').
    rewrite Hrun' in Hrun. injection Hrun as <- <-.
    exists line. split; [done |].
    apply compress_image_line in Hrun' as [_ [[? _] | [? _]]]; [by left | by right].
Qed.

Lemma reported_lines (tasks : list Task) : ∀ results,
  Forall (λ r, ∃ line, r = Some line ∧ reported line) results →
  Forall reported (concat (zip_with job_lines tasks results)).
Proof.
  induction tasks as [|t tasks IH]; intros [|r results] Hr; simpl; try done.
  inversion Hr as [|? ? (line & -> & Hl) Hr']; subst.
  unfold job_lines at 1. simpl. constructor; [done | by apply IH].
Qed.

Lemma execute_reports env args (tasks : list Task) w1 :
  (∀ t, t ∈ tasks → is_Some (os.stat w1 (t_input_path t))) →
  Permutation (completion_order env (length tasks)) (seq 0 (length tasks)) →
  ∃ printed w',
    execute env args tasks w1 = (Return tt, w') ∧
    length printed = length tasks ∧
    stdout w' = stdout w1
      ++ ("Starting compression for " +:+ pretty (length tasks) +:+ " image(s)...")
         :: (if (1 <? length tasks)%nat && negb (args_no_parallel args)
             then ["Using " +:+ pretty (cpu_count env)
                   +:+ " CPU cores for parallel processing..."]
             else [])
      ++ printed ++ [String "010" "Compression complete."] ∧
    Forall reported printed.
Proof.
  intros Hin Hperm. unfold execute. rewrite bind_run. unfold print at 1.
  rewrite bind_run.
  set (w0 := set_stdout _ w1).
  set (I := λ (_ : list nat) (w : World),
              cwd w = cwd w1 ∧ ∀ t, t ∈ tasks → is_Some (os.stat w (t_input_path t))).
  set (Q := λ (_ : nat) (r : option string), ∃ line, r = Some line ∧ reported line).
  assert (∀ order, I order w0) as Hstart by (intros; by split).
  assert (∀ order lines w, I order w → I order (set_stdout (stdout w ++ lines) w)) as Hpr
    by (by intros ? ? ? [? ?]).
  destruct ((1 <? length tasks)%nat && negb (args_no_parallel args)).
  - destruct (run_parallel_spec env tasks I Q w0 (inputs_kept_job env tasks w1)
                Hpr Hperm (Hstart _))
      as (emitted & lines & w' & Hrun & _ & Hout & Hlines & Hidx & HQ).
    rewrite bind_run, Hrun. simpl.
    assert (length (map snd emitted) = length tasks) as Hlen.
    { by rewrite length_map, <- (length_map fst), Hidx, length_seq. }
    exists lines. eexists. split; [reflexivity |].
    split; [| split].
    + rewrite Hlines. apply job_lines_count; [done |].
      apply Forall_fmap. eapply Forall_impl; [exact HQ |]. by intros ir [? _].
    + simpl. rewrite Hout. subst w0. simpl. by rewrite <- !app_assoc.
    + rewrite Hlines. apply reported_lines.
      apply Forall_fmap. eapply Forall_impl; [exact HQ |]. by intros ir [_ ?].
  - destruct (run_sequential_spec env tasks I Q (inputs_kept_job env tasks w1)
                Hpr tasks 0 w0 eq_refl (Hstart _))
      as (results & w' & Hrun & _ & Hout & Hlen & Hok & HQ).
    rewrite bind_run, Hrun. simpl.
    exists (concat (zip_with job_lines tasks results)). eexists. split; [reflexivity |].
    split; [by apply job_lines_count | split].
    + simpl. rewrite Hout. subst w0. simpl. by rewrite <- !app_assoc.
    + apply reported_lines. apply Forall_lookup. intros j r Hj. by apply (HQ j).
Qed.

(** X12.  When [main] is given a directory and every image the directory
    lists leads to an entry at the time the batch starts (no name is a
    symbolic link to nothing), no job of the batch is skipped, since no job
    removes the input of another.  Either the preparation fails, and [main]
    ends with that exception before it has printed anything, or it prints
    its banner, then for every job a line that reports the job or its
    failure, then the completion line. *)
Theorem directory_batch_skips_nothing env args input_path output_path w :
  args_input args = Some input_path →
  args_output args = Some output_path →
  Str.truthy output_path = true →
  os.is_dir (os.stat w input_path) = true →
  (∀ tasks w1,
     prepare_tasks env args input_path output_path w = (Return tasks, w1) →
     ∀ t, t ∈ tasks → is_Some (lookup_path w1 (t_input_path t))) →
  (∀ n, Permutation (completion_order env n) (seq 0 n)) →
  (∃ e w', main env args w = (Raise e, w') ∧ stdout w' = stdout w) ∨
  (∃ printed cores w',
     main env args w = (Return tt, w') ∧
     stdout w' = stdout w
       ++ ("Starting compression for " +:+ pretty (length printed) +:+ " image(s)...")
          :: cores ++ printed ++ [String "010" "Compression complete."] ∧
     (cores = [] ∨
      cores = ["Using " +:+ pretty (cpu_count env)
               +:+ " CPU cores for parallel processing..."]) ∧
     Forall reported printed).
Proof.
  intros Hi Ho Hto Hd Hfound Hperm.
  assert (Str.truthy input_path = true) as Hti.
  { unfold os.stat in Hd. by destruct (Str.truthy input_path). }
  rewrite (main_with_paths env args input_path output_path w Hi Ho Hti Hto), bind_run.
  pose proof (prepare_tasks_keeps_stdout env args input_path output_path w) as Hout.
  destruct (prepare_tasks env args input_path output_path w) as [[tasks|e] w1] eqn:Hprep;
    simpl in Hout.
  2:{ left. by exists e, w1. }
  right.
  assert (∀ t, t ∈ tasks → is_Some (os.stat w1 (t_input_path t))) as Hin.
  { intros t Ht. destruct (Hfound tasks w1 eq_refl t Ht) as [n Hn].
    rewrite (lookup_path_stat _ _ _ Hn). by eexists. }
  destruct (execute_reports env args tasks w1 Hin (Hperm _))
    as (printed & w' & Hrun & Hlen & Hstd & Hrep).
  exists printed. eexists. exists w'. split; [done |].
  split; [by rewrite Hstd, Hout, Hlen |].
  split; [| done]. destruct (_ && _); [by right | by left].
Qed.

Lemma directory_batch_skips_nothing_witness :
  (∃ printed cores w',
     main env_ref (default_args "photos" "out") world_photos = (Return tt, w') ∧
     stdout w' = stdout world_photos
       ++ ("Starting compression for " +:+ pretty (length printed) +:+ " image(s)...")
          :: cores ++ printed ++ [String "010" "Compression complete."] ∧
     (cores = [] ∨
      cores = ["Using " +:+ pretty (cpu_count env_ref)
               +:+ " CPU cores for parallel processing..."]) ∧
     Forall reported printed).
Proof.
  destruct (directory_batch_skips_nothing env_ref (default_args "photos" "out")
              "photos" "out" world_photos) as [(e & w' & H & _) | H];
    try reflexivity.
  - intros tasks w1 Hprep. vm_compute in Hprep. injection Hprep as <- <-.
    intros t Ht. apply (bool_decide_unpack _).
    repeat (apply elem_of_cons in Ht as [-> | Ht]; [vm_compute; exact I |]).
    by apply elem_of_nil in Ht.
  - intros n. simpl. symmetry. apply Permutation_rev.
  - vm_compute in H. discriminate.
  - exact H.
Defined.

Lemma makedirs_keeps_existing env p w k :
  is_Some (PIL.node_at w k) →
  PIL.node_at (snd (os.makedirs env p w)) k = PIL.node_at w k.
Proof.
  intros Hs. destruct (makedirs_only_new_dirs env p w) as [_ H].
  destruct (H k) as [E | [E _]]; [done |]. rewrite E in Hs. by destruct Hs.
Qed.

Lemma prepare_tasks_keeps_existing env args inp out w r w1 :
  prepare_tasks env args inp out w = (r, w1) →
  cwd w1 = cwd w ∧
  ∀ k, is_Some (PIL.node_at w k) → PIL.node_at w1 k = PIL.node_at w k.
Proof.
  unfold prepare_tasks. rewrite bind_run. unfold os.path_isdir at 1.
  destruct (os.is_dir (os.stat w inp)); [| by intros [= _ <-]].
  rewrite bind_run. unfold os.path_exists at 1. rewrite bind_run.
  destruct (bool_decide (is_Some (os.stat w out))); simpl.
  - rewrite bind_run. pose proof (read_only_listdir env inp w) as H.
    destruct (os.listdir env inp w) as [[names|e] w2]; simpl in *; subst;
      by intros [= _ <-].
  - pose proof (makedirs_keeps_existing env out w) as Hmk.
    pose proof (makedirs_cwd env out w) as Hc.
    destruct (os.makedirs env out w) as [[[]|e] w2]; simpl in *;
      specialize (Hc _ _ eq_refl).
    + rewrite bind_run. pose proof (read_only_listdir env inp w2) as H.
      destruct (os.listdir env inp w2) as [[names|e] w3]; simpl in *; subst;
        by intros [= _ <-].
    + by intros [= _ <-].
Qed.

(** Every job prepared from a directory writes a child of the output
    directory. *)
Lemma prepared_outputs env args inp out w tasks w1 :
  keys_ok w →
  os.is_dir (os.stat w inp) = true →
  prepare_tasks env args inp out w = (Return tasks, w1) →
  ∀ t, t ∈ tasks → removelast (os.resolve w1 (t_output_path t)) = os.resolve w1 out.
Proof.
  intros Hok Hd Hrun.
  destruct (prepare_tasks_directory env args inp out w tasks w1 Hd Hrun)
    as [Hcase (names & Hls & ->)].
  assert (keys_ok w1) as Hok1.
  { destruct Hcase as [[_ ->] | [_ Hmk]]; [done | by eapply makedirs_keys_ok]. }
  apply (listdir_names env inp w1 names w1 Hok1) in Hls as [_ Hnames].
  intros t (name & -> & Hin)%list_elem_of_fmap. simpl.
  apply list_elem_of_filter in Hin as [_ Hin].
  rewrite Forall_forall in Hnames. specialize (Hnames name Hin).
  set (f := _ +:+ _).
  assert (Str.contains os_path.sep f = false) as Hf.
  { subst f. rewrite contains_app.
    apply splitext_no_sep in Hnames. apply negb_true_iff in Hnames. rewrite Hnames.
    by destruct (negb _). }
  assert (4 ≤ String.length f)%nat as Hlen.
  { subst f. rewrite app_length. destruct (negb _); simpl; lia. }
  rewrite resolve_join; [by rewrite removelast_last | done | | |];
    intros E; rewrite E in Hlen; simpl in Hlen; lia.
Qed.

Lemma outside_kept_job env (tasks : list Task) w1 d
    (Hout : ∀ t, t ∈ tasks → removelast (os.resolve w1 (t_output_path t)) = d)
    i (order : list nat) t w r w' :
  NoDup (i :: order) →
  (cwd w = cwd w1 ∧
   (∀ t, t ∈ tasks → is_Some (os.stat w (os_path.dirname (t_output_path t)))) ∧
   ∀ k, removelast k ≠ d → PIL.node_at w k = PIL.node_at w1 k) →
  tasks !! i = Some t →
  compress_image env t w = (Return r, w') →
  (cwd w' = cwd w1 ∧
   (∀ t, t ∈ tasks → is_Some (os.stat w' (os_path.dirname (t_output_path t)))) ∧
   ∀ k, removelast k ≠ d → PIL.node_at w' k = PIL.node_at w1 k) ∧ True.
Proof.
  intros _ (Hc & Hdirs & Hk) Ht Hrun. split; [| done].
  assert (t ∈ tasks) as Hin by (by eapply list_elem_of_lookup_2).
  pose proof (compress_image_frame env t w (Hdirs t Hin)) as Hw.
  rewrite Hrun in Hw. simpl in Hw.
  split; [by rewrite (proj1 Hw) |]. split.
  - intros t' Ht'. by apply (writes_only_stat _ _ _ _ Hw), Hdirs.
  - intros k Hne. rewrite <- Hk by done. apply (writes_only_other _ _ _ _ Hw).
    intros ->. apply Hne. rewrite (resolve_cwd w w1) by done. by apply Hout.
Qed.

Lemma execute_writes_in_output_only env args (tasks : list Task) w1 d r w' :
  (∀ t, t ∈ tasks → removelast (os.resolve w1 (t_output_path t)) = d) →
  (∀ t, t ∈ tasks → is_Some (os.stat w1 (os_path.dirname (t_output_path t)))) →
  Permutation (completion_order env (length tasks)) (seq 0 (length tasks)) →
  execute env args tasks w1 = (r, w') →
  cwd w' = cwd w1 ∧
  ∀ k, removelast k ≠ d → PIL.node_at w' k = PIL.node_at w1 k.
Proof.
  intros Hout Hdirs Hperm. unfold execute.
  rewrite bind_run. unfold print at 1. rewrite bind_run.
  set (w0 := set_stdout _ w1).
  set (I := λ (_ : list nat) (w : World),
     cwd w = cwd w1 ∧
     (∀ t, t ∈ tasks → is_Some (os.stat w (os_path.dirname (t_output_path t)))) ∧
     ∀ k, removelast k ≠ d → PIL.node_at w k = PIL.node_at w1 k).
  assert (∀ order, I order w0) as Hstart
    by (intros; split; [done | split; [exact Hdirs | done]]).
  assert (∀ order lines w, I order w → I order (set_stdout (stdout w ++ lines) w)) as Hpr
    by (intros ? ? ? (H1 & H2 & H3); split; [exact H1 | split; [exact H2 | exact H3]]).
  destruct ((1 <? length tasks)%nat && negb (args_no_parallel args)).
  - destruct (run_parallel_spec env tasks I (λ _ _, True) w0
                (outside_kept_job env tasks w1 d Hout) Hpr Hperm (Hstart _))
      as (emitted & lines & w2 & Hrun & (Hc & _ & Hk) & _).
    rewrite bind_run, Hrun. simpl. by intros [= _ <-].
  - destruct (run_sequential_spec env tasks I (λ _ _, True)
                (outside_kept_job env tasks w1 d Hout) Hpr tasks 0 w0 eq_refl (Hstart _))
      as (results & w2 & Hrun & (Hc & _ & Hk) & _).
    rewrite bind_run, Hrun. simpl. by intros [= _ <-].
Qed.

(** X13.  When [main] is given a directory, whatever happens it leaves
    every existing entry that is not directly inside the output directory
    exactly as it was: the jobs write children of the output directory and
    nothing else, and the preparation only creates directories. *)
Theorem directory_batch_writes_in_output_only env args input_path output_path w k :
  args_input args = Some input_path →
  args_output args = Some output_path →
  Str.truthy output_path = true →
  wf_world w = true →
  os.is_dir (os.stat w input_path) = true →
  (∀ n, Permutation (completion_order env n) (seq 0 n)) →
  is_Some (PIL.node_at w k) →
  removelast k ≠ os.resolve w output_path →
  PIL.node_at (world_after (main env args) w) k = PIL.node_at w k.
Proof.
  intros Hi Ho Hto Hwf Hd Hperm Hs Hne.
  assert (Str.truthy input_path = true) as Hti.
  { unfold os.stat in Hd. by destruct (Str.truthy input_path). }
  unfold world_after.
  rewrite (main_with_paths env args input_path output_path w Hi Ho Hti Hto), bind_run.
  destruct (prepare_tasks env args input_path output_path w) as [[tasks|e] w1] eqn:Hprep;
    pose proof (prepare_tasks_keeps_existing _ _ _ _ _ _ _ Hprep) as [Hc Hkeep];
    [| by apply Hkeep].
  pose proof (wf_world_keys_ok w Hwf) as Hok.
  pose proof (prepared_outputs env args input_path output_path w tasks w1 Hok Hd Hprep)
    as Hout.
  pose proof (prepared_dirs_exist env args input_path output_path w tasks w1 Hok Hd Hprep)
    as Hdirs.
  destruct (execute env args tasks w1) as [r w2] eqn:Hex.
  destruct (execute_writes_in_output_only env args tasks w1 _ r w2 Hout Hdirs (Hperm _) Hex)
    as [_ Hk].
  simpl. rewrite Hk by (by rewrite (resolve_cwd w1 w)). by apply Hkeep.
Qed.

Lemma directory_batch_writes_in_output_only_witness :
  PIL.node_at (world_after (main env_ref (default_args "photos" "out")) world_photos)
              ["photos"; "cat.png"]
  = PIL.node_at world_photos ["photos"; "cat.png"].
Proof.
  apply (directory_batch_writes_in_output_only env_ref (default_args "photos" "out")
           "photos" "out" world_photos); try reflexivity.
  - intros n. simpl. symmetry. apply Permutation_rev.
  - by eexists.
  - vm_compute. discriminate.
Defined.

(** ** A single input *)

(** X14.  Given a path that is not a directory, [main] makes one job of
    it, whether or not the path names anything, and runs it in the main
    process whatever [--no-parallel] says: it prints the banner for one
    image, the one line of the job (printed by the job itself when it is
    skipped, by [main] otherwise) and the completion line, and changes
    nothing else of what the job leaves. *)
Theorem single_input_runs_alone env args input_path output_path w :
  args_input args = Some input_path →
  args_output args = Some output_path →
  Str.truthy input_path = true →
  Str.truthy output_path = true →
  os.is_dir (os.stat w input_path) = false →
  ∃ r w1,
    compress_image env (task_for args input_path output_path)
      (set_stdout (stdout w ++ ["Starting compression for 1 image(s)..."]) w)
    = (Return r, w1) ∧
    stdout w1 = stdout w ++ ["Starting compression for 1 image(s)..."]
                ++ worker_lines (task_for args input_path output_path) r ∧
    length (job_lines (task_for args input_path output_path) r) = 1%nat ∧
    main env args w =
      (Return tt,
       set_stdout (stdout w1 ++ orchestrator_lines r
                   ++ [String "010" "Compression complete."]) w1).
Proof.
  intros Hi Ho Hti Hto Hd.
  rewrite (main_with_paths env args input_path output_path) by done.
  rewrite bind_run, prepare_tasks_single by done.
  set (t := task_for args input_path output_path).
  unfold execute. rewrite bind_run. simpl.
  unfold print at 1. simpl.
  rewrite bind_run. simpl. rewrite bind_run. simpl.
  rewrite bind_run.
  set (w0 := set_stdout _ w).
  destruct (compress_image_output env t w0) as (r & w1 & Hrun & Hout & Hr).
  exists r, w1. rewrite Hrun.
  split; [done |]. split; [rewrite Hout; subst w0; simpl; by rewrite <- app_assoc |].
  split.
  { unfold job_lines. destruct Hr as [-> | Hr]; [done |]. destruct r; [done | discriminate]. }
  rewrite bind_run, (when_truthy_print r w1 Hr). simpl.
  unfold print. simpl. by rewrite <- app_assoc.
Qed.

Lemma single_input_runs_alone_witness :
  ∃ r w1,
    compress_image env_ref
      (task_for (default_args "photos/cat.png" "out/cat.webp") "photos/cat.png" "out/cat.webp")
      (set_stdout (stdout world_photos ++ ["Starting compression for 1 image(s)..."])
                  world_photos)
    = (Return r, w1) ∧
    stdout w1 = stdout world_photos ++ ["Starting compression for 1 image(s)..."]
                ++ worker_lines
                     (task_for (default_args "photos/cat.png" "out/cat.webp")
                        "photos/cat.png" "out/cat.webp") r ∧
    length (job_lines
              (task_for (default_args "photos/cat.png" "out/cat.webp")
                 "photos/cat.png" "out/cat.webp") r) = 1%nat ∧
    main env_ref (default_args "photos/cat.png" "out/cat.webp") world_photos =
      (Return tt,
       set_stdout (stdout w1 ++ orchestrator_lines r
                   ++ [String "010" "Compression complete."]) w1).
Proof.
  apply (single_input_runs_alone env_ref (default_args "photos/cat.png" "out/cat.webp")
           "photos/cat.png" "out/cat.webp" world_photos); reflexivity.
Defined.

(** X15.  With an input but no output path [main] opens a dialog: one for
    a directory when the input is a directory, otherwise a save dialog that
    proposes the base name of the input without its extension, with the
    extension of the chosen format.  When the dialog is cancelled [main]
    says so and returns without having looked at the input or changed
    anything but the console. *)
Theorem main_cancelled_output env args input_path w :
  args_input args = Some input_path →
  Str.truthy input_path = true →
  Str.truthy (default "" (args_output args)) = false →
  (if os.is_dir (os.stat w input_path)
   then askdirectory env "Save Compressed Images To..."
   else asksaveasfilename env
          (fst (os_path.splitext (os_path.basename input_path)))
          (if args_no_webp args then ".png" else ".webp")) = "" →
  main env args w =
    (Return tt,
     set_stdout (stdout w
                 ++ [if os.is_dir (os.stat w input_path)
                     then "Please choose an output directory..."
                     else "Please choose where to save the compressed file...";
                     "No output location chosen. Exiting."]) w).
Proof.
  intros Hi Hti Hto Hdlg. unfold main. rewrite Hi. simpl default. rewrite Hti, Hto.
  simpl negb. cbv iota. rewrite bind_run.
  unfold mret at 1, M_ret at 1. cbv iota beta.
  rewrite Hti. change (negb true) with false. cbv iota.
  rewrite !bind_run. unfold os.path_isdir at 1.
  destruct (os.is_dir (os.stat w input_path)).
  - rewrite bind_run. unfold print at 1.
    unfold mret, M_ret. cbv iota beta.
    rewrite Hdlg. unfold print, set_stdout. simpl. by rewrite <- app_assoc.
  - rewrite bind_run. unfold print at 1.
    unfold mret, M_ret. cbv iota beta.
    assert ((if negb (args_no_webp args) then ".webp" else ".png")
            = (if args_no_webp args then ".png" else ".webp")) as ->
      by (by destruct (args_no_webp args)).
    rewrite Hdlg. unfold print, set_stdout. simpl. by rewrite <- app_assoc.
Qed.

Lemma main_cancelled_output_witness :
  main env_ref (input_only "photos/cat.png") world_photos =
    (Return tt,
     set_stdout (stdout world_photos
                 ++ [if os.is_dir (os.stat world_photos "photos/cat.png")
                     then "Please choose an output directory..."
                     else "Please choose where to save the compressed file...";
                     "No output location chosen. Exiting."]) world_photos).
Proof.
  apply (main_cancelled_output env_ref (input_only "photos/cat.png")
           "photos/cat.png" world_photos); reflexivity.
Defined.

(** ** The window of the GUI: the list of files *)

Lemma G_bind_run {A B} (m : G A) (f : A → G B) d :
  (m ≫= f) d = match m d with
               | (Return a, d') => f a d'
               | (Raise e, d') => (Raise e, d')
               end.
Proof. reflexivity. Qed.

Lemma set_self_self d : set_self (self d) d = d.
Proof. by destruct d. Qed.

Lemma set_self_twice a a' d : set_self a' (set_self a d) = set_self a' d.
Proof. done. Qed.

Lemma add_entry_body p name d :
  (listed ← attr (λ a, bool_decide (p ∈ file_list a));
   if_then (negb listed)
     (assign (file_list_append p);; assign (listbox_insert_end name))) d
  = (Return tt, set_self (add_entry p name (self d)) d).
Proof.
  rewrite G_bind_run. unfold attr at 1, add_entry.
  destruct (bool_decide (p ∈ file_list (self d))); simpl.
  - by rewrite set_self_self.
  - done.
Qed.

Lemma add_entry_run p name (rest : G unit) d :
  (listed ← attr (λ a, bool_decide (p ∈ file_list a));
   if_then (negb listed)
     (assign (file_list_append p);; assign (listbox_insert_end name));;
   rest) d
  = rest (set_self (add_entry p name (self d)) d).
Proof.
  rewrite G_bind_run. unfold attr at 1, add_entry.
  destruct (bool_decide (p ∈ file_list (self d))); simpl.
  - by rewrite set_self_self.
  - done.
Qed.

Lemma add_files_loop_run files : ∀ d,
  add_files_loop files d = (Return tt, set_self (add_all files (self d)) d).
Proof.
  induction files as [|f files IH]; intros d.
  - simpl. by rewrite set_self_self.
  - simpl add_files_loop. rewrite add_entry_run, IH. done.
Qed.

Lemma add_folder_loop_cons folder name names d :
  add_folder_loop folder (name :: names) d
  = (if_then (is_image_name name)
       (listed ← attr (λ a, bool_decide (os_path.join folder name ∈ file_list a));
        if_then (negb listed)
          (assign (file_list_append (os_path.join folder name));;
           assign (listbox_insert_end name)));;
     add_folder_loop folder names) d.
Proof. reflexivity. Qed.

Lemma add_folder_loop_run folder names : ∀ d,
  add_folder_loop folder names d
  = (Return tt, set_self (add_names folder names (self d)) d).
Proof.
  induction names as [|name names IH]; intros d.
  - simpl. by rewrite set_self_self.
  - rewrite add_folder_loop_cons, G_bind_run.
    unfold add_names. simpl foldl. fold (add_names folder names).
    destruct (is_image_name name); unfold if_then at 1.
    + rewrite add_entry_body. by rewrite IH.
    + simpl. by rewrite IH.
Qed.

Lemma add_entry_controls p name a : same_controls a (add_entry p name a).
Proof. unfold add_entry. destruct (bool_decide _); by repeat split. Qed.

Lemma same_controls_trans a b c :
  same_controls a b → same_controls b c → same_controls a c.
Proof.
  unfold same_controls. intros (?&?&?&?&?&?&?&?&?&?) (?&?&?&?&?&?&?&?&?&?).
  repeat split; congruence.
Qed.

Lemma add_entry_elem p name a x :
  x ∈ file_list (add_entry p name a) ↔ x ∈ file_list a ∨ x = p.
Proof.
  unfold add_entry. case_bool_decide as Hp; simpl.
  - split; [by left |]. intros [? | ->]; done.
  - rewrite elem_of_app, list_elem_of_singleton. done.
Qed.

Lemma add_entry_prefix p name a : file_list a `prefix_of` file_list (add_entry p name a).
Proof.
  unfold add_entry. destruct (bool_decide _); simpl; [done |]. by apply prefix_app_r.
Qed.

Lemma add_entry_in_step p name a :
  os_path.basename p = name → list_in_step a → list_in_step (add_entry p name a).
Proof.
  intros Hb [Hnd Hlb]. unfold add_entry. case_bool_decide as Hp; [done |].
  unfold list_in_step, listbox_insert_end, file_list_append. simpl.
  split.
  - apply NoDup_app. split; [done |]. split; [| apply NoDup_singleton].
    intros x Hx ->%list_elem_of_singleton. done.
  - by rewrite Hlb, map_app, <- Hb.
Qed.

Lemma add_entry_listed p name a : p ∈ file_list a → add_entry p name a = a.
Proof. intros Hp. unfold add_entry. by rewrite bool_decide_true. Qed.

Lemma add_all_spec files : ∀ a,
  same_controls a (add_all files a) ∧
  file_list a `prefix_of` file_list (add_all files a) ∧
  (∀ x, x ∈ file_list (add_all files a) ↔ x ∈ file_list a ∨ x ∈ files) ∧
  (list_in_step a → list_in_step (add_all files a)).
Proof.
  induction files as [|f files IH]; intros a.
  - simpl. split; [by repeat split |]. split; [done |]. split; [| done].
    intros x. rewrite elem_of_nil. tauto.
  - unfold add_all. simpl foldl. fold (add_all files).
    destruct (IH (add_entry f (os_path.basename f) a)) as (Hc & Hp & He & Hs).
    split; [eapply same_controls_trans; [apply add_entry_controls | done] |].
    split; [etrans; [apply add_entry_prefix | done] |].
    split.
    + intros x. rewrite He, add_entry_elem, elem_of_cons. tauto.
    + intros Ha. by apply Hs, add_entry_in_step.
Qed.

Lemma add_all_listed files : ∀ a,
  (∀ f, f ∈ files → f ∈ file_list a) → add_all files a = a.
Proof.
  induction files as [|f files IH]; intros a Hin; [done |].
  unfold add_all. simpl foldl. fold (add_all files).
  rewrite add_entry_listed by (apply Hin; left).
  apply IH. intros x Hx. apply Hin. by right.
Qed.

Lemma add_names_spec folder names : ∀ a,
  same_controls a (add_names folder names a) ∧
  file_list a `prefix_of` file_list (add_names folder names a) ∧
  (∀ x, x ∈ file_list (add_names folder names a) ↔
        x ∈ file_list a ∨
        ∃ name, name ∈ names ∧ is_image_name name = true ∧ x = os_path.join folder name) ∧
  (Forall (λ c, no_sep c = true) names → list_in_step a →
   list_in_step (add_names folder names a)).
Proof.
  induction names as [|name names IH]; intros a.
  - simpl. split; [by repeat split |]. split; [done |]. split; [| done].
    intros x. split; [by left |]. intros [? | (name & Hn & _)]; [done |].
    by apply elem_of_nil in Hn.
  - unfold add_names. simpl foldl. fold (add_names folder names).
    set (a1 := if is_image_name name then _ else a).
    destruct (IH a1) as (Hc & Hp & He & Hs).
    assert (same_controls a a1) as Hc1.
    { subst a1. destruct (is_image_name name); [apply add_entry_controls | by repeat split]. }
    assert (file_list a `prefix_of` file_list a1) as Hp1.
    { subst a1. destruct (is_image_name name); [apply add_entry_prefix | done]. }
    split; [by eapply same_controls_trans |]. split; [by etrans |]. split.
    + intros x. rewrite He. subst a1.
      destruct (is_image_name name) eqn:Himg.
      * rewrite add_entry_elem. split.
        -- intros [[? | ->] | (n & Hn & Hi & ->)]; [by left | right | right].
           ++ exists name. split; [left | done].
           ++ exists n. split; [by right | done].
        -- intros [? | (n & [-> | Hn]%elem_of_cons & Hi & ->)]; [by left; left | |].
           ++ left. by right.
           ++ right. by exists n.
      * split.
        -- intros [? | (n & Hn & Hi & ->)]; [by left |]. right. exists n.
           split; [by right | done].
        -- intros [? | (n & [-> | Hn]%elem_of_cons & Hi & ->)]; [by left | congruence |].
           right. by exists n.
    + intros Hnames Ha. inversion Hnames as [|? ? Hn Hnames']; subst.
      apply Hs; [done |]. subst a1. destruct (is_image_name name); [| done].
      apply add_entry_in_step; [| done]. apply basename_join.
      by apply negb_true_iff in Hn.
Qed.

(** X16.  [add_files] never fails and touches nothing but the list and
    the list box: the files chosen are appended in the order of the dialog,
    each one once and only when it is not listed yet, so the list afterwards
    holds exactly the files listed before and the files chosen; choosing
    the same files again changes nothing. *)
Theorem add_files_adds_each_file_once files d :
  ∃ d',
    add_files files d = (Return tt, d') ∧
    world d' = world d ∧ messagebox d' = messagebox d ∧ threads d' = threads d ∧
    same_controls (self d) (self d') ∧
    file_list (self d) `prefix_of` file_list (self d') ∧
    (∀ f, f ∈ file_list (self d') ↔ f ∈ file_list (self d) ∨ f ∈ files) ∧
    add_files files d' = (Return tt, d').
Proof.
  unfold add_files. rewrite add_files_loop_run. eexists. split; [reflexivity |].
  destruct (add_all_spec files (self d)) as (Hc & Hp & He & _). simpl.
  do 3 (split; [done |]). split; [done |]. split; [done |]. split; [done |].
  rewrite add_files_loop_run. simpl.
  rewrite add_all_listed; [done |]. intros f Hf. apply He. by right.
Qed.

(** X17.  The list box stays in step with the list: when the list holds
    no file twice and the list box shows the base names of its files in
    order, the same holds after [add_files], after [add_folder] on a folder
    of a well-formed file system, and after [clear_list], which empties
    both. *)
Theorem list_stays_in_step env files d :
  list_in_step (self d) →
  (∀ r d', add_files files d = (r, d') → list_in_step (self d')) ∧
  (keys_ok (world d) → ∀ r d', add_folder env d = (r, d') → list_in_step (self d')) ∧
  (∀ r d', clear_list d = (r, d') →
           list_in_step (self d') ∧ file_list (self d') = [] ∧ listbox (self d') = []).
Proof.
  intros Hs. split; [| split].
  - intros r d'. unfold add_files. rewrite add_files_loop_run. intros [= _ <-].
    by apply add_all_spec.
  - intros Hok r d'. unfold add_folder.
    destruct (negb (Str.truthy _)); [by intros [= _ <-] |].
    rewrite G_bind_run. unfold lift at 1.
    destruct (os.listdir env _ (world d)) as [[names|e] w1] eqn:Hls;
      [| by intros [= _ <-]].
    apply (listdir_names _ _ _ _ _ Hok) in Hls as [-> Hnames].
    rewrite add_folder_loop_run. intros [= _ <-]. simpl.
    by apply add_names_spec.
  - intros r d'. unfold clear_list. rewrite G_bind_run. unfold assign. simpl.
    intros [= _ <-]. simpl. split; [| done]. split; [apply NoDup_nil_2 | done].
Qed.

Lemma list_stays_in_step_witness :
  (∀ r d', add_files ["photos/cat.png"; "art/logo.png"] desktop_photos = (r, d') →
           list_in_step (self d')) ∧
  (∀ r d', add_folder env_folder desktop_photos = (r, d') → list_in_step (self d')) ∧
  (∀ r d', clear_list desktop_photos = (r, d') →
           list_in_step (self d') ∧ file_list (self d') = [] ∧ listbox (self d') = []).
Proof.
  destruct (list_stays_in_step env_folder ["photos/cat.png"; "art/logo.png"] desktop_photos)
    as (H1 & H2 & H3).
  { split; [| reflexivity]. apply (bool_decide_unpack _). vm_compute. exact I. }
  split; [exact H1 |]. split; [| exact H3].
  apply H2. apply wf_world_keys_ok. reflexivity.
Defined.

(** X18.  [add_folder] does nothing when the dialog is cancelled, and ends
    with the exception of [os.listdir] when the folder cannot be listed,
    the window being as it was.  Otherwise it appends, for every name of the
    folder that ends like an image (whatever the case of the letters) and
    whose path is not listed yet, the path inside the folder; it looks no
    deeper than the folder itself and leaves the file system alone. *)
Theorem add_folder_lists_images env d :
  (askdirectory env "Select Folder Containing Images" = "" →
   add_folder env d = (Return tt, d)) ∧
  (∀ e w', askdirectory env "Select Folder Containing Images" ≠ "" →
     os.listdir env (askdirectory env "Select Folder Containing Images") (world d)
       = (Raise e, w') →
     add_folder env d = (Raise e, d)) ∧
  (∀ names w', askdirectory env "Select Folder Containing Images" ≠ "" →
     os.listdir env (askdirectory env "Select Folder Containing Images") (world d)
       = (Return names, w') →
     ∃ d',
       add_folder env d = (Return tt, d') ∧
       world d' = world d ∧ messagebox d' = messagebox d ∧ threads d' = threads d ∧
       same_controls (self d) (self d') ∧
       file_list (self d) `prefix_of` file_list (self d') ∧
       ∀ p, p ∈ file_list (self d') ↔
            p ∈ file_list (self d) ∨
            ∃ name, name ∈ names ∧ is_image_name name = true ∧
                    p = os_path.join (askdirectory env "Select Folder Containing Images")
                                     name).
Proof.
  set (folder := askdirectory env "Select Folder Containing Images").
  split; [| split].
  - intros Hf. unfold add_folder. fold folder. by rewrite Hf.
  - intros e w' Hf Hls. unfold add_folder. fold folder.
    assert (Str.truthy folder = true) as -> by (by apply truthy_true).
    simpl. rewrite G_bind_run. unfold lift at 1.
    pose proof (read_only_listdir env folder (world d)) as Hro.
    rewrite Hls in Hro |- *. simpl in Hro. subst w'. by destruct d.
  - intros names w' Hf Hls. unfold add_folder. fold folder.
    assert (Str.truthy folder = true) as -> by (by apply truthy_true).
    simpl. rewrite G_bind_run. unfold lift at 1.
    pose proof (read_only_listdir env folder (world d)) as Hro.
    rewrite Hls in Hro |- *. simpl in Hro. subst w'.
    rewrite add_folder_loop_run. eexists. split; [reflexivity |].
    destruct (add_names_spec folder names (self d)) as (Hc & Hp & He & _).
    simpl. by destruct d.
Qed.

Lemma add_folder_lists_images_witness :
  ∃ d',
    add_folder env_folder desktop_one = (Return tt, d') ∧
    world d' = world desktop_one ∧ messagebox d' = messagebox desktop_one ∧
    threads d' = threads desktop_one ∧
    same_controls (self desktop_one) (self d') ∧
    file_list (self desktop_one) `prefix_of` file_list (self d') ∧
    ∀ p, p ∈ file_list (self d') ↔
         p ∈ file_list (self desktop_one) ∨
         ∃ name, name ∈ ["notes.txt"; "dog.jpg"; "cat.png"] ∧ is_image_name name = true ∧
                 p = os_path.join (askdirectory env_folder "Select Folder Containing Images")
                                  name.
Proof.
  apply (proj2 (proj2 (add_folder_lists_images env_folder desktop_one))
           ["notes.txt"; "dog.jpg"; "cat.png"] world_photos).
  - discriminate.
  - vm_compute. reflexivity.
Defined.

(** The folder [photos] added to a list that holds [cat.png] already. *)
Example add_folder_photos :
  file_list (self (snd (add_folder env_folder desktop_one)))
  = ["photos/cat.png"; "photos/dog.jpg"] ∧
  listbox (self (snd (add_folder env_folder desktop_one))) = ["cat.png"; "dog.jpg"].
Proof. vm_compute. done. Qed.

(** ** The window of the GUI: a run *)

Lemma logged_nil next a : logged [] next a = a.
Proof. destruct a. unfold logged. simpl. by rewrite app_nil_r. Qed.

Lemma logged_cons r results next a :
  logged results (S next + length results)
         (set_progress_value (Z.of_nat next + 1)
            (log_text_insert_end (r +:+ String "010" "") a))
  = logged (r :: results) (next + length (r :: results)) a.
Proof.
  unfold logged, set_progress_value, log_text_insert_end. simpl.
  rewrite <- app_assoc. simpl.
  assert ((if bool_decide (results = []) then Z.of_nat next + 1
           else Z.of_nat (S (next + length results)))
          = (if bool_decide (r :: results = []) then progress_value a
             else Z.of_nat (next + S (length results)))) as ->; [| done].
  rewrite (bool_decide_false (r :: results = [])) by done.
  case_bool_decide as Hr; [subst; simpl |]; lia.
Qed.

Lemma logged_app r1 r2 next a :
  logged r2 (next + length r1 + length r2) (logged r1 (next + length r1) a)
  = logged (r1 ++ r2) (next + length (r1 ++ r2)) a.
Proof.
  unfold logged. simpl. rewrite map_app, app_assoc, length_app.
  assert ((if bool_decide (r2 = [])
           then if bool_decide (r1 = []) then progress_value a
                else Z.of_nat (next + length r1)
           else Z.of_nat (next + length r1 + length r2))
          = (if bool_decide (r1 ++ r2 = []) then progress_value a
             else Z.of_nat (next + (length r1 + length r2)))) as ->; [| done].
  destruct r2 as [|r r2].
  - rewrite app_nil_r. rewrite (bool_decide_true ([] = [])) by done.
    simpl. by rewrite Nat.add_0_r.
  - rewrite (bool_decide_false (r :: r2 = [])) by done.
    rewrite bool_decide_false by (by destruct r1). f_equal. lia.
Qed.

Lemma log_results_cons next r rest d :
  log_results next (Some r :: rest) d
  = log_results (S next) rest
      (set_self (set_progress_value (Z.of_nat next + 1)
                   (log_text_insert_end (r +:+ String "010" "") (self d))) d).
Proof. reflexivity. Qed.

Lemma log_results_spec pending : ∀ next d,
  ∃ yielded rest,
    log_results next pending d =
      (Return ((next + length yielded)%nat, rest),
       set_self (logged yielded (next + length yielded) (self d)) d) ∧
    pending = map Some yielded ++ rest ∧
    (∀ r, head rest ≠ Some (Some r)).
Proof.
  induction pending as [|s pending IH]; intros next d.
  - exists [], []. simpl. rewrite logged_nil, set_self_self, Nat.add_0_r. done.
  - destruct s as [r|].
    + rewrite log_results_cons.
      destruct (IH (S next) (set_self (set_progress_value (Z.of_nat next + 1)
                               (log_text_insert_end (r +:+ String "010" "") (self d))) d))
        as (yielded & rest & Hrun & Hp & Hh).
      exists (r :: yielded), rest. rewrite Hrun. simpl self.
      rewrite logged_cons. simpl length.
      replace (S next + length yielded)%nat with (next + S (length yielded))%nat by lia.
      split; [done |]. split; [by rewrite Hp | done].
    + exists [], (None :: pending). simpl.
      rewrite logged_nil, set_self_self, Nat.add_0_r. done.
Qed.

Section Pool.
Context (env : Env) (tasks : list WorkerTask).
Context (IW : World → Prop) (Q : nat → string → Prop).
Hypothesis job_step : ∀ i g w line w',
  tasks !! i = Some g → IW w →
  compress_image_worker env g w = (Return line, w') → IW w' ∧ Q i line.

Lemma worker_pool_spec order : ∀ next pending d,
  futures_ok (length tasks) Q order next pending →
  IW (world d) →
  ∃ results d',
    worker_pool env tasks order next pending d = (Return tt, d') ∧
    self d' = logged results (next + length results) (self d) ∧
    IW (world d') ∧ messagebox d' = messagebox d ∧ threads d' = threads d ∧
    length results = length pending ∧
    ∀ j r, results !! j = Some r → Q (next + j)%nat r.
Proof.
  induction order as [|i order IH]; intros next pending d Hok HI.
  - destruct Hok as (_ & _ & Hc & _ & _ & Hf).
    assert (pending = []) as ->.
    { destruct pending as [|[r|] pending]; [done | by destruct (Hf r) |].
      assert (0 + next ∈ @nil nat)%nat as Hin; [| by apply elem_of_nil in Hin].
      rewrite Nat.add_comm. apply (Hc 0%nat); simpl; [lia | done]. }
    exists [], d. simpl. rewrite logged_nil. done.
  - destruct Hok as (Hnd & Hlen & Hc & Hd & He & Hf).
    assert (next ≤ i < next + length pending)%nat as Hi by (apply Hd; left).
    destruct (lookup_lt_is_Some_2 tasks i) as [g Hg]; [lia |].
    simpl worker_pool. rewrite Hg, G_bind_run. unfold lift at 1.
    destruct (compress_image_worker_returns env g (world d)) as (r & w1 & Hrun).
    rewrite Hrun.
    destruct (job_step i g (world d) r w1 Hg HI Hrun) as [HI1 HQ].
    assert ((next <=? i)%nat = true) as -> by (apply Nat.leb_le; lia).
    set (pending1 := <[(i - next)%nat := Some r]> pending).
    assert (pending !! (i - next)%nat = Some None) as Hslot.
    { apply Hc; [lia |]. replace (next + (i - next))%nat with i by lia. left. }
    assert (∀ j r', pending1 !! j = Some (Some r') → Q (next + j)%nat r') as He1.
    { intros j r' Hj. subst pending1.
      destruct (decide (j = (i - next)%nat)) as [-> | Hne].
      - rewrite list_lookup_insert_eq in Hj by lia. injection Hj as <-.
        by replace (next + (i - next))%nat with i by lia.
      - rewrite list_lookup_insert_ne in Hj by done. by apply He. }
    rewrite G_bind_run.
    destruct (log_results_spec pending1 next (set_world w1 d))
      as (yielded & pending2 & Hlog & Hp & Hf2).
    rewrite Hlog.
    set (m := length yielded) in *.
    assert (length pending = (m + length pending2)%nat) as Hlen1.
    { rewrite <- (length_insert pending (i - next) (Some r)). fold pending1.
      rewrite Hp, length_app, length_map. done. }
    assert (∀ j, pending2 !! j = pending1 !! (m + j)%nat) as Hshift.
    { intros j. rewrite Hp, lookup_app_r by (rewrite length_map; lia).
      rewrite length_map. f_equal. lia. }
    assert (∀ j, (j < m)%nat → pending1 !! j = Some (yielded !! j)) as Hfront.
    { intros j Hj. rewrite Hp, lookup_app_l by (rewrite length_map; lia).
      rewrite list_lookup_fmap.
      destruct (lookup_lt_is_Some_2 yielded j Hj) as [y Hy]. by rewrite Hy. }
    inversion Hnd as [|? ? Hnotin Hnd']; subst.
    destruct (IH (next + m)%nat pending2
                (set_self (logged yielded (next + m) (self (set_world w1 d)))
                          (set_world w1 d)))
      as (later & d' & Hrest & Hself & HI' & Hbox & Hthr & Hlen' & HQ').
    { split; [done |]. split; [lia |]. split; [| split; [| split; [| done]]].
      - intros j Hj. rewrite Hshift. unfold pending1.
        destruct (decide ((m + j)%nat = (i - next)%nat)) as [Heq | Hne].
        + rewrite Heq, list_lookup_insert_eq by lia.
          split; [done |]. intros Hin. exfalso. apply Hnotin.
          by replace i with (next + m + j)%nat by lia.
        + rewrite list_lookup_insert_ne by done.
          rewrite Hc by lia. replace (next + (m + j))%nat with (next + m + j)%nat by lia.
          rewrite elem_of_cons. split; [intros [?|?]; [lia | done] | auto].
      - intros i' Hi'. assert (next ≤ i' < next + length pending)%nat as Hb
          by (apply Hd; by right).
        split; [| lia].
        destruct (decide (i' - next < m)%nat) as [Hlt | Hge]; [| lia].
        pose proof (Hfront _ Hlt) as Hr'. unfold pending1 in Hr'.
        assert (i' ≠ i) by (intros ->; done).
        rewrite list_lookup_insert_ne in Hr' by lia.
        assert (pending !! (i' - next)%nat = Some None) as Hnone.
        { apply Hc; [lia |]. replace (next + (i' - next))%nat with i' by lia. by right. }
        rewrite Hnone in Hr'. injection Hr' as Hr'.
        destruct (lookup_lt_is_Some_2 yielded (i' - next)%nat Hlt) as [y Hy]. congruence.
      - intros j r' Hj. rewrite Hshift in Hj. apply He1 in Hj.
        by replace (next + m + j)%nat with (next + (m + j))%nat by lia. }
    { done. }
    exists (yielded ++ later), d'. split; [done |].
    split.
    { rewrite Hself. simpl self. subst m. rewrite logged_app. done. }
    split; [done |]. split; [by rewrite Hbox |]. split; [by rewrite Hthr |].
    split; [rewrite length_app, Hlen'; fold m; lia |].
    intros j r' Hj.
    destruct (decide (j < m)%nat) as [Hlt | Hge].
    + rewrite lookup_app_l in Hj by done. apply He1.
      by rewrite (Hfront j Hlt), Hj.
    + rewrite lookup_app_r in Hj by lia. fold m in Hj. apply HQ' in Hj.
      by replace (next + j)%nat with (next + m + (j - m))%nat by lia.
Qed.

End Pool.

Lemma futures_ok_initial n Q order :
  Permutation order (seq 0 n) →
  futures_ok n Q order 0 (replicate n None).
Proof.
  intros Hperm.
  assert (∀ i, i ∈ order ↔ (i < n)%nat) as Hin.
  { intros i. rewrite Hperm, elem_of_seq. lia. }
  split; [| split; [| split; [| split; [| split]]]].
  - rewrite Hperm. apply NoDup_seq.
  - by rewrite length_replicate.
  - intros j Hj. rewrite length_replicate in Hj.
    rewrite lookup_replicate_2 by done. rewrite Hin. simpl. split; [lia | done].
  - intros i Hi. apply Hin in Hi. rewrite length_replicate. lia.
  - intros j r Hj. apply lookup_replicate in Hj as [? _]. discriminate.
  - intros r. by destruct n.
Qed.

Lemma worker_task_for_run f output_dir resize_pct max_dim q m d :
  quality (self d) = int_value q →
  webp_method (self d) = int_value m →
  worker_task_for f output_dir resize_pct max_dim d =
    (Return (mkWorkerTask f output_dir q (use_webp (self d)) m
               resize_pct max_dim (strip_exif (self d))), d).
Proof.
  intros Hq Hm. cbv [worker_task_for mbind G_bind attr IntVar_get mret G_ret].
  by rewrite Hq, Hm.
Qed.

Lemma worker_tasks_run files output_dir resize_pct max_dim q m : ∀ d,
  quality (self d) = int_value q →
  webp_method (self d) = int_value m →
  worker_tasks files output_dir resize_pct max_dim d =
    (Return (map (λ f, mkWorkerTask f output_dir q (use_webp (self d)) m
                         resize_pct max_dim (strip_exif (self d))) files), d).
Proof.
  intros d Hq Hm. induction files as [|f files IH]; [done |].
  simpl worker_tasks. rewrite G_bind_run, (worker_task_for_run _ _ _ _ q m) by done.
  by rewrite G_bind_run, IH.
Qed.

Lemma worker_job_reports env files output_dir q webp m resize_pct max_dim strip w0
    i g w line w' :
  map (λ f, mkWorkerTask f output_dir q webp m resize_pct max_dim strip) files !! i
    = Some g →
  stdout w = stdout w0 →
  compress_image_worker env g w = (Return line, w') →
  stdout w' = stdout w0 ∧ ∃ f, files !! i = Some f ∧ reports_file webp f line.
Proof.
  intros Hg Hw Hrun. split.
  - pose proof (worker_keeps_console env g w) as [Ho _]. rewrite Hrun in Ho. simpl in Ho.
    congruence.
  - rewrite list_lookup_fmap in Hg. destruct (files !! i) as [f|]; [| done].
    injection Hg as <-. exists f. split; [done |].
    apply compress_image_worker_inv in Hrun as [[e ->] | [-> _]].
    + right. by eexists.
    + by left.
Qed.



(** X20.  When the percentage is selected and its field does not hold a
    number, [run_compression] ends with the [TclError] of the variable
    right after the first line of the log: no worker is started, nothing is
    written, no message box appears, and the progress bar stays at zero. *)
Theorem run_compression_unreadable_percentage env output_dir d text :
  resize_mode (self d) = "pct" →
  resize_pct_var (self d) = int_invalid text →
  ∃ d',
    run_compression env output_dir d = (Raise (TclError text), d') ∧
    world d' = world d ∧ messagebox d' = messagebox d ∧ threads d' = threads d ∧
    log_text (self d') =
      log_text (self d) ++ ["Starting compression..." +:+ String "010" ""] ∧
    progress_value (self d') = 0 ∧
    progress_maximum (self d') = Z.of_nat (length (file_list (self d))).
Proof.
  intros Hmode Hvar. unfold run_compression.
  rewrite G_bind_run. unfold assign at 1.
  rewrite G_bind_run. unfold attr at 1.
  rewrite G_bind_run. unfold assign at 1.
  rewrite G_bind_run. unfold log at 1, assign at 1.
  set (a1 := log_text_insert_end _ _).
  set (d1 := set_self a1 _).
  assert (self d1 = a1) as Hs1 by done.
  rewrite G_bind_run. unfold attr at 1. rewrite Hs1.
  change (resize_mode a1) with (resize_mode (self d)).
  rewrite G_bind_run, Hmode. rewrite bool_decide_true by done.
  cbv [fmap G_fmap mbind G_bind attr IntVar_get]. rewrite Hs1.
  change (resize_pct_var a1) with (resize_pct_var (self d)). rewrite Hvar.
  exists d1. done.
Qed.

Lemma run_compression_unreadable_percentage_witness :
  ∃ d',
    run_compression env_ref "photos" (mkDesktop app_percent world_photos [] [])
      = (Raise (TclError "fifty"), d') ∧
    world d' = world_photos ∧ messagebox d' = [] ∧ threads d' = [] ∧
    log_text (self d') = ["Starting compression..." +:+ String "010" ""] ∧
    progress_value (self d') = 0 ∧
    progress_maximum (self d') = 2.
Proof.
  apply (run_compression_unreadable_percentage env_ref "photos"
           (mkDesktop app_percent world_photos [] []) "fifty"); reflexivity.
Defined.

(** ** Running a job again *)

Lemma pure_call_move {A} (m : M A) w r w1 w2 :
  pure_call m → m w = (r, w1) → m w2 = (r, w2).
Proof. intros [r' H] E. rewrite H in E. injection E as <- _. apply H. Qed.

Lemma get_file_size_move env p w s w1 w2 :
  os.stat w2 p = os.stat w p →
  get_file_size env p w = (Return s, w1) →
  get_file_size env p w2 = (Return s, w2).
Proof.
  intros Hst. unfold get_file_size. rewrite !bind_run. unfold os.path_getsize.
  rewrite Hst. destruct (fault env _); [discriminate |].
  destruct (os.stat w p) as [[|n o]|]; [| | discriminate].
  - simpl. by intros [= <- _].
  - destruct (n <? _); by intros [= <- _].
Qed.

Lemma open_move env p w img w1 w2 :
  os.stat w2 p = os.stat w p →
  PIL.open env p w = (Return img, w1) →
  PIL.open env p w2 = (Return img, w2).
Proof.
  intros Hst. unfold PIL.open. rewrite Hst. destruct (fault env _); [discriminate |].
  destruct (os.stat w p) as [[|n [i|]]|]; try discriminate. by intros [= <- _].
Qed.

Lemma removelast_shorter {A} (l : list A) : l ≠ [] → removelast l ≠ l.
Proof.
  intros Hl E. apply (f_equal length) in E.
  assert (∀ l : list A, l ≠ [] → S (length (removelast l)) = length l) as H.
  { clear. induction l as [|a [|b l] IH]; [done | done |]. intros _.
    change (removelast (a :: b :: l)) with (a :: removelast (b :: l)).
    cbn [length]. by rewrite IH. }
  specialize (H l Hl). lia.
Qed.

Lemma save_again env img p format params w w' :
  PIL.save env img p format params w = (Return tt, w') →
  PIL.save env img p format params w' = (Return tt, w').
Proof.
  unfold PIL.save.
  destruct (match format with Some f => Some f | None => _ end) as [f|];
    [| discriminate].
  destruct (negb (bool_decide _)); [discriminate |].
  destruct (Str.truthy p); [| discriminate]. simpl.
  destruct (os.resolve w p) as [|c k] eqn:Hk; [discriminate |].
  assert (removelast (c :: k) ≠ c :: k) as Hrl by (by apply removelast_shorter).
  destruct (PIL.node_at w (c :: k)) as [[|n o]|] eqn:Ht,
           (PIL.node_at w (removelast (c :: k))) as [[|n' o']|] eqn:Hpar;
    try discriminate;
    (destruct (fault env _); [discriminate |]); intros [= <-];
    rewrite (resolve_cwd (set_fs _ w) w), Hk by done;
    rewrite !node_at_insert by done;
    rewrite decide_True, decide_False, Hpar by done;
    unfold set_fs; cbn [fs cwd stdout stdin]; by rewrite insert_insert_eq.
Qed.

(** X21.  A job that went through can be run again: as long as the output
    is not written over the input, the second run returns the same line and
    leaves every file as the first run left it. *)
Theorem successful_job_repeats env t w line w' :
  compress_image env t w = (Return (Some line), w') →
  is_success_line line = true →
  os.resolve w (t_input_path t) ≠ os.resolve w (t_output_path t) →
  compress_image env t w' = (Return (Some line), w').
Proof.
  intros Hrun Hl Hne.
  pose proof (compress_image_extends env t w) as Hext. rewrite Hrun in Hext. simpl in Hext.
  pose proof (compress_image_line _ _ _ _ _ Hrun) as [Hs _].
  apply compress_image_success_inv in Hrun; [| done].
  assert (os.stat w' (t_input_path t) = os.stat w (t_input_path t)) as Hst.
  { revert Hs. rewrite !stat_node_at. destruct (Str.truthy _); [| done]. intros Hs.
    rewrite (resolve_cwd w' w) by apply Hext.
    apply (extends_except_spares _ _ _ _ Hext); [done | by left]. }
  rewrite compress_image_enters_try by (by rewrite Hst).
  rewrite try_except_run.
  enough (compress_image_try env t w' = (Return (Some line), w')) as -> by done.
  clear Hs Hl.
  destruct t as [inp out q uw wm rp md se di]. simpl in *.
  unfold compress_image_try in *.
  apply bind_Return_inv in Hrun as (osz & w1 & Hosz & Hrun).
  pose proof (get_file_size_inv _ _ _ _ _ Hosz) as [-> _].
  rewrite bind_run, (get_file_size_move env inp w osz w w') by done.
  apply bind_Return_inv in Hrun as (img & w1 & Hopen & Hrun).
  pose proof (open_inv _ _ _ _ _ Hopen) as [-> _].
  rewrite bind_run, (open_move env inp w img w w') by done.
  apply bind_Return_inv in Hrun as (img1 & w1 & Hstrip & Hrun).
  pose proof (pure_strip env se img) as Hp1.
  pose proof (pure_call_move _ _ _ _ w Hp1 Hstrip) as Hw1.
  rewrite Hstrip in Hw1. injection Hw1 as ->.
  rewrite bind_run, (pure_call_move _ _ _ _ w' Hp1 Hstrip).
  apply bind_Return_inv in Hrun as (img2 & w1 & Hres & Hrun).
  pose proof (pure_resize_stage env img1 rp md) as Hp2.
  pose proof (pure_call_move _ _ _ _ w Hp2 Hres) as Hw1.
  rewrite Hres in Hw1. injection Hw1 as ->.
  rewrite bind_run, (pure_call_move _ _ _ _ w' Hp2 Hres).
  apply bind_Return_inv in Hrun as (present & w1 & Hex & Hrun).
  unfold os.path_exists in Hex. injection Hex as <- <-.
  apply bind_Return_inv in Hrun as ([] & w1 & Hmk & Hrun).
  apply bind_Return_inv in Hrun as ([] & w2 & Hsave & Hrun).
  apply bind_Return_inv in Hrun as (csz & w3 & Hcsz & Hrun).
  pose proof (get_file_size_inv _ _ _ _ _ Hcsz) as [-> _].
  injection Hrun as <- <-.
  assert (is_Some (os.stat w1 (os_path.dirname out))) as Hd1.
  { destruct (decide (is_Some (os.stat w (os_path.dirname out)))) as [Hex | Hex].
    - rewrite bool_decide_true in Hmk by done. simpl in Hmk. by injection Hmk as <-.
    - rewrite bool_decide_false in Hmk by done. simpl in Hmk.
      apply makedirs_inv in Hmk as (_ & _ & -> & _). by eexists. }
  assert (extends_except (os.resolve w1 out) w1 w2) as Hext2.
  { destruct uw.
    - pose proof (save_extends env img2 out (Some "webp")
                    (mkSaveParams true (Some q) (Some wm)) w1) as H.
      by rewrite Hsave in H.
    - apply bind_Return_inv in Hsave as (img3 & w4 & Hq & Hsave).
      assert (w4 = w1) as ->.
      { destruct (_ || _).
        - by apply quantize_inv_image in Hq as [-> _].
        - apply bind_Return_inv in Hq as (rgb & w5 & Hc & Hq).
          apply convert_inv_image in Hc as [-> _].
          by apply quantize_inv_image in Hq as [-> _]. }
      pose proof (save_extends env img3 out None (mkSaveParams true None None) w1) as H.
      by rewrite Hsave in H. }
  rewrite bind_run. unfold os.path_exists at 1.
  rewrite (bool_decide_true (is_Some (os.stat w2 (os_path.dirname out))))
    by (by apply (extends_except_stat _ _ _ _ Hext2)).
  rewrite bind_run. simpl when. unfold mret at 1, M_ret at 1. cbv iota beta.
  rewrite bind_run.
  assert ((if uw
           then PIL.save env img2 out (Some "webp")
                  (mkSaveParams true (Some q) (Some wm))
           else
             (if bool_decide (mode img2 = "RGBA") || bool_decide ("transparency" ∈ info img2)
              then PIL.quantize env img2 256 LIBIMAGEQUANT di
              else PIL.convert env img2 "RGB"
                     ≫= λ rgb, PIL.quantize env rgb 256 LIBIMAGEQUANT di)
               ≫= λ img3, PIL.save env img3 out None (mkSaveParams true None None)) w2
          = (Return tt, w2)) as ->.
  { destruct uw; [by apply (save_again _ _ _ _ _ w1) |].
    apply bind_Return_inv in Hsave as (img3 & w4 & Hq & Hsave).
    assert (pure_call
              (if bool_decide (mode img2 = "RGBA") || bool_decide ("transparency" ∈ info img2)
               then PIL.quantize env img2 256 LIBIMAGEQUANT di
               else PIL.convert env img2 "RGB"
                      ≫= λ rgb, PIL.quantize env rgb 256 LIBIMAGEQUANT di)) as Hp3.
    { destruct (_ || _); [apply pure_quantize |].
      apply pure_bind; [apply pure_convert | intros rgb; apply pure_quantize]. }
    pose proof (pure_call_move _ _ _ _ w1 Hp3 Hq) as Hw4.
    rewrite Hq in Hw4. injection Hw4 as ->.
    rewrite bind_run, (pure_call_move _ _ _ _ w2 Hp3 Hq).
    by apply (save_again _ _ _ _ _ w1). }
  rewrite bind_run, Hcsz. done.
Qed.

Lemma successful_job_repeats_witness :
  compress_image env_ref
    (task_for (default_args "photos" "out") "photos/cat.png" "out/cat.webp")
    (snd (compress_image env_ref
            (task_for (default_args "photos" "out") "photos/cat.png" "out/cat.webp")
            world_photos))
  = compress_image env_ref
      (task_for (default_args "photos" "out") "photos/cat.png" "out/cat.webp")
      world_photos.
Proof.
  destruct (compress_image env_ref
              (task_for (default_args "photos" "out") "photos/cat.png" "out/cat.webp")
              world_photos) as [[[line|]|e] w'] eqn:Hrun;
    [| vm_compute in Hrun; discriminate | vm_compute in Hrun; discriminate].
  simpl snd.
  apply (successful_job_repeats _ _ world_photos line w' Hrun).
  - vm_compute in Hrun. injection Hrun as <- _. reflexivity.
  - vm_compute. discriminate.
Defined.

(** ** The dimensions of the file written *)

(** X22.  Without a percentage, a picture that already fits within the
    maximum dimension, and any picture when no maximum is given, is written
    with its own width and height. *)
Theorem fitting_image_keeps_its_size env t w line w' n src :
  compress_image env t w = (Return (Some line), w') →
  is_success_line line = true →
  os.stat w (t_input_path t) = Some (File n (Some src)) →
  PIL.truthy (t_resize_percentage t) = false →
  (PIL.truthy (t_max_dimension t) = true →
   fst (size src) ≤ val (t_max_dimension t) ∧
   snd (size src) ≤ val (t_max_dimension t)) →
  ∃ n' img,
    os.stat w' (t_output_path t) = Some (File n' (Some img)) ∧ size img = size src.
Proof.
  intros Hrun Hl Hsrc Hp Hfit. apply compress_image_success_inv in Hrun; [| done].
  apply compress_image_try_inv in Hrun
    as (n0 & src0 & img2 & w1 & img3 & f & params
        & Hst & _ & _ & _ & Hsz & Hc & Hfmt & Htr & Hne & -> & _).
  rewrite Hsrc in Hst. injection Hst as <- <-.
  specialize (Hsz Hp Hfit).
  do 2 eexists. split.
  - rewrite stat_node_at, Htr.
    rewrite (resolve_cwd (set_fs _ w1) w) by done. rewrite node_at_insert by done.
    by rewrite decide_True.
  - simpl. destruct (t_use_webp t).
    + destruct Hfmt as (-> & _). done.
    + destruct Hfmt as (_ & -> & _). done.
Qed.

Lemma fitting_image_keeps_its_size_witness :
  ∃ n' img,
    os.stat (snd (compress_image env_ref bounded_task world_photos)) "photos/cat.webp"
      = Some (File n' (Some img)) ∧ size img = (3, 7).
Proof.
  destruct (compress_image env_ref bounded_task world_photos) as [[[line|]|e] w'] eqn:Hrun;
    [| vm_compute in Hrun; discriminate | vm_compute in Hrun; discriminate].
  apply (fitting_image_keeps_its_size env_ref bounded_task world_photos line w'
           10240 cat_png Hrun).
  - vm_compute in Hrun. injection Hrun as <- _. reflexivity.
  - vm_compute. reflexivity.
  - reflexivity.
  - intros _. vm_compute. split; discriminate.
Defined.
